(** * Plan creator: review session, artifact rendering and plan extraction

    A shallow embedding of the plan-creator extension
    ([plan-creator/index.ts], [plan-creator/server.ts] and the page's
    [form/script.js]).

    Definitions:
    - [Js]: the JavaScript values the code handles without validation
      (the result of [JSON.parse]) and the coercions the code applies to them;
    - [Text]: the string operations, the two regular expressions and the
      shapes of a response (fenced block, brace span);
    - [Plan]: [ImplementationPlan], [planToMarkdown], [generatePlanId],
      the slug of the file name and the extraction step of [generatePlan];
    - [Session]: the event loop of one review session: the closure state of
      [startPlanServer] (idle timer, [lastActivity]), the request listener,
      and the closure state of [execute] ([server], [resolved], the promise)
      with [cleanup] and [finish];
    - [Reference]: an executable runtime (JSON parser, date formatting);
    - [Review]: [PlanReviewResult] as the interface declares it;
    - [Observe]: what a run shows, and the invariants of a session;
    - [Sample]: a plan, decisions and traces;
    - [Commands]: the label of [renderCall], the handlers of
      [/create-plan] and [/list-plans], the prompt of [generatePlan];
    - [Page]: the page of [GET /] with the plan data put in;
    - [Client]: what [handleSubmit] of the page sends;
    - [Schedule]: clients of a session and the states it goes through;
    - [Shape]: the payloads on which the renderer throws.

    Properties:
    - [RendererFacts], [RendererTheorems]: the phase blocks of the artifact;
    - [TextFacts], [ExtractionTheorems]: the extraction of the plan;
    - [SessionFacts], [TimerFacts], [VerdictFacts]: invariants of a session;
    - [ServerTheorems]: idle deadline, acknowledgement and grace delay;
    - [GuardTheorems], [CoordinatorTheorems]: the one-shot guard, the
      artifact file, the launch failure and the unvalidated submit;
    - [CommandFacts], [CommandTheorems]: the label, the commands, the
      context files of the prompt;
    - [ClientFacts], [ClientTheorems]: the selection and the decision the
      page submits;
    - [LivenessFacts], [LivenessTheorems]: heartbeats and the idle timeout;
    - [TeardownFacts], [TeardownTheorems]: answers, teardown, the server
      left running by an early abort, the final result and the artifact;
    - [ShapeFacts], [ShapeTheorems]: the default selection, the payloads
      on which the renderer throws, the phases of the summary;
    - [NamingFacts], [NamingTheorems], [ResponseTheorems]: the slug, and
      the extraction once more;
    - [PageFacts], [PageTheorems]: the plan data in the page;
    - [DecisionFacts], [DecisionTheorems]: the first decision, and the
      remaining time a heartbeat reports.

    Strings are sequences of bytes.  The ASCII behaviour of [\s], [trim] and
    [toLowerCase] is exact; bytes above 127 are treated as ordinary
    characters that are neither white space nor letters.  Numbers are
    integers.  A plan has the declared type; a review is any JSON value,
    and the conversions that throw on it ([ToString] and the comparison
    with 0 of an object with a member [toString], [includes], [map] and
    iteration where there is none) throw in the model.  Time is in
    milliseconds; a callback runs in no time. *)

From Stdlib Require Import ZArith List String Ascii Bool Lia DecimalString.
From Stdlib Require DecimalPos.
Import ListNotations.
Open Scope string_scope.
Open Scope Z_scope.
Set Warnings "-register-all".

(* ================================================================== *)
(** ** JavaScript values *)

Module Js.

(** A value produced by [JSON.parse].  An object keeps its members in
    source order; a later duplicate key overrides an earlier one. *)
Inductive json : Type :=
| JNull
| JBool (b : bool)
| JNum (n : Z)
| JStr (s : string)
| JArr (items : list json)
| JObj (fields : list (string * json)).

(** A value or [undefined]. *)
Definition jsval : Type := option json.

(** Evaluation that may throw a [TypeError]. *)
Inductive result (A : Type) : Type :=
| Ok (a : A)
| Throw.
Arguments Ok {A} a.
Arguments Throw {A}.

Definition bind {A B : Type} (m : result A) (k : A -> result B) : result B :=
  match m with
  | Ok a => k a
  | Throw => Throw
  end.

Notation "x <- m ;; k" := (bind m (fun x => k))
  (at level 61, m at next level, right associativity).

(** [ToBoolean]. *)
Definition truthy (v : jsval) : bool :=
  match v with
  | None => false
  | Some JNull => false
  | Some (JBool b) => b
  | Some (JNum n) => negb (n =? 0)
  | Some (JStr s) => negb (String.eqb s "")
  | Some (JArr _) => true
  | Some (JObj _) => true
  end.

Fixpoint lookup (k : string) (fields : list (string * json)) : jsval :=
  match fields with
  | [] => None
  | (k', v) :: rest =>
      match lookup k rest with
      | Some w => Some w
      | None => if String.eqb k k' then Some v else None
      end
  end.

(** [v.k] for a value [v] that is neither [null] nor [undefined] and a key
    [k] that no prototype defines ([decision], [notes], [priority],
    [approach], [selectedPhases], [requirements], [constraints]): only an
    object can have it. *)
Definition prop (v : json) (k : string) : jsval :=
  match v with
  | JObj fields => lookup k fields
  | _ => None
  end.

(** [v?.k]. *)
Definition opt_prop (v : jsval) (k : string) : jsval :=
  match v with
  | None => None
  | Some JNull => None
  | Some w => prop w k
  end.

(** [v === "s"]. *)
Definition is_string (v : jsval) (s : string) : bool :=
  match v with
  | Some (JStr t) => String.eqb t s
  | _ => false
  end.

(** [v === n] for a number [n]. *)
Definition is_number (v : jsval) (n : Z) : bool :=
  match v with
  | Some (JNum m) => m =? n
  | _ => false
  end.

Definition Z_to_string (n : Z) : string :=
  NilZero.string_of_int (Z.to_int n).

(** [ToString] of a JSON value.  An array goes through
    [Array.prototype.join], in which a [null] element is the empty string
    and any other element is converted in turn.  An object goes through
    [OrdinaryToPrimitive]: a member [toString] of its own hides
    [Object.prototype.toString], and as no JSON value is callable no
    method is left that returns a primitive ([Object.prototype.valueOf]
    returns the object): a [TypeError].  Without such a member the string
    is the one of [Object.prototype.toString]. *)
Fixpoint to_str (v : json) : result string :=
  match v with
  | JNull => Ok "null"
  | JBool true => Ok "true"
  | JBool false => Ok "false"
  | JNum n => Ok (Z_to_string n)
  | JStr s => Ok s
  | JArr items =>
      parts <- (fix join (l : list json) : result (list string) :=
                  match l with
                  | [] => Ok []
                  | e :: rest =>
                      part <- match e with JNull => Ok "" | _ => to_str e end ;;
                      parts <- join rest ;;
                      Ok (part :: parts)
                  end) items ;;
      Ok (String.concat "," parts)
  | JObj fields =>
      match lookup "toString" fields with
      | Some _ => Throw
      | None => Ok "[object Object]"
      end
  end.

(** A template literal hole [${v}]. *)
Definition tpl (v : jsval) : result string :=
  match v with
  | None => Ok "undefined"
  | Some w => to_str w
  end.

(** The values [ToString] returns on: no object with a member [toString]
    of its own is met on the way through the arrays. *)
Fixpoint stringable (v : json) : bool :=
  match v with
  | JArr items => forallb stringable items
  | JObj fields =>
      match lookup "toString" fields with
      | Some _ => false
      | None => true
      end
  | _ => true
  end.

(** The same for a value or [undefined]. *)
Definition printable (v : jsval) : bool :=
  match v with
  | Some w => stringable w
  | None => true
  end.

Fixpoint contains (sub s : string) : bool :=
  if prefix sub s then true
  else match s with
       | EmptyString => false
       | String _ s' => contains sub s'
       end.

(** [v.includes(n)] for a number [n]: [Array.prototype.includes] compares
    with SameValueZero, [String.prototype.includes] searches the decimal
    numeral, any other JSON value has no [includes] to call. *)
Definition includes (v : json) (n : Z) : result bool :=
  match v with
  | JArr items => Ok (existsb (fun e => is_number (Some e) n) items)
  | JStr s => Ok (contains (Z_to_string n) s)
  | _ => Throw
  end.

(** [v[0]]. *)
Definition index0 (v : json) : jsval :=
  match v with
  | JArr items => hd_error items
  | JStr (String c _) => Some (JStr (String c EmptyString))
  | JObj fields => lookup "0" fields
  | _ => None
  end.

(** [v.length]. *)
Definition length_of (v : json) : jsval :=
  match v with
  | JArr items => Some (JNum (Z.of_nat (List.length items)))
  | JStr s => Some (JNum (Z.of_nat (String.length s)))
  | JObj fields => lookup "length" fields
  | _ => None
  end.

Section Coercions.
(** [ToNumber(s) > 0] for a string [s], as the runtime decides it. *)
Variable StringToNumber_pos : string -> bool.

(** [v > 0].  An array or an object is first made a primitive with the
    hint [number]: [valueOf] returns the value itself, so the string of
    [toString] is what is compared, and the conversion throws where
    [to_str] does.  The string of an object is not a numeral: the
    comparison with [NaN] is false. *)
Definition gt0 (v : jsval) : result bool :=
  match v with
  | None => Ok false
  | Some JNull => Ok false
  | Some (JBool b) => Ok b
  | Some (JNum n) => Ok (0 <? n)
  | Some (JStr s) => Ok (StringToNumber_pos s)
  | Some (JArr items) => s <- to_str (JArr items) ;; Ok (StringToNumber_pos s)
  | Some (JObj fields) => _ <- to_str (JObj fields) ;; Ok false
  end.

(** [v && v.length > 0]. *)
Definition nonempty (v : jsval) : result bool :=
  match v with
  | Some w => if truthy v then gt0 (length_of w) else Ok false
  | None => Ok false
  end.
End Coercions.

(** The values a [for (const x of v)] loop visits. *)
Definition iterate (v : json) : result (list json) :=
  match v with
  | JArr items => Ok items
  | JStr s => Ok (map (fun c => JStr (String c EmptyString)) (list_ascii_of_string s))
  | _ => Throw
  end.

(** [v.map(f)] exists on arrays only. *)
Definition array_items (v : json) : result (list json) :=
  match v with
  | JArr items => Ok items
  | _ => Throw
  end.

End Js.

(* ================================================================== *)
(** ** Strings and the regular expressions of the code *)

Module Text.

(** [\s] on ASCII: tab, line feed, vertical tab, form feed, carriage
    return, space. *)
Definition is_space (c : ascii) : bool :=
  let n := nat_of_ascii c in
  ((9 <=? n) && (n <=? 13))%nat || (n =? 32)%nat.

Fixpoint ltrim (s : string) : string :=
  match s with
  | EmptyString => EmptyString
  | String c s' => if is_space c then ltrim s' else s
  end.

Fixpoint rtrim (s : string) : string :=
  match s with
  | EmptyString => EmptyString
  | String c s' =>
      match rtrim s' with
      | EmptyString => if is_space c then EmptyString else String c EmptyString
      | r => String c r
      end
  end.

(** [s.trim()]. *)
Definition trim (s : string) : string := rtrim (ltrim s).

Definition lower (c : ascii) : ascii :=
  let n := nat_of_ascii c in
  if ((65 <=? n) && (n <=? 90))%nat then ascii_of_nat (n + 32) else c.

(** [s.toLowerCase()]. *)
Fixpoint toLowerCase (s : string) : string :=
  match s with
  | EmptyString => EmptyString
  | String c s' => String (lower c) (toLowerCase s')
  end.

(** [s.replace(/\s+/g, "-")]: [inrun] tells that the previous character
    belongs to the run of white space being replaced. *)
Fixpoint dash_runs (inrun : bool) (s : string) : string :=
  match s with
  | EmptyString => EmptyString
  | String c s' =>
      if is_space c then
        if inrun then dash_runs true s' else String "-" (dash_runs true s')
      else String c (dash_runs false s')
  end.

(** A character of the class [[a-z0-9-]]. *)
Definition slug_char (c : ascii) : bool :=
  let n := nat_of_ascii c in
  ((97 <=? n) && (n <=? 122))%nat || ((48 <=? n) && (n <=? 57))%nat || (n =? 45)%nat.

(** [s.replace(/[^a-z0-9-]/g, "")]. *)
Fixpoint keep_slug (s : string) : string :=
  match s with
  | EmptyString => EmptyString
  | String c s' => if slug_char c then String c (keep_slug s') else keep_slug s'
  end.

(** [s.split(c)[0]]. *)
Fixpoint before_first (c : ascii) (s : string) : string :=
  match s with
  | EmptyString => EmptyString
  | String d s' => if Ascii.eqb c d then EmptyString else String d (before_first c s')
  end.

(** [s.replace(/c/g, "")] for a single character [c]. *)
Fixpoint remove_char (c : ascii) (s : string) : string :=
  match s with
  | EmptyString => EmptyString
  | String d s' => if Ascii.eqb c d then remove_char c s' else String d (remove_char c s')
  end.

(** The rest of [s] after the literal [p], when [s] starts with [p]. *)
Fixpoint strip_prefix (p s : string) : option string :=
  match p, s with
  | EmptyString, _ => Some s
  | String a p', String b s' => if Ascii.eqb a b then strip_prefix p' s' else None
  | String _ _, EmptyString => None
  end.

Definition fence : string := "```".

(** {[ /```(?:json)?\s*([\s\S]*?)```/ ]}
    The matcher follows the backtracking order of the expression.
    [capture_until_fence s] is the lazy group followed by the closing
    fence: the text before the first fence of [s]. *)
Fixpoint capture_until_fence (s : string) : option string :=
  match strip_prefix fence s with
  | Some _ => Some EmptyString
  | None =>
      match s with
      | EmptyString => None
      | String c s' => option_map (String c) (capture_until_fence s')
      end
  end.

(** [\s*] is greedy: take one more white space character first, give it
    back when the rest does not match. *)
Fixpoint after_ws (s : string) : option string :=
  match s with
  | String c s' =>
      if is_space c then
        match after_ws s' with
        | Some g => Some g
        | None => capture_until_fence s
        end
      else capture_until_fence s
  | EmptyString => capture_until_fence s
  end.

(** [(?:json)?] is greedy: with the tag first, then without it. *)
Definition after_open (s : string) : option string :=
  match strip_prefix "json" s with
  | Some r =>
      match after_ws r with
      | Some g => Some g
      | None => after_ws s
      end
  | None => after_ws s
  end.

(** The first capture group of the leftmost match, [None] when
    [text.match] returns [null]. *)
Fixpoint match_fence (text : string) : option string :=
  let here :=
    match strip_prefix fence text with
    | Some r => after_open r
    | None => None
    end in
  match here with
  | Some g => Some g
  | None =>
      match text with
      | EmptyString => None
      | String _ t => match_fence t
      end
  end.

(** {[ /\{[\s\S]*\}/ ]}
    [upto_last_close s] is the greedy [[\s\S]*\}]: the longest prefix of
    [s] that ends with a closing brace. *)
Fixpoint upto_last_close (s : string) : option string :=
  match s with
  | EmptyString => None
  | String c s' =>
      match upto_last_close s' with
      | Some r => Some (String c r)
      | None => if Ascii.eqb c "}" then Some "}" else None
      end
  end.

(** The whole leftmost match, [None] when [text.match] returns [null]. *)
Fixpoint match_object (text : string) : option string :=
  match text with
  | EmptyString => None
  | String c t =>
      if Ascii.eqb c "{" then
        match upto_last_close t with
        | Some r => Some (String "{" r)
        | None => match_object t
        end
      else match_object t
  end.

(** [s] has no occurrence of the character [c]. *)
Fixpoint lacks (c : ascii) (s : string) : bool :=
  match s with
  | EmptyString => true
  | String d s' => negb (Ascii.eqb c d) && lacks c s'
  end.

Fixpoint all_space (s : string) : bool :=
  match s with
  | EmptyString => true
  | String c s' => is_space c && all_space s'
  end.

(** [s] is a contiguous piece of [text]. *)
Definition piece (text s : string) : Prop :=
  exists a b, text = a ++ s ++ b.

Definition backtick : ascii := "`".

(** The pieces of a text, for checking a text piece by piece. *)
Fixpoint prefixes (s : string) : list string :=
  match s with
  | EmptyString => [EmptyString]
  | String c s' => EmptyString :: map (String c) (prefixes s')
  end.

Fixpoint pieces (s : string) : list string :=
  match s with
  | EmptyString => [EmptyString]
  | String c s' => (prefixes s ++ pieces s')%list
  end.

Definition bytes (l : list nat) : string :=
  string_of_list_ascii (map ascii_of_nat l).

Definition newline : string := bytes [10%nat].

(** *** The shapes of a response *)

(** The text after the first three characters. *)
Definition drop3 (s : string) : string :=
  match s with
  | String _ (String _ (String _ r)) => r
  | _ => EmptyString
  end.

(** [s] holds a triple backtick. *)
Fixpoint holds_fence (s : string) : bool :=
  match strip_prefix fence s with
  | Some _ => true
  | None =>
      match s with
      | EmptyString => false
      | String _ s' => holds_fence s'
      end
  end.

(** [text] holds a fenced block: its first triple backtick is followed
    by another one. *)
Fixpoint fenced (text : string) : bool :=
  match strip_prefix fence text with
  | Some rest => holds_fence rest
  | None =>
      match text with
      | EmptyString => false
      | String _ t => fenced t
      end
  end.

(** No triple backtick starts inside [s], even when backticks follow
    it. *)
Definition no_fence_in (s : string) : bool :=
  negb (holds_fence (s ++ "``")).

(** What stands in a fence, without the tag [json]. *)
Definition untagged (inner : string) : string :=
  match strip_prefix "json" inner with
  | Some r => r
  | None => inner
  end.

(** [text] holds an opening brace and a closing brace after it. *)
Fixpoint braced (text : string) : bool :=
  match text with
  | EmptyString => false
  | String c t => if Ascii.eqb c "{" then negb (lacks "}" t) else braced t
  end.

(** The explicitly delimited block of a response: what its first fenced
    block holds, the tag removed; the whole response when it has no
    fenced block. *)
Inductive block : string -> string -> Prop :=
| block_fenced (pre inner post : string) :
    no_fence_in pre = true ->
    no_fence_in inner = true ->
    block (pre ++ fence ++ inner ++ fence ++ post) (untagged inner)
| block_whole (text : string) :
    fenced text = false ->
    block text text.

(** The outermost object-like span of a response: from its first opening
    brace to its last closing brace, when the one comes before the
    other. *)
Inductive span : string -> option string -> Prop :=
| span_braces (pre body post : string) :
    lacks "{" pre = true ->
    lacks "}" post = true ->
    span (pre ++ "{" ++ body ++ "}" ++ post) (Some ("{" ++ body ++ "}"))
| span_absent (text : string) :
    braced text = false ->
    span text None.

End Text.

(* ================================================================== *)
(** ** Plans, the artifact renderer and the plan extraction *)

Module Plan.
Import Js Text.

Record SuccessCriteria : Type := {
  automated : list string;
  manual : list string
}.

Record PlanPhase : Type := {
  number : Z;
  name : string;
  description : string;
  tasks : list string;
  successCriteria : SuccessCriteria;
  implementationNotes : option string
}.

Record TestingStrategy : Type := {
  unit_tests : list string;
  integration : list string;
  manual_tests : list string
}.

Record ImplementationPlan : Type := {
  title : string;
  overview : string;
  currentState : option string;
  desiredEndState : option string;
  outOfScope : option (list string);
  phases : list PlanPhase;
  testingStrategy : option TestingStrategy;
  references : option (list string)
}.

(** Truthiness of an optional string field. *)
Definition present (s : option string) : option string :=
  match s with
  | Some t => if String.eqb t "" then None else Some t
  | None => None
  end.

(** [l && l.length > 0] for an optional array field. *)
Definition filled {A : Type} (l : option (list A)) : list A :=
  match l with
  | Some items => items
  | None => []
  end.

(** [lines.push(x)]. *)
Definition push (lines : list string) (x : string) : list string :=
  lines ++ [x].

(** [l'] is [l] with lines pushed after it. *)
Definition grows (l l' : list string) : Prop :=
  exists extra, l' = (l ++ extra)%list.

(** [for (const item of items) lines.push(f item)]. *)
Definition push_each {A : Type} (f : A -> string) (lines : list string)
    (items : list A) : list string :=
  fold_left (fun acc item => push acc (f item)) items lines.

Definition bullet (item : string) : string := "- " ++ item.
Definition checkbox (item : string) : string := "- [ ] " ++ item.

(** The string literals of lines 152 and 193, byte for byte. *)
Definition mark_approved : string :=
  bytes [195; 162; 197; 147; 226; 128; 166]%nat ++ " Approved".
Definition mark_modified : string :=
  bytes [195; 176; 197; 184; 226; 128; 157; 226; 128; 158]%nat
  ++ " Approved with modifications".
Definition mark_rejected : string :=
  bytes [195; 162; 197; 146]%nat ++ " Rejected".
Definition mark_included : string :=
  bytes [195; 162; 197; 147; 226; 128; 166]%nat.
Definition mark_skipped : string :=
  bytes [195; 162; 194; 173; 195; 175; 194; 184]%nat ++ " Skipped".

Definition excluded_notice : string :=
  "*This phase was excluded from the implementation scope.*".

Definition phase_heading (phase : PlanPhase) (status : string) : string :=
  "### Phase " ++ Z_to_string (number phase) ++ ": " ++ name phase ++ " " ++ status.

(** [review?.selectedPhases || plan.phases.map((p) => p.number)]. *)
Definition effective_phases (plan : ImplementationPlan) (review : jsval) : json :=
  match opt_prop review "selectedPhases" with
  | Some v => if truthy (Some v) then v else JArr (map (fun p => JNum (number p)) (phases plan))
  | None => JArr (map (fun p => JNum (number p)) (phases plan))
  end.

(** The plan with its phases taken away. *)
Definition without_phases (plan : ImplementationPlan) : ImplementationPlan :=
  {| title := title plan;
     overview := overview plan;
     currentState := currentState plan;
     desiredEndState := desiredEndState plan;
     outOfScope := outOfScope plan;
     phases := [];
     testingStrategy := testingStrategy plan;
     references := references plan |}.

(** The two shapes of a phase block, as the renderer's contract words
    them: a phase left out is a marked stub; a phase kept shows its
    description, its tasks and success criteria as unchecked items, and
    its implementation note when it has one. *)
Definition stub_block (p : PlanPhase) : list string :=
  [phase_heading p mark_skipped; ""; excluded_notice; ""].

Definition full_block (p : PlanPhase) : list string :=
  [phase_heading p mark_included; ""; description p; ""]
  ++ match tasks p with
     | [] => []
     | ts => ["**Tasks:**"] ++ map checkbox ts ++ [""]
     end
  ++ ["**Success Criteria:**"; ""]
  ++ match automated (successCriteria p) with
     | [] => []
     | cs => ["*Automated:*"] ++ map checkbox cs
     end
  ++ match manual (successCriteria p) with
     | [] => []
     | cs => [""; "*Manual:*"] ++ map checkbox cs
     end
  ++ [""]
  ++ match present (implementationNotes p) with
     | Some note => ["> **Implementation Note:** " ++ note; ""]
     | None => []
     end
  ++ ["---"; ""].

(** Membership of a phase in a selection [S] of phase numbers. *)
Definition selected (S : list Z) (p : PlanPhase) : bool :=
  existsb (Z.eqb (number p)) S.

Definition phase_block (S : list Z) (p : PlanPhase) : list string :=
  if selected S p then full_block p else stub_block p.

(** One iteration of the loop over [plan.phases] (lines 191-238). *)
Definition phase_step (selectedPhases : json) (lines : list string)
    (phase : PlanPhase) : result (list string) :=
  included <- includes selectedPhases (number phase) ;;
  let status := if included then mark_included else mark_skipped in
  let lines := push lines (phase_heading phase status) in
  let lines := push lines "" in
  if negb included then
    let lines := push lines excluded_notice in
    let lines := push lines "" in
    Ok lines
  else
    let lines := push lines (description phase) in
    let lines := push lines "" in
    let lines :=
      match tasks phase with
      | [] => lines
      | _ =>
          let lines := push lines "**Tasks:**" in
          let lines := push_each checkbox lines (tasks phase) in
          push lines ""
      end in
    let lines := push lines "**Success Criteria:**" in
    let lines := push lines "" in
    let lines :=
      match automated (successCriteria phase) with
      | [] => lines
      | _ =>
          let lines := push lines "*Automated:*" in
          push_each checkbox lines (automated (successCriteria phase))
      end in
    let lines :=
      match manual (successCriteria phase) with
      | [] => lines
      | _ =>
          let lines := push lines "" in
          let lines := push lines "*Manual:*" in
          push_each checkbox lines (manual (successCriteria phase))
      end in
    let lines := push lines "" in
    let lines :=
      match present (implementationNotes phase) with
      | Some note =>
          let lines := push lines ("> **Implementation Note:** " ++ note) in
          push lines ""
      | None => lines
      end in
    let lines := push lines "---" in
    let lines := push lines "" in
    Ok lines.

(** [for (const phase of plan.phases) { ... }]: a throw leaves the loop. *)
Fixpoint phase_loop (selectedPhases : json) (lines : list string)
    (todo : list PlanPhase) : result (list string) :=
  match todo with
  | [] => Ok lines
  | phase :: rest =>
      lines <- phase_step selectedPhases lines phase ;;
      phase_loop selectedPhases lines rest
  end.

(** A titled list section, pushed when the list is not empty. *)
Definition list_section (heading : string) (blank : bool) (lines : list string)
    (items : list string) : list string :=
  match items with
  | [] => lines
  | _ =>
      let lines := push lines heading in
      let lines := if blank then push lines "" else lines in
      let lines := push_each bullet lines items in
      push lines ""
  end.

(** [for (const item of items) lines.push(`- ${item}`)] over the values
    of a payload: a throw leaves the loop. *)
Fixpoint push_items (lines : list string) (items : list json)
    : result (list string) :=
  match items with
  | [] => Ok lines
  | item :: rest =>
      s <- to_str item ;;
      push_items (push lines ("- " ++ s)) rest
  end.

Section Renderer.
Variable StringToNumber_pos : string -> bool.

(** The sections fed by [review.requirements] and [review.constraints]
    (lines 266-282): the field is iterated when it is truthy and its
    [length] is positive. *)
Definition review_section (heading : string) (field : jsval)
    (lines : list string) : result (list string) :=
  match field with
  | Some v =>
      listed <- nonempty StringToNumber_pos field ;;
      if listed then
        let lines := push lines heading in
        let lines := push lines "" in
        items <- iterate v ;;
        lines <- push_items lines items ;;
        Ok (push lines "")
      else Ok lines
  | None => Ok lines
  end.

(** [planToMarkdown] down to the heading of the phases (lines 146-187). *)
Definition front_matter (plan : ImplementationPlan) (review : jsval)
    : result (list string) :=
  let lines := [] in
  let lines := push lines ("# " ++ title plan) in
  let lines := push lines "" in
  lines <-
    match review with
    | Some r =>
        if truthy review then
          let lines :=
            push lines
              ("> **Status:** " ++
               (if is_string (prop r "decision") "approve" then mark_approved
                else if is_string (prop r "decision") "modify" then mark_modified
                else mark_rejected)) in
          priority <- tpl (prop r "priority") ;;
          let lines := push lines ("> **Priority:** " ++ priority) in
          approach <- tpl (prop r "approach") ;;
          let lines := push lines ("> **Approach:** " ++ approach) in
          Ok (push lines "")
        else Ok lines
    | None => Ok lines
    end ;;
  let lines := push lines "## Overview" in
  let lines := push lines "" in
  let lines := push lines (overview plan) in
  let lines := push lines "" in
  let lines :=
    match present (currentState plan) with
    | Some text =>
        let lines := push lines "## Current State" in
        let lines := push lines "" in
        let lines := push lines text in
        push lines ""
    | None => lines
    end in
  let lines :=
    match present (desiredEndState plan) with
    | Some text =>
        let lines := push lines "## Desired End State" in
        let lines := push lines "" in
        let lines := push lines text in
        push lines ""
    | None => lines
    end in
  let lines := list_section "## Out of Scope" true lines (filled (outOfScope plan)) in
  let lines := push lines "## Implementation Phases" in
  let lines := push lines "" in
  Ok lines.

(** [planToMarkdown] after the loop over the phases (lines 240-301).
    [review.notes] is pushed as it is and becomes a string in the final
    [lines.join], which converts it as [to_str] does (it is truthy, so
    neither [null] nor [undefined]). *)
Definition back_matter (plan : ImplementationPlan) (review : jsval)
    (generated : string) (lines : list string) : result (list string) :=
  let lines :=
    match testingStrategy plan with
    | Some ts =>
        let lines := push lines "## Testing Strategy" in
        let lines := push lines "" in
        let lines := list_section "### Unit Tests" false lines (unit_tests ts) in
        let lines := list_section "### Integration Tests" false lines (integration ts) in
        list_section "### Manual Testing" false lines (manual_tests ts)
    | None => lines
    end in
  lines <- review_section "## Additional Requirements"
             (opt_prop review "requirements") lines ;;
  lines <- review_section "## Constraints"
             (opt_prop review "constraints") lines ;;
  lines <-
    (if truthy (opt_prop review "notes") then
       let lines := push lines "## User Notes" in
       let lines := push lines "" in
       notes <- tpl (opt_prop review "notes") ;;
       let lines := push lines notes in
       Ok (push lines "")
     else Ok lines) ;;
  let lines := list_section "## References" true lines (filled (references plan)) in
  let lines := push lines "---" in
  let lines := push lines ("*Generated: " ++ generated ++ "*") in
  Ok lines.

(** [planToMarkdown(plan, review)] before the final [lines.join];
    [generated] is [new Date().toISOString()].  Every throw is a
    [TypeError] and nothing is written before the function returns, so
    where in the function a conversion throws does not show. *)
Definition planToMarkdown_lines (plan : ImplementationPlan) (review : jsval)
    (generated : string) : result (list string) :=
  lines <- front_matter plan review ;;
  let selectedPhases := effective_phases plan review in
  lines <- phase_loop selectedPhases lines (phases plan) ;;
  back_matter plan review generated lines.

(** [planToMarkdown(plan, review)]. *)
Definition planToMarkdown (plan : ImplementationPlan) (review : jsval)
    (generated : string) : result string :=
  lines <- planToMarkdown_lines plan review generated ;;
  Ok (String.concat newline lines).
End Renderer.

(** [generatePlanId()]: [iso] is [now.toISOString()] and [local] is
    [now.toTimeString()]. *)
Definition generatePlanId (iso local : string) : string :=
  let date := before_first "T" iso in
  let time := remove_char ":" (before_first " " local) in
  date ++ "-" ++ time.

(** The slug of line 493:
    [title.toLowerCase().replace(/\s+/g, "-").replace(/[^a-z0-9-]/g, "")]. *)
Definition slug (title : string) : string :=
  keep_slug (dash_runs false (toLowerCase title)).

Section Extraction.
(** [JSON.parse]: [None] when it throws a [SyntaxError]. *)
Variable JSON_parse : string -> option json.

(** The extraction at the end of [doGenerate] (lines 364-383); the
    result [JNull] is the [null] of a failed generation. *)
Definition extract (text : string) : json :=
  let jsonStr :=
    match match_fence text with
    | Some group => group
    | None => text
    end in
  match JSON_parse (trim jsonStr) with
  | Some v => v
  | None =>
      match match_object text with
      | Some span =>
          match JSON_parse span with
          | Some v => v
          | None => JNull
          end
      | None => JNull
      end
  end.
End Extraction.

End Plan.

(* ================================================================== *)
(** ** One review session *)

Module Session.
Import Js Text Plan.

(** What the code takes from the runtime. *)
Record Runtime : Type := {
  JSON_parse : string -> option json;     (* [None]: it throws *)
  StringToNumber_pos : string -> bool;    (* [ToNumber(s) > 0] *)
  toISOString : Z -> string;              (* of the date at an instant in ms *)
  toTimeString : Z -> string
}.

(** The options of [startPlanServer] and the files around the code. *)
Record Config : Type := {
  plan : ImplementationPlan;
  cwd : string;
  timeout : Z;                   (* seconds *)
  PLANS_DIR : string;
  html_exists : bool;            (* [existsSync] of [form/index.html] *)
  css_exists : bool;
  js_exists : bool
}.

(** The callbacks the code hands to [setTimeout]. *)
Inductive callback : Type :=
| IdleExpired                    (* [() => { onCancel(); }] of [resetTimeout] *)
| DelayedSubmit (result : json)  (* [() => { onSubmit(result); }], line 528 *)
| DelayedCancel.                 (* [() => { onCancel(); }], line 548 *)

Record timer : Type := {
  timer_id : nat;
  due : Z;
  action : callback
}.

Inductive response : Type :=
| Preflight                      (* 200, empty, for OPTIONS *)
| Page                           (* 200 text/html with the plan embedded *)
| FormMissing                    (* 500 *)
| Stylesheet                     (* 200 text/css *)
| Script                         (* 200 application/javascript *)
| Heartbeat (remaining : Z)      (* 200 { ok: true, remaining } *)
| Success                        (* 200 { success: true } *)
| InvalidJson                    (* 400 { error: "Invalid JSON" } *)
| NotFound.                      (* 404 *)

Definition status_code (r : response) : Z :=
  match r with
  | FormMissing => 500
  | InvalidJson => 400
  | NotFound => 404
  | _ => 200
  end.

Inductive plan_status : Type := Pending | Approved | Rejected.

(** The value [execute] resolves with: [content[0].text] and [details]. *)
Record ToolResult : Type := {
  text : string;
  details_plan : ImplementationPlan;
  status : plan_status;
  review : jsval;                (* absent on the pending results *)
  savedPath : option string
}.

Inductive effect : Type :=
| Respond (r : response)
| OpenBrowser
| CloseServer                    (* [server.close()] *)
| EnsureDir (path : string)
| WriteFile (path content : string)
| Resolve (r : ToolResult)       (* a call of the promise's [resolve] *)
| Uncaught.                      (* a [TypeError] left a timer callback *)

Inductive stage : Type :=
| Starting                       (* [listen] has not called back yet *)
| Opening                        (* [openUrl] is in flight *)
| Settled.                       (* [openUrl] or [listen] has answered *)

(** A request as the listener handles it: [pathname] is the path of the
    URL that [new URL] has made of the target, and [body] is the whole
    body.  A target that [new URL] refuses (such as [//]) makes the
    listener throw on its first line, before any answer, and a POST of
    [/submit] whose body never ends is never answered: neither is a
    [request]. *)
Record request : Type := {
  method : string;
  pathname : string;
  body : string
}.

Inductive event : Type :=
| Listening                      (* the callback of [server.listen] *)
| ListenError (message : string) (* the server emits [error] first *)
| Launched (code : Z) (stderr : string)   (* [pi.exec] of the opener ends *)
| Request (r : request)
| Abort                          (* the tool call's signal aborts *)
| Elapse (ms : Z).

Record world : Type := {
  (* the event loop *)
  now : Z;
  next_id : nat;
  timers : list timer;           (* pending, in the order they were set *)
  (* the closure of [startPlanServer] *)
  timeoutId : option nat;
  lastActivity : Z;
  listening : bool;
  (* the closure of [execute] *)
  launch : stage;
  server : bool;                 (* [server !== null] *)
  resolved : bool;
  settled : option ToolResult;   (* the promise *)
  abort_armed : bool;            (* the [once] listener is still registered *)
  (* history *)
  log : list effect;
  calls : list (Z * json)        (* when and with what [finish] was called *)
}.

Definition with_clock (f : Z -> Z) (w : world) : world :=
  {| now := f (now w); next_id := next_id w; timers := timers w;
     timeoutId := timeoutId w; lastActivity := lastActivity w;
     listening := listening w; launch := launch w; server := server w;
     resolved := resolved w; settled := settled w;
     abort_armed := abort_armed w; log := log w; calls := calls w |}.

Definition with_timers (f : list timer -> list timer) (next : nat) (w : world) : world :=
  {| now := now w; next_id := next; timers := f (timers w);
     timeoutId := timeoutId w; lastActivity := lastActivity w;
     listening := listening w; launch := launch w; server := server w;
     resolved := resolved w; settled := settled w;
     abort_armed := abort_armed w; log := log w; calls := calls w |}.

Definition with_idle (id : option nat) (active : Z) (w : world) : world :=
  {| now := now w; next_id := next_id w; timers := timers w;
     timeoutId := id; lastActivity := active;
     listening := listening w; launch := launch w; server := server w;
     resolved := resolved w; settled := settled w;
     abort_armed := abort_armed w; log := log w; calls := calls w |}.

Definition with_listening (b : bool) (w : world) : world :=
  {| now := now w; next_id := next_id w; timers := timers w;
     timeoutId := timeoutId w; lastActivity := lastActivity w;
     listening := b; launch := launch w; server := server w;
     resolved := resolved w; settled := settled w;
     abort_armed := abort_armed w; log := log w; calls := calls w |}.

Definition with_launch (s : stage) (w : world) : world :=
  {| now := now w; next_id := next_id w; timers := timers w;
     timeoutId := timeoutId w; lastActivity := lastActivity w;
     listening := listening w; launch := s; server := server w;
     resolved := resolved w; settled := settled w;
     abort_armed := abort_armed w; log := log w; calls := calls w |}.

Definition with_server (b : bool) (w : world) : world :=
  {| now := now w; next_id := next_id w; timers := timers w;
     timeoutId := timeoutId w; lastActivity := lastActivity w;
     listening := listening w; launch := launch w; server := b;
     resolved := resolved w; settled := settled w;
     abort_armed := abort_armed w; log := log w; calls := calls w |}.

Definition with_resolved (b : bool) (w : world) : world :=
  {| now := now w; next_id := next_id w; timers := timers w;
     timeoutId := timeoutId w; lastActivity := lastActivity w;
     listening := listening w; launch := launch w; server := server w;
     resolved := b; settled := settled w;
     abort_armed := abort_armed w; log := log w; calls := calls w |}.

Definition with_settled (r : option ToolResult) (w : world) : world :=
  {| now := now w; next_id := next_id w; timers := timers w;
     timeoutId := timeoutId w; lastActivity := lastActivity w;
     listening := listening w; launch := launch w; server := server w;
     resolved := resolved w; settled := r;
     abort_armed := abort_armed w; log := log w; calls := calls w |}.

Definition with_abort_armed (b : bool) (w : world) : world :=
  {| now := now w; next_id := next_id w; timers := timers w;
     timeoutId := timeoutId w; lastActivity := lastActivity w;
     listening := listening w; launch := launch w; server := server w;
     resolved := resolved w; settled := settled w;
     abort_armed := b; log := log w; calls := calls w |}.

Definition emit (e : effect) (w : world) : world :=
  {| now := now w; next_id := next_id w; timers := timers w;
     timeoutId := timeoutId w; lastActivity := lastActivity w;
     listening := listening w; launch := launch w; server := server w;
     resolved := resolved w; settled := settled w;
     abort_armed := abort_armed w; log := (log w ++ [e])%list; calls := calls w |}.

Definition note_call (r : json) (w : world) : world :=
  {| now := now w; next_id := next_id w; timers := timers w;
     timeoutId := timeoutId w; lastActivity := lastActivity w;
     listening := listening w; launch := launch w; server := server w;
     resolved := resolved w; settled := settled w;
     abort_armed := abort_armed w; log := log w;
     calls := (calls w ++ [(now w, r)])%list |}.

(** *** Timers *)

Definition TIMEOUT_MAX : Z := 2147483647.

(** [setTimeout(cb, delay)]: a delay outside [1 .. TIMEOUT_MAX] is 1. *)
Definition setTimeout (cb : callback) (delay : Z) (w : world) : world :=
  let after := if (1 <=? delay) && (delay <=? TIMEOUT_MAX) then delay else 1 in
  with_timers
    (fun ts => (ts ++ [{| timer_id := next_id w; due := now w + after; action := cb |}])%list)
    (S (next_id w)) w.

(** [clearTimeout(id)]. *)
Definition clearTimeout (id : nat) (w : world) : world :=
  with_timers (filter (fun t => negb (Nat.eqb (timer_id t) id))) (next_id w) w.

(** [if (timeoutId) { clearTimeout(timeoutId); }]. *)
Definition clear_idle (w : world) : world :=
  match timeoutId w with
  | Some id => clearTimeout id w
  | None => w
  end.

(** The pending timer to run next among those due by [target]: the
    earliest, and among equals the one set first. *)
Fixpoint next_due (target : Z) (ts : list timer) : option timer :=
  match ts with
  | [] => None
  | t :: rest =>
      match next_due target rest with
      | Some u => if (due t <=? due u) && (due t <=? target) then Some t else Some u
      | None => if due t <=? target then Some t else None
      end
  end.

Section Machine.
Variable rt : Runtime.
Variable cfg : Config.

(** *** [startPlanServer] *)

(** [resetTimeout] (lines 426-434). *)
Definition resetTimeout (w : world) : world :=
  let w := with_idle (timeoutId w) (now w) w in
  let w := clear_idle w in
  let id := next_id w in
  let w := setTimeout IdleExpired (timeout cfg * 1000) w in
  with_idle (Some id) (lastActivity w) w.

(** The [remaining] of the heartbeat answer (line 505). *)
Definition remaining_seconds (w : world) : Z :=
  Z.max 0 (timeout cfg - (now w - lastActivity w) / 1000).

(** The request listener (lines 438-557), from the line after
    [new URL] on; a POST of [/submit] is handled when its body has
    arrived. *)
Definition handle (r : request) (w : world) : world :=
  if String.eqb (method r) "OPTIONS" then emit (Respond Preflight) w
  else
    let get := String.eqb (method r) "GET" in
    let post := String.eqb (method r) "POST" in
    let w := if get then resetTimeout w else w in
    if get && (String.eqb (pathname r) "/" || String.eqb (pathname r) "/index.html") then
      emit (Respond (if html_exists cfg then Page else FormMissing)) w
    else if get && String.eqb (pathname r) "/styles.css" && css_exists cfg then
      emit (Respond Stylesheet) w
    else if get && String.eqb (pathname r) "/script.js" && js_exists cfg then
      emit (Respond Script) w
    else if get && String.eqb (pathname r) "/heartbeat" then
      let w := resetTimeout w in
      emit (Respond (Heartbeat (remaining_seconds w))) w
    else if post && String.eqb (pathname r) "/submit" then
      match JSON_parse rt (body r) with
      | Some result =>
          let w := clear_idle w in
          let w := emit (Respond Success) w in
          setTimeout (DelayedSubmit result) 500 w
      | None => emit (Respond InvalidJson) w
      end
    else if post && String.eqb (pathname r) "/cancel" then
      let w := clear_idle w in
      let w := emit (Respond Success) w in
      setTimeout DelayedCancel 500 w
    else emit (Respond NotFound) w.

(** The [close] of the handle (lines 572-577). *)
Definition close_handle (w : world) : world :=
  let w := clear_idle w in
  emit CloseServer (with_listening false w).

(** *** [execute] *)

(** [cleanup] (lines 469-474). *)
Definition cleanup (w : world) : world :=
  if server w then with_server false (close_handle w) else w.

(** A call of the promise's [resolve]: only the first one settles it. *)
Definition resolve (r : ToolResult) (w : world) : world :=
  let w := emit (Resolve r) w in
  match settled w with
  | None => with_settled (Some r) w
  | Some _ => w
  end.

(** [!review || review.decision === "reject"]. *)
Definition is_rejection (review : json) : bool :=
  negb (truthy (Some review)) || is_string (prop review "decision") "reject".

(** [review?.notes || "No reason provided"] inside the template literal
    of line 483. *)
Definition rejection_reason (review : json) : result string :=
  let notes := opt_prop (Some review) "notes" in
  if truthy notes then tpl notes else Ok "No reason provided".

Definition rejected_result (review : json) (reason : string) : ToolResult :=
  {| text := "Plan rejected." ++ newline ++ newline ++ "Reason: " ++ reason;
     details_plan := plan cfg;
     status := Rejected;
     review := Some review;
     savedPath := None |}.

Definition filename_at (t : Z) : string :=
  generatePlanId (toISOString rt t) (toTimeString rt t)
  ++ "-" ++ slug (title (plan cfg)) ++ ".md".

(** [join(PLANS_DIR, filename)]. *)
Definition filepath_at (t : Z) : string :=
  PLANS_DIR cfg ++ "/" ++ filename_at t.

(** [plan.phases.filter((p) => selectedPhases.includes(p.number))]. *)
Fixpoint selected_of (selectedPhases : json) (ps : list PlanPhase)
    : result (list PlanPhase) :=
  match ps with
  | [] => Ok []
  | p :: rest =>
      keep <- includes selectedPhases (number p) ;;
      kept <- selected_of selectedPhases rest ;;
      Ok (if keep then p :: kept else kept)
  end.

Definition phase_entry (p : PlanPhase) : string :=
  Z_to_string (number p) ++ ". " ++ name p.

(** [items.map((r) => `- ${r}`)]. *)
Fixpoint item_entries (items : list json) : result (list string) :=
  match items with
  | [] => Ok []
  | item :: rest =>
      s <- to_str item ;;
      entries <- item_entries rest ;;
      Ok (("- " ++ s) :: entries)
  end.

(** The paragraphs of the summary fed by [review.requirements] and
    [review.constraints] (lines 510-516). *)
Definition summary_section (heading : string) (field : jsval) : result string :=
  match field with
  | Some v =>
      listed <- nonempty (StringToNumber_pos rt) field ;;
      if listed then
        items <- array_items v ;;
        entries <- item_entries items ;;
        Ok (heading ++ newline
            ++ String.concat newline entries
            ++ newline ++ newline)
      else Ok ""
  | None => Ok ""
  end.

(** [selectedPhases[0] || 1]. *)
Definition first_selected (selectedPhases : json) : json :=
  match index0 selectedPhases with
  | Some v => if truthy (Some v) then v else JNum 1
  | None => JNum 1
  end.

(** [plan.phases.find(...)?.name || "First phase"]. *)
Definition first_name (selectedPhases : json) : string :=
  match find (fun p => is_number (Some (first_selected selectedPhases)) (number p))
             (phases (plan cfg)) with
  | Some p => if String.eqb (name p) "" then "First phase" else name p
  | None => "First phase"
  end.

(** The text of the approval (lines 498-523). *)
Definition summary (review : json) (filepath : string) : result string :=
  let selectedPhases := effective_phases (plan cfg) (Some review) in
  kept <- selected_of selectedPhases (phases (plan cfg)) ;;
  let phaseSummary := String.concat newline (map phase_entry kept) in
  let s := "**Plan Approved: " ++ title (plan cfg) ++ "**" ++ newline ++ newline in
  let s := s ++ "**Decision:** "
             ++ (if is_string (prop review "decision") "approve"
                 then "Approved" else "Approved with modifications")
             ++ newline in
  priority <- tpl (prop review "priority") ;;
  let s := s ++ "**Priority:** " ++ priority ++ newline in
  approach <- tpl (prop review "approach") ;;
  let s := s ++ "**Approach:** " ++ approach ++ newline ++ newline in
  let s := s ++ "**Selected Phases:**" ++ newline ++ phaseSummary ++ newline ++ newline in
  reqs <- summary_section "**Additional Requirements:**" (prop review "requirements") ;;
  let s := s ++ reqs in
  cons <- summary_section "**Constraints:**" (prop review "constraints") ;;
  let s := s ++ cons in
  s <-
    (if truthy (prop review "notes")
     then notes <- tpl (prop review "notes") ;;
          Ok (s ++ "**User Notes:**" ++ newline ++ notes ++ newline ++ newline)
     else Ok s) ;;
  let s := s ++ "Plan saved to: " ++ filepath ++ newline ++ newline in
  first <- to_str (first_selected selectedPhases) ;;
  let s := s ++ "Begin executing Phase " ++ first
             ++ ": " ++ first_name selectedPhases in
  Ok s.

(** [finish] (lines 476-529).  A [TypeError] in a template literal or in
    the rendering leaves the function where it is thrown. *)
Definition finish (review : json) (w : world) : world :=
  let w := note_call review w in
  if resolved w then w
  else
    let w := with_resolved true w in
    let w := cleanup w in
    if is_rejection review then
      match rejection_reason review with
      | Throw => emit Uncaught w
      | Ok reason => resolve (rejected_result review reason) w
      end
    else
      let w := emit (EnsureDir (PLANS_DIR cfg)) w in
      let filepath := filepath_at (now w) in
      match planToMarkdown (StringToNumber_pos rt) (plan cfg) (Some review)
              (toISOString rt (now w)) with
      | Throw => emit Uncaught w
      | Ok markdown =>
          let w := emit (WriteFile filepath markdown) w in
          match summary review filepath with
          | Throw => emit Uncaught w
          | Ok s =>
              resolve {| text := s;
                         details_plan := plan cfg;
                         status := Approved;
                         review := Some review;
                         savedPath := Some filepath |} w
          end
      end.

(** The error of [openUrl] (lines 406-408), [None] when it returns. *)
Definition openUrl_error (code : Z) (stderr : string) : option string :=
  if code =? 0 then None
  else Some (if String.eqb stderr ""
             then "Failed to open browser (exit code " ++ Z_to_string code ++ ")"
             else stderr).

Definition pending_result (message : string) : ToolResult :=
  {| text := message;
     details_plan := plan cfg;
     status := Pending;
     review := None;
     savedPath := None |}.

(** *** The event loop *)

Definition fire (cb : callback) (w : world) : world :=
  match cb with
  | IdleExpired => finish JNull w
  | DelayedSubmit result => finish result w
  | DelayedCancel => finish JNull w
  end.

(** Run the timers due by [target], one at a time; a callback may clear
    a timer that was due as well. *)
Fixpoint run_timers (fuel : nat) (target : Z) (w : world) : world :=
  match fuel with
  | O => w
  | S fuel' =>
      match next_due target (timers w) with
      | Some t =>
          let w := with_clock (fun t0 => Z.max t0 (due t)) w in
          let w := clearTimeout (timer_id t) w in
          run_timers fuel' target (fire (action t) w)
      | None => w
      end
  end.

Definition elapse (ms : Z) (w : world) : world :=
  let target := now w + Z.max 0 ms in
  with_clock (fun _ => target) (run_timers (List.length (timers w)) target w).

Definition step (e : event) (w : world) : world :=
  match e with
  | Listening =>
      match launch w with
      | Starting =>
          let w := with_listening true (with_launch Opening w) in
          let w := with_server true w in
          emit OpenBrowser w
      | _ => w
      end
  | ListenError message =>
      match launch w with
      | Starting =>
          let w := cleanup (with_launch Settled w) in
          resolve (pending_result ("Server error: " ++ message)) w
      | _ => w
      end
  | Launched code stderr =>
      match launch w with
      | Opening =>
          let w := with_launch Settled w in
          match openUrl_error code stderr with
          | Some message =>
              let w := cleanup w in
              resolve (pending_result ("Failed to open browser: " ++ message)) w
          | None => w
          end
      | _ => w
      end
  | Request r => if listening w then handle r w else w
  | Abort =>
      if abort_armed w then finish JNull (with_abort_armed false w) else w
  | Elapse ms => elapse ms w
  end.

Definition run (events : list event) (w : world) : world :=
  fold_left (fun w e => step e w) events w.

(** The session right after [execute] has registered the abort listener
    and called [startPlanServer] at instant [t0]. *)
Definition start (t0 : Z) : world :=
  resetTimeout
    {| now := t0; next_id := 0; timers := []; timeoutId := None;
       lastActivity := t0; listening := false; launch := Starting;
       server := false; resolved := false; settled := None;
       abort_armed := true; log := []; calls := [] |}.
End Machine.

(** The options [execute] passes to [startPlanServer] (lines 533-539). *)
Definition execute_options (p : ImplementationPlan) (dir plans : string)
    (html css js : bool) : Config :=
  {| plan := p; cwd := dir; timeout := 600; PLANS_DIR := plans;
     html_exists := html; css_exists := css; js_exists := js |}.

End Session.

(* ================================================================== *)
(** ** A reference runtime

    An executable instance of [Session.Runtime] for the concrete runs
    below: a parser for JSON texts without fractions, exponents and
    [\u] escapes, the comparison of decimal numerals with zero, and the
    UTC formatting of an instant. *)

Module Reference.
Import Js Text.

Definition json_space (c : ascii) : bool :=
  let n := nat_of_ascii c in
  (n =? 32)%nat || (n =? 9)%nat || (n =? 10)%nat || (n =? 13)%nat.

Fixpoint skip (s : string) : string :=
  match s with
  | String c s' => if json_space c then skip s' else s
  | EmptyString => EmptyString
  end.

Definition is_digit (c : ascii) : bool :=
  let n := nat_of_ascii c in ((48 <=? n) && (n <=? 57))%nat.

Definition digit_value (c : ascii) : Z := Z.of_nat (nat_of_ascii c) - 48.

(** The digits at the head of [s], their value so far in [acc]. *)
Fixpoint digits (acc : Z) (s : string) : Z * string :=
  match s with
  | String c s' => if is_digit c then digits (10 * acc + digit_value c) s' else (acc, s)
  | EmptyString => (acc, s)
  end.

(** An integer literal: no leading zero, no fraction, no exponent. *)
Definition parse_int (s : string) : option (Z * string) :=
  match s with
  | String c s' =>
      if is_digit c then
        let (n, rest) := digits 0 s in
        match s', rest with
        | String d _, _ =>
            if (Ascii.eqb c "0") && is_digit d then None
            else match rest with
                 | String e _ =>
                     if Ascii.eqb e "." || Ascii.eqb e "e" || Ascii.eqb e "E"
                     then None else Some (n, rest)
                 | EmptyString => Some (n, rest)
                 end
        | EmptyString, _ => Some (n, rest)
        end
      else None
  | EmptyString => None
  end.

Definition parse_number (s : string) : option (Z * string) :=
  match s with
  | String "-" s' => option_map (fun p => (- fst p, snd p)) (parse_int s')
  | _ => parse_int s
  end.

Definition dquote : ascii := ascii_of_nat 34.

(** The characters of a string literal after its opening quote. *)
Fixpoint parse_string (s : string) : option (string * string) :=
  match s with
  | EmptyString => None
  | String c rest =>
      if Ascii.eqb c dquote then Some (EmptyString, rest)
      else if Ascii.eqb c "\" then
        match rest with
        | String e rest' =>
            let unescaped :=
              if Ascii.eqb e "n" then Some (ascii_of_nat 10)
              else if Ascii.eqb e "t" then Some (ascii_of_nat 9)
              else if Ascii.eqb e "r" then Some (ascii_of_nat 13)
              else if Ascii.eqb e "b" then Some (ascii_of_nat 8)
              else if Ascii.eqb e "f" then Some (ascii_of_nat 12)
              else if Ascii.eqb e dquote || Ascii.eqb e "\" || Ascii.eqb e "/" then Some e
              else None in
            match unescaped, parse_string rest' with
            | Some d, Some (str, rest'') => Some (String d str, rest'')
            | _, _ => None
            end
        | EmptyString => None
        end
      else if (nat_of_ascii c <? 32)%nat then None
      else option_map (fun p => (String c (fst p), snd p)) (parse_string rest)
  end.

Definition parse_literal (t : string) : option (json * string) :=
  match strip_prefix "null" t, strip_prefix "true" t, strip_prefix "false" t with
  | Some rest, _, _ => Some (JNull, rest)
  | _, Some rest, _ => Some (JBool true, rest)
  | _, _, Some rest => Some (JBool false, rest)
  | None, None, None =>
      option_map (fun p => (JNum (fst p), snd p)) (parse_number t)
  end.

Fixpoint parse_value (fuel : nat) (s : string) {struct fuel} : option (json * string) :=
  match fuel with
  | O => None
  | S fuel' =>
      match skip s with
      | String c rest =>
          if Ascii.eqb c "[" then
            match skip rest with
            | String "]" rest' => Some (JArr [], rest')
            | _ => parse_items fuel' [] rest
            end
          else if Ascii.eqb c "{" then
            match skip rest with
            | String "}" rest' => Some (JObj [], rest')
            | _ => parse_members fuel' [] rest
            end
          else if Ascii.eqb c dquote then
            option_map (fun p => (JStr (fst p), snd p)) (parse_string rest)
          else parse_literal (String c rest)
      | EmptyString => None
      end
  end
with parse_items (fuel : nat) (acc : list json) (s : string) {struct fuel}
    : option (json * string) :=
  match fuel with
  | O => None
  | S fuel' =>
      match parse_value fuel' s with
      | Some (v, rest) =>
          match skip rest with
          | String "," rest' => parse_items fuel' (acc ++ [v]) rest'
          | String "]" rest' => Some (JArr (acc ++ [v]), rest')
          | _ => None
          end
      | None => None
      end
  end
with parse_members (fuel : nat) (acc : list (string * json)) (s : string) {struct fuel}
    : option (json * string) :=
  match fuel with
  | O => None
  | S fuel' =>
      match skip s with
      | String c rest =>
          if Ascii.eqb c dquote then
            match parse_string rest with
            | Some (key, rest1) =>
                match skip rest1 with
                | String ":" rest2 =>
                    match parse_value fuel' rest2 with
                    | Some (v, rest3) =>
                        match skip rest3 with
                        | String "," rest4 => parse_members fuel' (acc ++ [(key, v)]) rest4
                        | String "}" rest4 => Some (JObj (acc ++ [(key, v)]), rest4)
                        | _ => None
                        end
                    | None => None
                    end
                | _ => None
                end
            | None => None
            end
          else None
      | EmptyString => None
      end
  end.

Definition parse (s : string) : option json :=
  match parse_value (2 * String.length s + 2) s with
  | Some (v, rest) =>
      match skip rest with
      | EmptyString => Some v
      | _ => None
      end
  | None => None
  end.

Fixpoint escape (s : string) : string :=
  match s with
  | EmptyString => EmptyString
  | String c s' =>
      if Ascii.eqb c dquote || Ascii.eqb c "\" then String "\" (String c (escape s'))
      else String c (escape s')
  end.

Definition quoted (s : string) : string :=
  String dquote (escape s ++ String dquote EmptyString).

(** [JSON.stringify] of a value whose strings hold no control character. *)
Fixpoint stringify (v : json) : string :=
  match v with
  | JNull => "null"
  | JBool true => "true"
  | JBool false => "false"
  | JNum n => Z_to_string n
  | JStr s => quoted s
  | JArr items => "[" ++ String.concat "," (map stringify items) ++ "]"
  | JObj fields =>
      "{" ++ String.concat ","
               (map (fun kv => quoted (fst kv) ++ ":" ++ stringify (snd kv)) fields)
      ++ "}"
  end.

(** [ToNumber(s) > 0] on an optional sign and decimal digits. *)
Definition numeral_pos (s : string) : bool :=
  let t := trim s in
  let body := match t with String "+" r => r | _ => t end in
  match body with
  | String c _ =>
      if is_digit c then
        let (n, rest) := digits 0 body in
        match rest with
        | EmptyString => 0 <? n
        | _ => false
        end
      else false
  | EmptyString => false
  end.

Definition pad (width : nat) (n : Z) : string :=
  let s := Z_to_string n in
  string_of_list_ascii (repeat "0"%char (width - String.length s)) ++ s.

(** Year, month and day of a day count from 1970-01-01. *)
Definition civil (days : Z) : Z * Z * Z :=
  let z := days + 719468 in
  let era := z / 146097 in
  let doe := z - era * 146097 in
  let yoe := (doe - doe / 1460 + doe / 36524 - doe / 146096) / 365 in
  let doy := doe - (365 * yoe + yoe / 4 - yoe / 100) in
  let mp := (5 * doy + 2) / 153 in
  let d := doy - (153 * mp + 2) / 5 + 1 in
  let m := if mp <? 10 then mp + 3 else mp - 9 in
  let y := yoe + era * 400 + (if m <=? 2 then 1 else 0) in
  (y, m, d).

Definition clock (ms : Z) : string :=
  let s := (ms / 1000) mod 86400 in
  pad 2 (s / 3600) ++ ":" ++ pad 2 ((s / 60) mod 60) ++ ":" ++ pad 2 (s mod 60).

Definition iso (ms : Z) : string :=
  let '(y, m, d) := civil (ms / 86400000) in
  pad 4 y ++ "-" ++ pad 2 m ++ "-" ++ pad 2 d ++ "T" ++ clock ms
  ++ "." ++ pad 3 (ms mod 1000) ++ "Z".

Definition local_time (ms : Z) : string :=
  clock ms ++ " GMT+0000 (Coordinated Universal Time)".

Definition runtime : Session.Runtime :=
  {| Session.JSON_parse := parse;
     Session.StringToNumber_pos := numeral_pos;
     Session.toISOString := iso;
     Session.toTimeString := local_time |}.

End Reference.

(* ================================================================== *)
(** ** The reviewer's decision as the interface declares it *)

Module Review.
Import Js.

Inductive verdict : Type := approve | modify | reject.

(** [PlanReviewResult] ([server.ts], lines 396-404). *)
Record PlanReviewResult : Type := {
  decision : verdict;
  selectedPhases : list Z;
  priority : string;
  approach : string;
  requirements : list string;
  constraints : list string;
  notes : string
}.

Definition verdict_name (v : verdict) : string :=
  match v with
  | approve => "approve"
  | modify => "modify"
  | reject => "reject"
  end.

(** The value [JSON.parse] yields for the body the page sends, the
    [JSON.stringify] of such a record. *)
Definition to_json (r : PlanReviewResult) : json :=
  JObj [("decision", JStr (verdict_name (decision r)));
        ("selectedPhases", JArr (map JNum (selectedPhases r)));
        ("priority", JStr (priority r));
        ("approach", JStr (approach r));
        ("requirements", JArr (map JStr (requirements r)));
        ("constraints", JArr (map JStr (constraints r)));
        ("notes", JStr (notes r))].

(** What a session resolves with: a decision, or [null] on a cancel, an
    idle timeout or an abort. *)
Definition payload (d : option PlanReviewResult) : json :=
  match d with
  | Some r => to_json r
  | None => JNull
  end.

Definition approves (d : option PlanReviewResult) : bool :=
  match d with
  | Some r =>
      match decision r with
      | reject => false
      | _ => true
      end
  | None => false
  end.

End Review.

(* ================================================================== *)
(** ** What a run shows *)

Module Observe.
Import Js Plan Session.

Definition writes (l : list effect) : list (string * string) :=
  flat_map (fun e => match e with WriteFile p c => [(p, c)] | _ => [] end) l.

Definition closes (l : list effect) : nat :=
  List.length (filter (fun e => match e with CloseServer => true | _ => false end) l).

Definition responses (l : list effect) : list response :=
  flat_map (fun e => match e with Respond r => [r] | _ => [] end) l.

(** The arguments of the calls of the promise's [resolve], in order. *)
Definition resolutions (l : list effect) : list ToolResult :=
  flat_map (fun e => match e with Resolve r => [r] | _ => [] end) l.

(** What [finish] emits once it is past its guard: the directory, the
    file, the promise's [resolve] with a verdict, a [TypeError]. *)
Definition of_finish (e : effect) : bool :=
  match e with
  | EnsureDir _ => true
  | WriteFile _ _ => true
  | Uncaught => true
  | Resolve r => match status r with Pending => false | _ => true end
  | _ => false
  end.

(** The instant at which the idle timer will call [onCancel], when it
    is pending. *)
Definition idle_deadline (w : world) : option Z :=
  match timeoutId w with
  | Some id => option_map due (find (fun t => Nat.eqb (timer_id t) id) (timers w))
  | None => None
  end.

(** The pending timers that [resetTimeout] has set: each of them ends
    the session for idleness when it fires. *)
Definition is_idle (t : timer) : bool :=
  match action t with
  | IdleExpired => true
  | _ => false
  end.

Definition idle_timers (w : world) : list timer :=
  filter is_idle (timers w).

(** No idle timer is pending but the one [timeoutId] names. *)
Definition lone_idle (w : world) : Prop :=
  forall t, In t (timers w) -> is_idle t = true -> timeoutId w = Some (timer_id t).

(** A termination source as a client or the caller triggers it: the
    decision a submit carries, [JNull] for a cancel or an abort. *)
Definition carried (rt : Runtime) (e : event) : option json :=
  match e with
  | Request r =>
      if String.eqb (method r) "POST" && String.eqb (pathname r) "/submit" then
        JSON_parse rt (body r)
      else if String.eqb (method r) "POST" && String.eqb (pathname r) "/cancel" then
        Some JNull
      else None
  | Abort => Some JNull
  | _ => None
  end.

(** The callback a terminal request leaves with [setTimeout]: a submit
    with a parseable body, or a cancel. *)
Definition terminal (rt : Runtime) (r : request) : option callback :=
  if String.eqb (method r) "POST" && String.eqb (pathname r) "/submit" then
    option_map DelayedSubmit (JSON_parse rt (body r))
  else if String.eqb (method r) "POST" && String.eqb (pathname r) "/cancel" then
    Some DelayedCancel
  else None.

(** The payload of the first termination source of a trace in which the
    idle timer does not expire. *)
Fixpoint first_fired (rt : Runtime) (events : list event) : option json :=
  match events with
  | [] => None
  | e :: rest =>
      match carried rt e with
      | Some payload => Some payload
      | None => first_fired rt rest
      end
  end.

Section Verdict.
Variable rt : Runtime.
Variable cfg : Config.

(** What a call of [finish] that passes the guard at instant [t] emits
    after [cleanup]. *)
Definition verdict_at (t : Z) (review : json) : list effect :=
  if is_rejection review then
    match rejection_reason review with
    | Throw => [Uncaught]
    | Ok reason => [Resolve (rejected_result cfg review reason)]
    end
  else
    EnsureDir (PLANS_DIR cfg) ::
    match planToMarkdown (StringToNumber_pos rt) (plan cfg) (Some review)
            (toISOString rt t) with
    | Throw => [Uncaught]
    | Ok markdown =>
        WriteFile (filepath_at rt cfg t) markdown ::
        match summary rt cfg review (filepath_at rt cfg t) with
        | Throw => [Uncaught]
        | Ok s =>
            [Resolve {| text := s;
                        details_plan := plan cfg;
                        status := Approved;
                        review := Some review;
                        savedPath := Some (filepath_at rt cfg t) |}]
        end
    end.
End Verdict.

(** The one-shot guard, as a property of a session: before the first
    call of [finish] nothing of it has happened; from the first call on,
    what [finish] has emitted is what that call emits. *)
Definition guarded (rt : Runtime) (cfg : Config) (w : world) : Prop :=
  match calls w with
  | [] => resolved w = false /\ filter of_finish (log w) = []
  | (t, review) :: _ =>
      resolved w = true /\ filter of_finish (log w) = verdict_at rt cfg t review
  end.

(** The server is closed at most once, and only after it was handed to
    the coordinator. *)
Definition closed_once (w : world) : Prop :=
  listening w = server w
  /\ (server w = true -> closes (log w) = 0%nat /\ launch w <> Starting)
  /\ (launch w = Starting -> closes (log w) = 0%nat /\ server w = false)
  /\ (closes (log w) <= 1)%nat.

(** The promise holds the argument of the first call of [resolve]. *)
Definition first_settles (w : world) : Prop :=
  settled w = hd_error (resolutions (log w)).

(** Until a termination or a failure, nothing has resolved. *)
Definition unsettled (w : world) : Prop :=
  (resolved w = false -> launch w <> Settled -> resolutions (log w) = [])
  /\ (resolved w = false -> launch w = Opening -> server w = true).

(** The resolutions that carry a verdict, the ones [finish] issues. *)
Definition verdicts (l : list effect) : list ToolResult :=
  filter (fun r => match status r with Pending => false | _ => true end)
         (resolutions l).

(** The delay [resetTimeout] hands to [setTimeout], as the runtime takes it. *)
Definition idle_after (cfg : Config) : Z :=
  if (1 <=? timeout cfg * 1000) && (timeout cfg * 1000 <=? TIMEOUT_MAX)
  then timeout cfg * 1000 else 1.

(** What the timers and the request listener's closure hold. *)
Definition timer_state (w : world) : Z * nat * list timer * option nat * Z :=
  (now w, next_id w, timers w, timeoutId w, lastActivity w).

(** The timers of a session: identifiers are fresh and distinct, the last
    activity is not in the future, and the pending idle timer is due one
    idle delay after the last activity. *)
Definition timed (cfg : Config) (w : world) : Prop :=
  lastActivity w <= now w
  /\ (forall t, In t (timers w) -> (timer_id t < next_id w)%nat)
  /\ (forall id, timeoutId w = Some id -> (id < next_id w)%nat)
  /\ NoDup (map timer_id (timers w))
  /\ (forall t, In t (timers w) -> timeoutId w = Some (timer_id t) ->
       due t = lastActivity w + idle_after cfg).

(** What a callback passes to [finish]. *)
Definition payload_of (cb : callback) : json :=
  match cb with
  | DelayedSubmit result => result
  | _ => JNull
  end.

Definition coordinated (rt : Runtime) (cfg : Config) (w : world) : Prop :=
  guarded rt cfg w /\ closed_once w /\ first_settles w /\ unsettled w.

(** The effects that concern neither the promise, nor the server's
    socket, nor the artifact. *)
Definition silent (e : effect) : bool :=
  match e with
  | Respond _ => true
  | OpenBrowser => true
  | _ => false
  end.

(** [w'] differs from [w] in timers, clock and silent effects only. *)
Definition same_coordinator (w w' : world) : Prop :=
  calls w' = calls w /\ resolved w' = resolved w /\ settled w' = settled w
  /\ launch w' = launch w /\ server w' = server w /\ listening w' = listening w
  /\ exists l, log w' = (log w ++ l)%list /\ forallb silent l = true.

(** The fields of a payload the renderer and the summary walk through
    are arrays, [null] or missing. *)
Definition array_or_missing (v : jsval) : bool :=
  match v with
  | None => true
  | Some JNull => true
  | Some (JArr _) => true
  | _ => false
  end.

Definition walkable (review : json) : bool :=
  array_or_missing (prop review "selectedPhases")
  && array_or_missing (prop review "requirements")
  && array_or_missing (prop review "constraints").

(** The values of a payload that end in a template literal have a
    string: [priority], [approach], [notes], [requirements] and
    [constraints] with their items, and the first selected phase. *)
Definition legible (review : json) : bool :=
  printable (prop review "priority")
  && printable (prop review "approach")
  && printable (prop review "notes")
  && printable (prop review "requirements")
  && printable (prop review "constraints")
  && match prop review "selectedPhases" with
     | Some v => printable (index0 v)
     | None => true
     end.

End Observe.

(* ================================================================== *)
(** ** A sample session *)

Module Sample.
Import Js Plan Session.

Definition phase1 : PlanPhase :=
  {| number := 1;
     name := "Token bucket";
     description := "Add a token bucket per client.";
     tasks := ["Add the bucket store"; "Wire the middleware"];
     successCriteria := {| automated := ["bun run test"];
                           manual := ["A burst of requests is throttled"] |};
     implementationNotes := Some "Pause for confirmation." |}.

Definition phase2 : PlanPhase :=
  {| number := 2;
     name := "Headers";
     description := "Report the remaining budget in response headers.";
     tasks := ["Add the headers"];
     successCriteria := {| automated := []; manual := [] |};
     implementationNotes := None |}.

Definition rate_limiting : ImplementationPlan :=
  {| title := "Add rate limiting";
     overview := "Throttle clients that send too many requests.";
     currentState := None;
     desiredEndState := Some "Requests over the budget get status 429.";
     outOfScope := Some ["Distributed limits"];
     phases := [phase1; phase2];
     testingStrategy := None;
     references := None |}.

Definition options : Config :=
  execute_options rate_limiting "/home/dev/api" "/home/dev/.pi/plans" true true true.

Definition decision (v : Review.verdict) (sel : list Z) : Review.PlanReviewResult :=
  {| Review.decision := v;
     Review.selectedPhases := sel;
     Review.priority := "medium";
     Review.approach := "balanced";
     Review.requirements := [];
     Review.constraints := [];
     Review.notes := "" |}.

Definition get (path : string) : event :=
  Request {| method := "GET"; pathname := path; body := "" |}.

Definition post (path text : string) : event :=
  Request {| method := "POST"; pathname := path; body := text |}.

(** The page's submit of a decision. *)
Definition submit (d : Review.PlanReviewResult) : event :=
  post "/submit" (Reference.stringify (Review.to_json d)).

(** Three responses of the model: the payload in a fence, the payload
    bare in prose, and prose alone. *)
Definition payload : json := JObj [("title", JStr "Add rate limiting")].

Definition payload_body : string :=
  Reference.quoted "title" ++ ":" ++ Reference.quoted "Add rate limiting".

Definition fenced_response : string :=
  ("Here is the plan:" ++ Text.newline)
  ++ Text.fence ++ "json" ++ Text.newline
  ++ ("{" ++ payload_body ++ "}" ++ Text.newline)
  ++ Text.fence ++ (Text.newline ++ "Fill in {placeholders} as needed.").

Definition bare_response : string :=
  "The plan is " ++ "{" ++ payload_body ++ "}" ++ " as requested.".

Definition prose_response : string := "No plan today.".

(** A fenced response whose payload mentions a fence in a string. *)
Definition fence_in_payload : json :=
  JObj [("title", JStr "Wrap the snippet in ``` fences")].

Definition fenced_response_with_fence : string :=
  Text.fence ++ "json" ++ Text.newline
  ++ Reference.stringify fence_in_payload ++ Text.newline
  ++ Text.fence ++ Text.newline ++ "Fill in {placeholders} as needed.".

(** A submit, and the caller's abort 100 ms later. *)
Definition submit_then_abort : list event :=
  [submit (decision Review.approve [1; 2]); Elapse 100; Abort; Elapse 1000].

(** A submit whose [selectedPhases] is a number. *)
Definition odd_selection : json :=
  JObj [("decision", JStr "approve"); ("selectedPhases", JNum 7)].

Definition submit_odd_selection : list event :=
  [post "/submit" (Reference.stringify odd_selection); Elapse 500].

(** A submit that approves with an empty selection. *)
Definition approve_none : json :=
  JObj [("decision", JStr "approve");
        ("selectedPhases", JArr []);
        ("priority", JStr "medium");
        ("approach", JStr "balanced");
        ("requirements", JArr []);
        ("constraints", JArr []);
        ("notes", JStr "")].

(** The browser cannot be opened. *)
Definition launch_fails : list event := [Listening; Launched 1 ""].

(** The session once the browser has been opened, at instant [t0]. *)
Definition opened (t0 : Z) : world :=
  run Reference.runtime options [Listening; Launched 0 ""]
      (start options t0).

End Sample.

(* ================================================================== *)
(** ** The tool's label, the two commands and the prompt *)

Module Commands.
Import Js Text Plan.

(** [s.slice(0, n)] for a length [n]. *)
Fixpoint slice0 (n : nat) (s : string) : string :=
  match n, s with
  | S n', String c s' => String c (slice0 n' s')
  | _, _ => EmptyString
  end.

(** The label of [renderCall] ([index.ts], lines 564-565); [task] is
    [args.task]. *)
Definition renderCall_label (task : option string) : string :=
  let task :=
    match present task with
    | Some t => t
    | None => "Implementation plan"
    end in
  if (50 <? String.length task)%nat then slice0 47 task ++ "..." else task.

(** What a command handler does to the session. *)
Inductive ui_action : Type :=
| Notify (message level : string)        (* [ctx.ui.notify] *)
| MakeDir (path : string)                (* [mkdirSync(path, { recursive: true })] *)
| SendUserMessage (message : string).    (* [pi.sendUserMessage] *)

(** The handler of [/create-plan] (lines 596-614): [input] is what
    [ctx.ui.input] resolves with when it is asked. *)
Definition create_plan (hasUI : bool) (args input : option string) : ui_action :=
  if negb hasUI then Notify "create-plan requires interactive mode" "error"
  else
    match present (option_map trim args) with
    | Some taskDescription =>
        SendUserMessage ("Create an implementation plan for: " ++ taskDescription)
    | None =>
        match present (option_map trim input), input with
        | Some _, Some taskDescription =>
            SendUserMessage ("Create an implementation plan for: " ++ taskDescription)
        | _, _ => Notify "Cancelled - no task provided" "info"
        end
    end.

(** [s.endsWith(suffix)]. *)
Fixpoint endsWith (suffix s : string) : bool :=
  if String.eqb s suffix then true
  else match s with
       | EmptyString => false
       | String _ s' => endsWith suffix s'
       end.

(** [readdirSync(PLANS_DIR).filter((f) => f.endsWith(".md"))]. *)
Definition saved_plans (entries : list string) : list string :=
  filter (endsWith ".md") entries.

(** The handler of [/list-plans] (lines 620-638): [exists_] tells whether
    the plans directory is there, [entries] is what [readdirSync] returns,
    [choose] what [ctx.ui.select] resolves with. *)
Definition list_plans (dir : string) (exists_ : bool) (entries : list string)
    (choose : list string -> option string) : list ui_action :=
  let made := if exists_ then [] else [MakeDir dir] in
  match saved_plans entries with
  | [] => (made ++ [Notify "No saved plans found" "info"])%list
  | files =>
      match present (choose files) with
      | Some choice =>
          let filepath := dir ++ "/" ++ choice in
          (made ++ [Notify ("Plan file: " ++ filepath) "info";
                    SendUserMessage ("Read and summarize the plan at: " ++ filepath)])%list
      | None => made
      end
  end.

(** [params.context ? `${params.task}\n\nContext: ${params.context}` : params.task]
    (line 445). *)
Definition taskDescription (task : string) (context : option string) : string :=
  match present context with
  | Some c => task ++ newline ++ newline ++ "Context: " ++ c
  | None => task
  end.

Definition file_section (file content : string) : string :=
  newline ++ newline ++ "--- File: " ++ file ++ " ---" ++ newline ++ content.

(** The loop over [contextFiles] (lines 317-327): [read file] is the
    content of a file that exists and can be read. *)
Definition fileContext (read : string -> option string) (contextFiles : list string)
    : string :=
  fold_left
    (fun acc file =>
       match read file with
       | Some content => acc ++ file_section file content
       | None => acc
       end)
    contextFiles EmptyString.

(** The prompt of lines 329-335. *)
Definition userPrompt (task context : string) : string :=
  "Create an implementation plan for the following task:" ++ newline
  ++ newline
  ++ task ++ newline
  ++ newline
  ++ (if String.eqb context "" then "" else newline ++ "Context from files:" ++ context)
  ++ newline
  ++ newline
  ++ "Output ONLY valid JSON matching the required structure. No markdown, no explanation.".

End Commands.

(* ================================================================== *)
(** ** The page the server sends *)

Module Page.
Import Js Text.

(** The first occurrence of [pattern] in [s]: the text before it and the
    text after it. *)
Fixpoint split_at (pattern s : string) : option (string * string) :=
  match strip_prefix pattern s with
  | Some rest => Some (EmptyString, rest)
  | None =>
      match s with
      | EmptyString => None
      | String c s' => option_map (fun p => (String c (fst p), snd p)) (split_at pattern s')
      end
  end.

(** The replacement text of [String.prototype.replace] for a pattern
    without capture groups: [$$] is a dollar sign, [$&] the match, [$`]
    the text before the match, [$'] the text after it; any other dollar
    sign stands for itself. *)
Fixpoint substitution (matched before after replacement : string) : string :=
  match replacement with
  | EmptyString => EmptyString
  | String c r =>
      if Ascii.eqb "$" c then
        match r with
        | String d r' =>
            if Ascii.eqb "$" d then String "$" (substitution matched before after r')
            else if Ascii.eqb "&" d then matched ++ substitution matched before after r'
            else if Ascii.eqb "`" d then before ++ substitution matched before after r'
            else if Ascii.eqb "'" d then after ++ substitution matched before after r'
            else String c (substitution matched before after r)
        | EmptyString => String c EmptyString
        end
      else String c (substitution matched before after r)
  end.

(** [s.replace(pattern, replacement)] for a string [pattern]: the first
    occurrence only. *)
Definition replace_first (pattern replacement s : string) : string :=
  match split_at pattern s with
  | Some (before, after) =>
      before ++ substitution pattern before after replacement ++ after
  | None => s
  end.

(** [s.replace(/pattern/g, replacement)] for a pattern of literal
    characters, one at least: [before] is the text already passed. *)
Fixpoint replace_all_from (fuel : nat) (pattern replacement before s : string)
    : string :=
  match fuel with
  | O => s
  | S fuel' =>
      match strip_prefix pattern s with
      | Some rest =>
          substitution pattern before rest replacement
          ++ replace_all_from fuel' pattern replacement (before ++ pattern) rest
      | None =>
          match s with
          | EmptyString => EmptyString
          | String c s' =>
              String c (replace_all_from fuel' pattern replacement
                          (before ++ String c EmptyString) s')
          end
      end
  end.

Definition replace_all (pattern replacement s : string) : string :=
  replace_all_from (S (String.length s)) pattern replacement EmptyString s.

(** The page of [GET /] (lines 467-478): [html] is [form/index.html],
    [planData] the [JSON.stringify] of the plan data, [sessionToken] the
    token of the session. *)
Definition inject (html planData sessionToken : string) : string :=
  let html := replace_first "__PLAN_DATA_JSON__" planData html in
  replace_all "__SESSION_TOKEN__" sessionToken html.

(** A page with the two placeholders. *)
Definition sample_html : string :=
  "<script>window.__PLAN_DATA__ = __PLAN_DATA_JSON__;</script>"
  ++ "<body data-session='__SESSION_TOKEN__'></body>".

End Page.

(* ================================================================== *)
(** ** The page's submit *)

Module Client.
Import Js Text Plan.

(** [parseInt(s, 10)] as [JSON.stringify] writes it: [NaN] is [null]. *)
Definition parseInt10 (s : string) : json :=
  let t := ltrim s in
  let negative := match t with String "-" _ => true | _ => false end in
  let body :=
    match t with
    | String "-" r => r
    | String "+" r => r
    | _ => t
    end in
  match body with
  | String c _ =>
      if Reference.is_digit c then
        let n := fst (Reference.digits 0 body) in
        JNum (if negative then - n else n)
      else JNull
  | EmptyString => JNull
  end.

(** A check box or radio button of the page: its [value] and whether it
    is checked. *)
Record input : Type := {
  value : string;
  checked : bool
}.

(** What [handleSubmit] reads from the document. *)
Record Form : Type := {
  decision_inputs : list input;         (* [input[name="decision"]] *)
  phases_inputs : list input;           (* [input[name="phases"]] *)
  requirements_inputs : list input;
  constraints_inputs : list input;
  priority_select : string;
  approach_select : string;
  notes_textarea : string
}.

(** [Array.from(document.querySelectorAll("input:checked")).map(cb => cb.value)]. *)
Definition checked_values (inputs : list input) : list string :=
  map value (filter checked inputs).

(** The check boxes [setupPhaseCheckboxes] writes ([script.js], lines
    252-264): none for a plan of at most one phase, else one per phase,
    checked. *)
Definition setupPhaseCheckboxes (plan : ImplementationPlan) : list input :=
  if (List.length (phases plan) <=? 1)%nat then []
  else map (fun phase => {| value := Z_to_string (number phase); checked := true |})
           (phases plan).

(** The object [handleSubmit] sends (lines 291-313). *)
Definition handleSubmit (plan : ImplementationPlan) (form : Form) : json :=
  let decision :=
    match present (hd_error (checked_values (decision_inputs form))) with
    | Some v => v
    | None => "approve"
    end in
  let selectedPhases := map parseInt10 (checked_values (phases_inputs form)) in
  let phases' :=
    if (0 <? List.length selectedPhases)%nat then selectedPhases
    else map (fun p => JNum (number p)) (phases plan) in
  JObj [("decision", JStr decision);
        ("selectedPhases", JArr phases');
        ("priority", JStr (priority_select form));
        ("approach", JStr (approach_select form));
        ("requirements", JArr (map JStr (checked_values (requirements_inputs form))));
        ("constraints", JArr (map JStr (checked_values (constraints_inputs form))));
        ("notes", JStr (trim (notes_textarea form)))].

(** The phases whose check box is checked, the boxes taken in the order
    of the phases. *)
Definition checked_phases (plan : ImplementationPlan) (form : Form) : list PlanPhase :=
  map fst (filter (fun pc => checked (snd pc))
                  (combine (phases plan) (phases_inputs form))).

(** The numbers of the checked phases, of all phases when none is. *)
Definition submitted_selection (plan : ImplementationPlan) (form : Form) : list Z :=
  map number
      match checked_phases plan form with
      | [] => phases plan
      | kept => kept
      end.

(** The value of the checked decision radio, [approve] without one. *)
Definition decision_of (form : Form) : string :=
  match present (hd_error (checked_values (decision_inputs form))) with
  | Some v => v
  | None => "approve"
  end.

(** The page's heartbeat (lines 352-360), in milliseconds. *)
Definition heartbeat_interval : Z := 10000.

(** The sample page with the box of phase 1 cleared. *)
Definition second_phase_only : Form :=
  {| decision_inputs := [{| value := "approve"; checked := false |};
                         {| value := "modify"; checked := true |};
                         {| value := "reject"; checked := false |}];
     phases_inputs := [{| value := "1"; checked := false |};
                       {| value := "2"; checked := true |}];
     requirements_inputs := [{| value := "Add tests"; checked := true |}];
     constraints_inputs := [];
     priority_select := "high";
     approach_select := "balanced";
     notes_textarea := "  Ship it behind a flag. " |}.

End Client.

(* ================================================================== *)
(** ** Clients of a session *)

Module Schedule.
Import Js Plan Session Observe.

(** A client that lets [fst g] ms pass and then sends a GET of [snd g]. *)
Definition beat (g : Z * string) : list event :=
  [Elapse (fst g); Request {| method := "GET"; pathname := snd g; body := "" |}].

Definition beats (gs : list (Z * string)) : list event := flat_map beat gs.

(** The heartbeats of the page: [n] of them, one every 10 s. *)
Definition page_heartbeats (n : nat) : list event :=
  beats (repeat (Client.heartbeat_interval, "/heartbeat") n).

(** The session once the server listens and the browser has been opened. *)
Definition served (rt : Runtime) (cfg : Config) (t0 : Z) (stderr : string) : world :=
  run rt cfg [Listening; Launched 0 stderr] (start cfg t0).

(** The server is up, nothing has called [finish], and the idle timer is
    the one pending timer, due one idle delay after the last request. *)
Definition waiting (cfg : Config) (w : world) : Prop :=
  resolved w = false /\ settled w = None /\ calls w = []
  /\ server w = true /\ listening w = true
  /\ lastActivity w = now w
  /\ exists id,
       timeoutId w = Some id
       /\ timers w = [{| timer_id := id; due := now w + idle_after cfg;
                         action := IdleExpired |}].

(** The server has been handed to the coordinator. *)
Definition handed_over (w : world) : Prop :=
  launch w <> Starting
  /\ (resolved w = true -> server w = false)
  /\ (server w = false ->
      listening w = false /\ idle_deadline w = None /\ closes (log w) = 1%nat).

(** The abort has been handled before the server was handed over, and the
    browser has been opened. *)
Definition orphaned (cfg : Config) (w : world) : Prop :=
  launch w = Settled /\ resolved w = true /\ server w = true
  /\ listening w = true /\ closes (log w) = 0%nat
  /\ settled w = Some (rejected_result cfg JNull "No reason provided").

(** The caller aborts before the server's [listen] calls back; then the
    server listens, the browser is opened, and [events] follow. *)
Definition aborted_early (rt : Runtime) (cfg : Config) (t0 : Z) (stderr : string)
    (events : list event) : world :=
  run rt cfg (Abort :: Listening :: Launched 0 stderr :: events) (start cfg t0).

(** The session after the requests of a client that keeps it alive. *)
Definition attended (rt : Runtime) (cfg : Config) (t0 : Z) (stderr : string)
    (gaps : list (Z * string)) : world :=
  run rt cfg (beats gaps) (served rt cfg t0 stderr).

(** Then the request [r] arrives, and [events] follow. *)
Definition decided (rt : Runtime) (cfg : Config) (t0 : Z) (stderr : string)
    (gaps : list (Z * string)) (r : request) (events : list event) : world :=
  run rt cfg events (step rt cfg (Request r) (attended rt cfg t0 stderr gaps)).

(** No event of the trace is an abort of the tool call. *)
Definition no_abort (events : list event) : bool :=
  forallb (fun e => match e with Abort => false | _ => true end) events.

(** The timer [g] of an accepted submit or cancel leads: nothing has
    called [finish], [g] is the pending timer set first and no pending
    timer is due before it, and its instant has not come. *)
Definition leading (g : timer) (w : world) : Prop :=
  calls w = [] /\ launch w = Settled
  /\ now w < due g /\ due g <= now w + 500
  /\ (timer_id g < next_id w)%nat
  /\ timeoutId w <> Some (timer_id g)
  /\ exists rest,
       timers w = g :: rest /\ forall u, In u rest -> due g <= due u.

(** The first call of [finish] was made at instant [t] with [payload]. *)
Definition headed (t : Z) (payload : json) (w : world) : Prop :=
  exists later, calls w = (t, payload) :: later.

(** A request that the listener answers without a look at the timers. *)
Definition plain (rt : Runtime) (r : request) : bool :=
  negb (String.eqb (method r) "GET")
  && match terminal rt r with Some _ => false | None => true end.

(** What the listener answers to a plain request. *)
Definition plain_answer (r : request) : response :=
  if String.eqb (method r) "OPTIONS" then Preflight
  else if String.eqb (method r) "POST" && String.eqb (pathname r) "/submit"
       then InvalidJson
       else NotFound.

(** The number of answers an event brings about. *)
Definition answers_due (e : event) (w : world) : nat :=
  match e with
  | Request _ => if listening w then 1 else 0
  | _ => 0
  end.

End Schedule.

(* ================================================================== *)
(** ** The shapes of a payload the renderer can walk *)

Module Shape.
Import Js Plan.

(** A value with an [includes] to call and an iterator: an array or a
    string. *)
Definition searchable (v : json) : bool :=
  match v with
  | JArr _ => true
  | JStr _ => true
  | _ => false
  end.

(** A field on which the section of [review.requirements] or of
    [review.constraints] throws: an array with an item that has no string;
    an object whose [length] cannot be compared with 0, or is greater
    than 0, as an object cannot be iterated.  A string is iterated
    character by character; [null], a boolean and a number have no
    [length]. *)
Definition unwalkable (StringToNumber_pos : string -> bool) (field : jsval) : bool :=
  match field with
  | Some (JArr items) => negb (forallb stringable items)
  | Some (JObj fields) =>
      match gt0 StringToNumber_pos (lookup "length" fields) with
      | Ok false => false
      | _ => true
      end
  | _ => false
  end.

(** The payloads on which [planToMarkdown] throws: a hole of the status
    lines has no string; or the plan has a phase and the selection in
    force has no [includes]; or the section of the requirements, or of the
    constraints, throws; or the notes are truthy and have no string. *)
Definition renderer_throws (StringToNumber_pos : string -> bool)
    (plan : ImplementationPlan) (review : jsval) : bool :=
  (truthy review
   && negb (printable (opt_prop review "priority")
            && printable (opt_prop review "approach")))
  || (match phases plan with [] => false | _ => true end
      && negb (searchable (effective_phases plan review)))
  || unwalkable StringToNumber_pos (opt_prop review "requirements")
  || unwalkable StringToNumber_pos (opt_prop review "constraints")
  || (truthy (opt_prop review "notes")
      && negb (printable (opt_prop review "notes"))).

End Shape.

(* ================================================================== *)
(** ** The artifact renderer *)

Module RendererFacts.
Import Js Text Plan.

Lemma push_each_app {A : Type} (f : A -> string) (items : list A) (lines : list string) :
  push_each f lines items = (lines ++ map f items)%list.
Proof.
  unfold push_each, push. revert lines.
  induction items as [|x xs IH]; intro lines; simpl.
  - now rewrite app_nil_r.
  - rewrite IH, <- app_assoc. reflexivity.
Qed.

Lemma includes_selection (S : list Z) (n : Z) :
  includes (JArr (map JNum S)) n = Ok (existsb (Z.eqb n) S).
Proof.
  simpl. f_equal. induction S as [|m S IH]; simpl; [reflexivity|].
  rewrite IH, (Z.eqb_sym m n). reflexivity.
Qed.

(** One iteration appends the block of its phase and nothing else. *)
Lemma phase_step_block (S : list Z) (lines : list string) (p : PlanPhase) :
  phase_step (JArr (map JNum S)) lines p = Ok (lines ++ phase_block S p)%list.
Proof.
  unfold phase_step, phase_block, selected.
  rewrite includes_selection. cbn [bind].
  destruct (existsb (Z.eqb (number p)) S); cbn [negb].
  - unfold full_block, push.
    destruct (tasks p) as [|t ts]; destruct (automated (successCriteria p)) as [|a cs];
      destruct (manual (successCriteria p)) as [|m ms];
      destruct (present (implementationNotes p));
      rewrite ?push_each_app; unfold push;
      repeat (rewrite <- app_assoc; cbn [app]); reflexivity.
  - unfold stub_block, push. repeat (rewrite <- app_assoc; cbn [app]). reflexivity.
Qed.

Lemma phase_loop_blocks (S : list Z) (todo : list PlanPhase) (lines : list string) :
  phase_loop (JArr (map JNum S)) lines todo
  = Ok (lines ++ List.concat (map (phase_block S) todo))%list.
Proof.
  revert lines. induction todo as [|p rest IH]; intro lines; cbn [phase_loop map List.concat].
  - now rewrite app_nil_r.
  - rewrite phase_step_block. cbn [bind]. rewrite IH, <- app_assoc. reflexivity.
Qed.

Lemma grows_refl (l : list string) : grows l l.
Proof. exists []. now rewrite app_nil_r. Qed.

Lemma grows_trans (l1 l2 l3 : list string) :
  grows l1 l2 -> grows l2 l3 -> grows l1 l3.
Proof.
  intros [a ->] [b ->]. exists (a ++ b)%list. now rewrite app_assoc.
Qed.

Lemma push_grows (l : list string) (x : string) : grows l (push l x).
Proof. exists [x]. reflexivity. Qed.

Lemma push_each_grows {A : Type} (f : A -> string) (l : list string) (items : list A) :
  grows l (push_each f l items).
Proof. rewrite push_each_app. eexists; reflexivity. Qed.

Lemma list_section_grows (heading : string) (blank : bool) (lines items : list string) :
  grows lines (list_section heading blank lines items).
Proof.
  unfold list_section. destruct items as [|i rest]; [apply grows_refl|].
  eapply grows_trans; [|apply push_grows].
  eapply grows_trans; [|apply push_each_grows].
  destruct blank.
  - eapply grows_trans; apply push_grows.
  - apply push_grows.
Qed.

(** [ToString] returns exactly on the values that hold no object with a
    member [toString] of its own. *)
Lemma to_str_stringable (v : json) :
  match to_str v with
  | Ok _ => stringable v = true
  | Throw => stringable v = false
  end.
Proof.
  revert v. fix IH 1. intros [ |b|n|s|items|fields].
  - reflexivity.
  - destruct b; reflexivity.
  - reflexivity.
  - reflexivity.
  - cbn [to_str stringable].
    match goal with
    | |- context [bind (?join items) _] =>
        assert (match join items with
                | Ok _ => forallb stringable items = true
                | Throw => forallb stringable items = false
                end) as H
    end.
    { induction items as [|e rest IHl]; [reflexivity|].
      cbn [forallb]. pose proof (IH e) as He.
      destruct e as [ |b|n|s|sub|fs].
      - cbn [bind stringable andb]. destruct (_ rest); cbn [bind]; exact IHl.
      - destruct (to_str (JBool b)); rewrite He; cbn [bind andb]; [|reflexivity].
        destruct (_ rest); cbn [bind]; exact IHl.
      - destruct (to_str (JNum n)); rewrite He; cbn [bind andb]; [|reflexivity].
        destruct (_ rest); cbn [bind]; exact IHl.
      - destruct (to_str (JStr s)); rewrite He; cbn [bind andb]; [|reflexivity].
        destruct (_ rest); cbn [bind]; exact IHl.
      - destruct (to_str (JArr sub)); rewrite He; cbn [bind andb]; [|reflexivity].
        destruct (_ rest); cbn [bind]; exact IHl.
      - destruct (to_str (JObj fs)); rewrite He; cbn [bind andb]; [|reflexivity].
        destruct (_ rest); cbn [bind]; exact IHl. }
    destruct (_ items); cbn [bind]; exact H.
  - cbn [to_str stringable]. destruct (lookup "toString" fields); reflexivity.
Qed.

Lemma to_str_ok (v : json) :
  stringable v = true -> exists s, to_str v = Ok s.
Proof.
  intros H. pose proof (to_str_stringable v) as T.
  destruct (to_str v) as [s|]; [exists s; reflexivity | congruence].
Qed.

Lemma to_str_throws (v : json) :
  to_str v = Throw <-> stringable v = false.
Proof.
  pose proof (to_str_stringable v) as T.
  destruct (to_str v) as [s|]; split; intros H; congruence.
Qed.

Lemma tpl_throws (v : jsval) :
  tpl v = Throw <-> printable v = false.
Proof.
  destruct v as [w|]; [apply to_str_throws|]. split; discriminate.
Qed.

Lemma tpl_ok (v : jsval) :
  printable v = true -> exists s, tpl v = Ok s.
Proof.
  intros H. destruct (tpl v) as [s|] eqn:E; [exists s; reflexivity|].
  apply tpl_throws in E. congruence.
Qed.

(** What a loop over the items of a payload pushes does not depend on the
    lines pushed before. *)
Lemma push_items_uniform (items : list json) :
  (exists extra, forall l, push_items l items = Ok (l ++ extra)%list)
  \/ (forall l, push_items l items = Throw).
Proof.
  induction items as [|i rest IH]; cbn [push_items].
  - left. exists []. intros l. now rewrite app_nil_r.
  - destruct (to_str i) as [s|]; cbn [bind]; [|right; reflexivity].
    destruct IH as [[extra H]|H].
    + left. exists (("- " ++ s) :: extra). intros l. rewrite H. unfold push.
      now rewrite <- app_assoc.
    + right. intros l. apply H.
Qed.

Lemma push_items_throws (items : list json) (lines : list string) :
  push_items lines items = Throw <-> forallb stringable items = false.
Proof.
  revert lines. induction items as [|i rest IH]; intros lines;
    cbn [push_items forallb].
  - split; discriminate.
  - pose proof (to_str_stringable i) as T.
    destruct (to_str i) as [s|]; rewrite T; cbn [bind andb]; [apply IH|].
    split; reflexivity.
Qed.

Lemma list_section_app (heading : string) (blank : bool) (lines items : list string) :
  list_section heading blank lines items
  = (lines ++ list_section heading blank [] items)%list.
Proof.
  unfold list_section. destruct items as [|i rest]; [now rewrite app_nil_r|].
  rewrite !push_each_app. unfold push. destruct blank; cbn [app];
    repeat rewrite <- app_assoc; reflexivity.
Qed.

Lemma review_section_uniform stn (heading : string) (field : jsval) :
  (exists extra, forall l, review_section stn heading field l = Ok (l ++ extra)%list)
  \/ (forall l, review_section stn heading field l = Throw).
Proof.
  unfold review_section. destruct field as [v|].
  - destruct (nonempty stn (Some v)) as [[|]|]; cbn [bind].
    + destruct (iterate v) as [items|]; cbn [bind]; [|right; reflexivity].
      destruct (push_items_uniform items) as [[extra H]|H].
      * left. exists ([heading; ""] ++ extra ++ [""])%list. intros l.
        rewrite H. cbn [bind]. unfold push.
        repeat rewrite <- app_assoc. reflexivity.
      * right. intros l. rewrite H. reflexivity.
    + left. exists []. intros l. now rewrite app_nil_r.
    + right. reflexivity.
  - left. exists []. intros l. now rewrite app_nil_r.
Qed.

Lemma review_section_grows stn (heading : string) (field : jsval)
    (lines out : list string) :
  review_section stn heading field lines = Ok out -> grows lines out.
Proof.
  destruct (review_section_uniform stn heading field) as [[extra H]|H];
    rewrite H; [|discriminate].
  intros [= <-]. exists extra. reflexivity.
Qed.

(** The lines after the phases do not depend on the lines before them. *)
Lemma back_matter_uniform stn (plan : ImplementationPlan) (review : jsval)
    (generated : string) :
  (exists extra, forall l,
      back_matter stn plan review generated l = Ok (l ++ extra)%list)
  \/ (forall l, back_matter stn plan review generated l = Throw).
Proof.
  unfold back_matter.
  assert (exists tests, forall l,
             match testingStrategy plan with
             | Some ts =>
                 list_section "### Manual Testing" false
                   (list_section "### Integration Tests" false
                      (list_section "### Unit Tests" false
                         (push (push l "## Testing Strategy") "") (unit_tests ts))
                      (integration ts)) (manual_tests ts)
             | None => l
             end = (l ++ tests)%list) as [tests Ht].
  { destruct (testingStrategy plan) as [ts|].
    - eexists. intros l.
      rewrite (list_section_app "### Manual Testing"),
        (list_section_app "### Integration Tests"),
        (list_section_app "### Unit Tests").
      unfold push. repeat rewrite <- app_assoc. reflexivity.
    - exists []. intros l. now rewrite app_nil_r. }
  cbv zeta.
  destruct (review_section_uniform stn "## Additional Requirements"
              (opt_prop review "requirements")) as [[reqs Hr]|Hr];
    [|right; intros l; rewrite Hr; reflexivity].
  destruct (review_section_uniform stn "## Constraints"
              (opt_prop review "constraints")) as [[cons Hc]|Hc];
    [|right; intros l; rewrite Hr; cbn [bind]; rewrite Hc; reflexivity].
  destruct (truthy (opt_prop review "notes")).
  - destruct (tpl (opt_prop review "notes")) as [notes|].
    + left. eexists. intros l. rewrite Ht, Hr. cbn [bind]. rewrite Hc. cbn [bind].
      rewrite (list_section_app "## References"). unfold push.
      repeat rewrite <- app_assoc. reflexivity.
    + right. intros l. rewrite Hr. cbn [bind]. rewrite Hc. reflexivity.
  - left. eexists. intros l. rewrite Ht, Hr. cbn [bind]. rewrite Hc. cbn [bind].
    rewrite (list_section_app "## References"). unfold push.
    repeat rewrite <- app_assoc. reflexivity.
Qed.

(** The lines before the phases end with the heading of the phases. *)
Lemma front_matter_heading (plan : ImplementationPlan) (review : jsval)
    (front : list string) :
  front_matter plan review = Ok front ->
  exists before, front = (before ++ ["## Implementation Phases"; ""])%list.
Proof.
  unfold front_matter. cbv zeta.
  match goal with |- bind ?m _ = _ -> _ => destruct m as [status|] end;
    cbn [bind]; [|discriminate].
  intros [= <-]. unfold push. eexists. rewrite <- app_assoc. reflexivity.
Qed.

End RendererFacts.

Module RendererTheorems.
Import Js Text Plan RendererFacts.

Lemma effective_phases_given (plan : ImplementationPlan) (review : jsval) (S : list Z) :
  opt_prop review "selectedPhases" = Some (JArr (map JNum S)) ->
  effective_phases plan review = JArr (map JNum S).
Proof. unfold effective_phases. intros ->. reflexivity. Qed.

Lemma blocks_match (S : list Z) (ps : list PlanPhase) :
  Forall2 (fun p block =>
             (selected S p = true /\ block = full_block p)
             \/ (selected S p = false /\ block = stub_block p))
          ps (map (phase_block S) ps).
Proof.
  induction ps as [|p ps IH]; cbn [map]; constructor; [|exact IH].
  unfold phase_block. destruct (selected S p); [left|right]; split; reflexivity.
Qed.

(** C3. For a plan with N phases and a review whose [selectedPhases] is
    the array of the numbers [S], the rendered document consists of the
    lines before the phases, then exactly one block per phase in the order
    of [plan.phases], then the lines after them.  The block of a phase whose
    number is in [S] is the full rendering (description, tasks and success
    criteria as unchecked items, the implementation note when present); the
    block of a phase whose number is not in [S] is the marked stub.  No
    phase is left without a block, and nothing else in the document comes
    from the phases: the lines before and after the blocks are, with the
    heading between them, the whole document of the same plan without its
    phases. *)
Theorem C3_one_block_per_phase :
  forall (stn : string -> bool) (plan : ImplementationPlan) (review : jsval)
         (S : list Z) (generated : string) (doc : list string),
    opt_prop review "selectedPhases" = Some (JArr (map JNum S)) ->
    planToMarkdown_lines stn plan review generated = Ok doc ->
    exists (before : list string) (blocks : list (list string)) (after : list string),
      doc = (before ++ ["## Implementation Phases"; ""]
             ++ List.concat blocks ++ after)%list
      /\ List.length blocks = List.length (phases plan)
      /\ Forall2 (fun p block =>
                    (selected S p = true /\ block = full_block p)
                    \/ (selected S p = false /\ block = stub_block p))
                 (phases plan) blocks
      /\ planToMarkdown_lines stn (without_phases plan) review generated
         = Ok (before ++ ["## Implementation Phases"; ""] ++ after)%list.
Proof.
  intros stn plan review S generated doc Hsel Hdoc.
  unfold planToMarkdown_lines in *.
  change (front_matter (without_phases plan) review) with (front_matter plan review).
  change (back_matter stn (without_phases plan) review generated)
    with (back_matter stn plan review generated).
  rewrite !(effective_phases_given _ review S Hsel).
  rewrite (effective_phases_given plan review S Hsel) in Hdoc.
  destruct (front_matter plan review) as [front|] eqn:Hfront;
    cbn [bind] in Hdoc |- *; [|discriminate].
  destruct (front_matter_heading plan review front Hfront) as [before ->].
  rewrite phase_loop_blocks in Hdoc. cbn [bind] in Hdoc.
  destruct (back_matter_uniform stn plan review generated) as [[after Hback]|Hback];
    rewrite Hback in Hdoc; [|discriminate].
  injection Hdoc as <-.
  exists before, (map (phase_block S) (phases plan)), after.
  split; [|split; [apply length_map | split; [apply blocks_match|]]].
  - repeat rewrite <- app_assoc. reflexivity.
  - cbn [phases without_phases phase_loop bind]. rewrite Hback.
    repeat rewrite <- app_assoc. reflexivity.
Qed.

(** The sample plan approved with phase 2 only: a stub for phase 1, the
    full block for phase 2, and around them the document of the plan
    without its phases. *)
Lemma C3_one_block_per_phase_witness :
  exists (doc before : list string) (blocks : list (list string)) (after : list string),
    planToMarkdown_lines Reference.numeral_pos Sample.rate_limiting
      (Some (Review.to_json (Sample.decision Review.approve [2])))
      "2026-11-01T12:00:00.000Z" = Ok doc
    /\ doc = (before ++ ["## Implementation Phases"; ""]
              ++ List.concat blocks ++ after)%list
    /\ List.length blocks = 2%nat
    /\ blocks = [stub_block Sample.phase1; full_block Sample.phase2]
    /\ planToMarkdown_lines Reference.numeral_pos
         (without_phases Sample.rate_limiting)
         (Some (Review.to_json (Sample.decision Review.approve [2])))
         "2026-11-01T12:00:00.000Z"
       = Ok (before ++ ["## Implementation Phases"; ""] ++ after)%list.
Proof.
  destruct (C3_one_block_per_phase Reference.numeral_pos Sample.rate_limiting
              (Some (Review.to_json (Sample.decision Review.approve [2]))) [2]
              "2026-11-01T12:00:00.000Z"
              (match planToMarkdown_lines Reference.numeral_pos Sample.rate_limiting
                       (Some (Review.to_json (Sample.decision Review.approve [2])))
                       "2026-11-01T12:00:00.000Z" with
               | Ok d => d
               | Throw => []
               end))
    as (before & blocks & after & Hdoc & Hlen & Hblocks & Hrest).
  - reflexivity.
  - vm_compute. reflexivity.
  - eexists _, before, blocks, after.
    split; [vm_compute; reflexivity|].
    split; [exact Hdoc|]. split; [exact Hlen|].
    split; [|exact Hrest].
    inversion Hblocks as [|p1 b1 ps1 bs1 H1 Hrest1]; subst.
    inversion Hrest1 as [|p2 b2 ps2 bs2 H2 Hrest2]; subst.
    inversion Hrest2; subst.
    destruct H1 as [[E _]|[_ ->]]; [vm_compute in E; discriminate|].
    destruct H2 as [[_ ->]|[E _]]; [|vm_compute in E; discriminate].
    reflexivity.
Defined.

End RendererTheorems.

(* ================================================================== *)
(** ** The extraction of the plan *)

Module TextFacts.
Import Text.

Lemma append_assoc (a b c : string) : (a ++ b) ++ c = a ++ (b ++ c).
Proof. induction a as [|x a IH]; simpl; [reflexivity|]. now rewrite IH. Qed.

Lemma append_nil_r (a : string) : a ++ "" = a.
Proof. induction a as [|x a IH]; simpl; [reflexivity|]. now rewrite IH. Qed.

Lemma piece_refl (s : string) : piece s s.
Proof. exists "", "". simpl. now rewrite append_nil_r. Qed.

Lemma piece_trans (a b c : string) : piece a b -> piece b c -> piece a c.
Proof.
  intros (x & y & ->) (u & v & ->). exists (x ++ u), (v ++ y).
  now rewrite !append_assoc.
Qed.

Lemma piece_tail (c : ascii) (s t : string) : piece s t -> piece (String c s) t.
Proof. intros (a & b & ->). exists (String c a), b. reflexivity. Qed.

Lemma ltrim_piece (s : string) : piece s (ltrim s).
Proof.
  induction s as [|c s IH]; simpl; [apply piece_refl|].
  destruct (is_space c); [apply piece_tail, IH | apply piece_refl].
Qed.

Lemma rtrim_prefix (s : string) : exists b, s = rtrim s ++ b.
Proof.
  induction s as [|c s [b IH]]; simpl; [exists ""; reflexivity|].
  destruct (rtrim s) as [|d r] eqn:E.
  - destruct (is_space c).
    + exists (String c s). reflexivity.
    + exists s. reflexivity.
  - exists b. simpl in IH. simpl. now rewrite <- IH.
Qed.

Lemma trim_piece (s : string) : piece s (trim s).
Proof.
  unfold trim. eapply piece_trans; [apply ltrim_piece|].
  destruct (rtrim_prefix (ltrim s)) as [b Hb]. exists "", b. exact Hb.
Qed.

Lemma ltrim_idem (s : string) : ltrim (ltrim s) = ltrim s.
Proof.
  induction s as [|c s IH]; simpl; [reflexivity|].
  destruct (is_space c) eqn:E; [exact IH|]. simpl. now rewrite E.
Qed.

Lemma ltrim_spaces (ws s : string) : all_space ws = true -> ltrim (ws ++ s) = ltrim s.
Proof.
  induction ws as [|c ws IH]; simpl; [reflexivity|].
  intros H. apply andb_prop in H as [Hc Hws]. rewrite Hc. auto.
Qed.

Lemma space_not_backtick (c : ascii) : is_space c = true -> Ascii.eqb backtick c = false.
Proof.
  intros H. destruct (Ascii.eqb backtick c) eqn:E; [|reflexivity].
  apply Ascii.eqb_eq in E. subst c. discriminate H.
Qed.

Lemma all_space_lacks (ws : string) : all_space ws = true -> lacks backtick ws = true.
Proof.
  induction ws as [|c ws IH]; cbn [all_space lacks]; [reflexivity|].
  intros H. apply andb_prop in H as [Hc Hws].
  rewrite (space_not_backtick c Hc), IH by assumption. reflexivity.
Qed.

Lemma lacks_app (c : ascii) (a b : string) :
  lacks c (a ++ b) = lacks c a && lacks c b.
Proof.
  induction a as [|x a IH]; simpl; [reflexivity|].
  now rewrite IH, andb_assoc.
Qed.

Lemma strip_fence_other (c : ascii) (s : string) :
  Ascii.eqb backtick c = false -> strip_prefix fence (String c s) = None.
Proof.
  intros H. unfold fence. cbn [strip_prefix]. fold backtick. now rewrite H.
Qed.

Lemma strip_prefix_app (p s : string) : strip_prefix p (p ++ s) = Some s.
Proof.
  induction p as [|c p IH]; simpl; [reflexivity|]. now rewrite Ascii.eqb_refl.
Qed.

(** The lazy group stops at the first fence. *)
Lemma capture_until_fence_first (p q : string) :
  lacks backtick p = true ->
  capture_until_fence (p ++ fence ++ q) = Some p.
Proof.
  induction p as [|c p IH]; intros H.
  - reflexivity.
  - cbn [lacks] in H. apply andb_prop in H as [Hc Hp].
    apply negb_true_iff in Hc.
    change (String c p ++ fence ++ q) with (String c (p ++ fence ++ q)).
    cbn [capture_until_fence]. rewrite (strip_fence_other _ _ Hc).
    rewrite (IH Hp). reflexivity.
Qed.

Lemma capture_until_fence_none (s : string) :
  lacks backtick s = true -> capture_until_fence s = None.
Proof.
  induction s as [|c s IH]; intros H; [reflexivity|].
  cbn [lacks] in H. apply andb_prop in H as [Hc Hs]. apply negb_true_iff in Hc.
  cbn [capture_until_fence]. rewrite (strip_fence_other _ _ Hc), (IH Hs). reflexivity.
Qed.

(** The greedy white space leaves the group without its leading white space. *)
Lemma after_ws_capture (s : string) :
  after_ws s = option_map ltrim (capture_until_fence s).
Proof.
  induction s as [|c s IH]; [reflexivity|].
  cbn [after_ws]. destruct (is_space c) eqn:Hc.
  - rewrite IH. cbn [capture_until_fence].
    rewrite (strip_fence_other _ _ (space_not_backtick c Hc)).
    destruct (capture_until_fence s) as [g|]; simpl; [|reflexivity].
    now rewrite Hc.
  - cbn [capture_until_fence].
    destruct (strip_prefix fence (String c s)); [reflexivity|].
    destruct (capture_until_fence s) as [g|]; simpl; [|reflexivity].
    now rewrite Hc.
Qed.

Lemma after_open_tagged (r g : string) :
  after_ws r = Some g -> after_open ("json" ++ r) = Some g.
Proof.
  intros H. unfold after_open. rewrite strip_prefix_app, H. reflexivity.
Qed.

Lemma after_open_space (c : ascii) (r : string) :
  is_space c = true -> after_open (String c r) = after_ws (String c r).
Proof.
  intros H. unfold after_open. cbn [strip_prefix].
  destruct (Ascii.eqb "j" c) eqn:Ej; [|reflexivity].
  apply Ascii.eqb_eq in Ej. subst c. discriminate H.
Qed.

Lemma match_fence_first (pre rest g : string) :
  lacks backtick pre = true ->
  after_open rest = Some g ->
  match_fence (pre ++ fence ++ rest) = Some g.
Proof.
  intros Hpre Hg. induction pre as [|c pre IH].
  - change ("" ++ fence ++ rest)
      with (String backtick (String backtick (String backtick rest))).
    cbn [match_fence].
    change (String backtick (String backtick (String backtick rest)))
      with (fence ++ rest).
    rewrite strip_prefix_app, Hg. reflexivity.
  - cbn [lacks] in Hpre. apply andb_prop in Hpre as [Hc Hp]. apply negb_true_iff in Hc.
    change (String c pre ++ fence ++ rest) with (String c (pre ++ fence ++ rest)).
    cbn [match_fence]. rewrite (strip_fence_other _ _ Hc). auto.
Qed.

Lemma match_fence_none (text : string) :
  lacks backtick text = true -> match_fence text = None.
Proof.
  induction text as [|c text IH]; intros H; [reflexivity|].
  cbn [lacks] in H. apply andb_prop in H as [Hc Ht]. apply negb_true_iff in Hc.
  cbn [match_fence]. rewrite (strip_fence_other _ _ Hc). auto.
Qed.

Lemma upto_last_close_none (s : string) :
  lacks "}" s = true -> upto_last_close s = None.
Proof.
  induction s as [|c s IH]; intros H; [reflexivity|].
  cbn [lacks] in H. apply andb_prop in H as [Hc Hs]. apply negb_true_iff in Hc.
  cbn [upto_last_close]. rewrite (IH Hs).
  rewrite Ascii.eqb_sym, Hc. reflexivity.
Qed.

(** The greedy star runs to the last closing brace. *)
Lemma upto_last_close_last (body post : string) :
  lacks "}" post = true ->
  upto_last_close (body ++ "}" ++ post) = Some (body ++ "}").
Proof.
  intros Hpost. induction body as [|c body IH].
  - change ("" ++ "}" ++ post) with (String "}" post).
    cbn [upto_last_close]. rewrite (upto_last_close_none _ Hpost). reflexivity.
  - change (String c body ++ "}" ++ post) with (String c (body ++ "}" ++ post)).
    cbn [upto_last_close]. rewrite IH. reflexivity.
Qed.

Lemma match_object_span (pre body post : string) :
  lacks "{" pre = true ->
  lacks "}" post = true ->
  match_object (pre ++ "{" ++ body ++ "}" ++ post) = Some ("{" ++ body ++ "}").
Proof.
  intros Hpre Hpost. induction pre as [|c pre IH].
  - change ("" ++ "{" ++ body ++ "}" ++ post) with (String "{" (body ++ "}" ++ post)).
    cbn [match_object]. rewrite Ascii.eqb_refl, (upto_last_close_last _ _ Hpost).
    reflexivity.
  - cbn [lacks] in Hpre. apply andb_prop in Hpre as [Hc Hp]. apply negb_true_iff in Hc.
    change (String c pre ++ "{" ++ body ++ "}" ++ post)
      with (String c (pre ++ "{" ++ body ++ "}" ++ post)).
    cbn [match_object]. rewrite Ascii.eqb_sym, Hc. auto.
Qed.

Lemma upto_last_close_prefix (s r : string) :
  upto_last_close s = Some r -> exists b, s = r ++ b.
Proof.
  revert r. induction s as [|c s IH]; intros r H; [discriminate|].
  cbn [upto_last_close] in H. destruct (upto_last_close s) as [r'|].
  - injection H as <-. destruct (IH r' eq_refl) as [b ->]. exists b. reflexivity.
  - destruct (Ascii.eqb c "}") eqn:E; [|discriminate].
    injection H as <-. apply Ascii.eqb_eq in E. subst c. exists s. reflexivity.
Qed.

Lemma match_object_piece (text o : string) :
  match_object text = Some o -> piece text o.
Proof.
  induction text as [|c text IH]; intros H; [discriminate|].
  cbn [match_object] in H. destruct (Ascii.eqb c "{") eqn:E.
  - destruct (upto_last_close text) as [r|] eqn:R.
    + injection H as <-. apply Ascii.eqb_eq in E. subst c.
      destruct (upto_last_close_prefix _ _ R) as [b ->].
      exists "", b. reflexivity.
    + apply piece_tail, IH, H.
  - apply piece_tail, IH, H.
Qed.

Lemma capture_until_fence_prefix (s g : string) :
  capture_until_fence s = Some g -> exists b, s = g ++ b.
Proof.
  revert g. induction s as [|c s IH]; intros g H.
  - discriminate.
  - cbn [capture_until_fence] in H.
    destruct (strip_prefix fence (String c s)).
    + injection H as <-. exists (String c s). reflexivity.
    + destruct (capture_until_fence s) as [g'|]; [|discriminate].
      injection H as <-. destruct (IH g' eq_refl) as [b ->].
      exists b. reflexivity.
Qed.

Lemma after_ws_piece (s g : string) : after_ws s = Some g -> piece s g.
Proof.
  rewrite after_ws_capture.
  destruct (capture_until_fence s) as [g'|] eqn:E; [|discriminate].
  intros [= <-]. destruct (capture_until_fence_prefix _ _ E) as [b ->].
  eapply piece_trans; [|apply ltrim_piece]. exists "", b. reflexivity.
Qed.

Lemma strip_prefix_piece (p s r : string) : strip_prefix p s = Some r -> piece s r.
Proof.
  revert s. induction p as [|c p IH]; intros s H.
  - injection H as <-. apply piece_refl.
  - destruct s as [|d s]; [discriminate|]. cbn [strip_prefix] in H.
    destruct (Ascii.eqb c d); [|discriminate]. apply piece_tail, IH, H.
Qed.

Lemma after_open_piece (s g : string) : after_open s = Some g -> piece s g.
Proof.
  unfold after_open. destruct (strip_prefix "json" s) as [r|] eqn:E.
  - destruct (after_ws r) as [g'|] eqn:W.
    + intros [= <-]. eapply piece_trans; [eapply strip_prefix_piece, E|].
      apply after_ws_piece, W.
    + apply after_ws_piece.
  - apply after_ws_piece.
Qed.

Lemma match_fence_piece (text g : string) : match_fence text = Some g -> piece text g.
Proof.
  induction text as [|c text IH]; intros H.
  - cbn in H. discriminate.
  - cbn [match_fence] in H.
    destruct (strip_prefix fence (String c text)) as [r|] eqn:E.
    + destruct (after_open r) as [g'|] eqn:O.
      * injection H as <-. eapply piece_trans; [eapply strip_prefix_piece, E|].
        apply after_open_piece, O.
      * apply piece_tail, IH, H.
    + apply piece_tail, IH, H.
Qed.

(** *** The shapes of a response and the two expressions *)

Lemma strip_prefix_eq (p s r : string) : strip_prefix p s = Some r -> s = p ++ r.
Proof.
  revert s. induction p as [|c p IH]; intros s H.
  - injection H as <-. reflexivity.
  - destruct s as [|d s]; [discriminate|]. cbn [strip_prefix] in H.
    destruct (Ascii.eqb c d) eqn:E; [|discriminate].
    apply Ascii.eqb_eq in E. subst d. cbn [append]. f_equal. apply IH, H.
Qed.

Lemma strip_prefix_extend (p s r x : string) :
  strip_prefix p s = Some r -> strip_prefix p (s ++ x) = Some (r ++ x).
Proof.
  intros H. rewrite (strip_prefix_eq _ _ _ H), append_assoc.
  apply strip_prefix_app.
Qed.

(** Whether a text that is followed by two backticks starts with a
    fence does not depend on what comes after them. *)
Lemma starts_fence_padded (c : ascii) (s x : string) :
  strip_prefix fence (String c s ++ "``") = None ->
  strip_prefix fence (String c s ++ "``" ++ x) = None.
Proof.
  unfold fence. destruct s as [|a [|b s]]; cbn [append strip_prefix];
    repeat match goal with
           | |- context [Ascii.eqb ?u ?v] => destruct (Ascii.eqb u v)
           end; congruence.
Qed.

Lemma starts_fence_unpadded (c : ascii) (s x : string) :
  strip_prefix fence (String c s ++ "``" ++ x) = None ->
  strip_prefix fence (String c s ++ "``") = None.
Proof.
  unfold fence. destruct s as [|a [|b s]]; cbn [append strip_prefix];
    repeat match goal with
           | |- context [Ascii.eqb ?u ?v] => destruct (Ascii.eqb u v)
           end; congruence.
Qed.

Lemma holds_fence_tail (c : ascii) (s : string) :
  holds_fence (String c s) = false -> holds_fence s = false.
Proof.
  cbn [holds_fence]. destruct (strip_prefix fence (String c s)); [discriminate|auto].
Qed.

Lemma holds_fence_suffix (a s : string) :
  holds_fence (a ++ s) = false -> holds_fence s = false.
Proof.
  induction a as [|c a IH]; [auto|]. intros H. apply IH.
  exact (holds_fence_tail c _ H).
Qed.

Lemma holds_fence_capture (s : string) :
  holds_fence s = false -> capture_until_fence s = None.
Proof.
  induction s as [|c s IH]; intros H; [reflexivity|].
  pose proof (holds_fence_tail _ _ H) as Ht.
  cbn [holds_fence] in H. cbn [capture_until_fence].
  destruct (strip_prefix fence (String c s)); [discriminate|].
  now rewrite (IH Ht).
Qed.

(** The lazy group stops where the first fence starts. *)
Lemma capture_first_fence (p q : string) :
  no_fence_in p = true -> capture_until_fence (p ++ fence ++ q) = Some p.
Proof.
  unfold no_fence_in. rewrite negb_true_iff.
  induction p as [|c p IH]; intros H; [reflexivity|].
  pose proof (holds_fence_tail c _ H) as Ht.
  change (String c p ++ fence ++ q) with (String c (p ++ fence ++ q)).
  cbn [capture_until_fence].
  assert (strip_prefix fence (String c (p ++ fence ++ q)) = None) as ->.
  { change (String c (p ++ fence ++ q)) with (String c p ++ "``" ++ "`" ++ q).
    apply starts_fence_padded.
    change (String c p ++ "``") with (String c (p ++ "``")) in *.
    cbn [holds_fence] in H.
    destruct (strip_prefix fence (String c (p ++ "``"))); [discriminate|reflexivity]. }
  rewrite (IH Ht). reflexivity.
Qed.

(** The first fence of a text opens the leftmost match. *)
Lemma match_fence_opening (pre rest g : string) :
  no_fence_in pre = true ->
  after_open rest = Some g ->
  match_fence (pre ++ fence ++ rest) = Some g.
Proof.
  unfold no_fence_in. rewrite negb_true_iff. intros Hpre Hg.
  induction pre as [|c pre IH].
  - change ("" ++ fence ++ rest)
      with (String backtick (String backtick (String backtick rest))).
    cbn [match_fence].
    change (String backtick (String backtick (String backtick rest)))
      with (fence ++ rest).
    rewrite strip_prefix_app, Hg. reflexivity.
  - pose proof (holds_fence_tail c _ Hpre) as Ht.
    change (String c pre ++ fence ++ rest) with (String c (pre ++ fence ++ rest)).
    cbn [match_fence].
    assert (strip_prefix fence (String c (pre ++ fence ++ rest)) = None) as ->.
    { change (String c (pre ++ fence ++ rest))
        with (String c pre ++ "``" ++ "`" ++ rest).
      apply starts_fence_padded.
      change (String c pre ++ "``") with (String c (pre ++ "``")) in *.
      cbn [holds_fence] in Hpre.
      destruct (strip_prefix fence (String c (pre ++ "``")));
        [discriminate|reflexivity]. }
    apply IH, Ht.
Qed.

(** The tag is not completed by a fence. *)
Lemma strip_tag_fence (inner x : string) :
  strip_prefix "json" inner = None ->
  strip_prefix "json" (inner ++ fence ++ x) = None.
Proof.
  unfold fence.
  destruct inner as [|a [|b [|c [|d r]]]]; cbn [append strip_prefix];
    repeat match goal with
           | |- context [Ascii.eqb ?u ?v] =>
               first [ is_var v; destruct (Ascii.eqb u v)
                     | let e := eval vm_compute in (Ascii.eqb u v) in
                       change (Ascii.eqb u v) with e; cbv iota ]
           end; congruence.
Qed.

(** What the expression captures in a block that holds no fence. *)
Lemma after_open_block (inner post : string) :
  no_fence_in inner = true ->
  after_open (inner ++ fence ++ post) = Some (ltrim (untagged inner)).
Proof.
  intros H. unfold after_open, untagged.
  destruct (strip_prefix "json" inner) as [r|] eqn:E.
  - rewrite (strip_prefix_extend _ _ _ (fence ++ post) E).
    assert (no_fence_in r = true) as Hr.
    { unfold no_fence_in in *. rewrite negb_true_iff in *.
      rewrite (strip_prefix_eq _ _ _ E), append_assoc in H.
      exact (holds_fence_suffix _ _ H). }
    rewrite after_ws_capture, (capture_first_fence r post Hr). reflexivity.
  - rewrite (strip_tag_fence inner post E).
    rewrite after_ws_capture, (capture_first_fence inner post H). reflexivity.
Qed.

Lemma match_fence_block (pre inner post : string) :
  no_fence_in pre = true ->
  no_fence_in inner = true ->
  match_fence (pre ++ fence ++ inner ++ fence ++ post)
  = Some (ltrim (untagged inner)).
Proof.
  intros Hpre Hinner. apply match_fence_opening; [exact Hpre|].
  apply after_open_block, Hinner.
Qed.

Lemma after_open_none (r : string) :
  holds_fence r = false -> after_open r = None.
Proof.
  intros H. unfold after_open.
  assert (after_ws r = None) as Hr
    by (rewrite after_ws_capture, (holds_fence_capture r H); reflexivity).
  destruct (strip_prefix "json" r) as [r'|] eqn:E; [|exact Hr].
  rewrite (strip_prefix_eq _ _ _ E) in H.
  rewrite after_ws_capture, (holds_fence_capture r' (holds_fence_suffix _ _ H)).
  exact Hr.
Qed.

Lemma strip_fence_drop3 (s r : string) :
  strip_prefix fence s = Some r -> r = drop3 s.
Proof.
  intros H. rewrite (strip_prefix_eq _ _ _ H). reflexivity.
Qed.

Lemma drop3_tail (c : ascii) (s : string) :
  holds_fence (drop3 (String c s)) = false -> holds_fence (drop3 s) = false.
Proof.
  destruct s as [|a [|b [|d r]]]; try reflexivity.
  cbn [drop3]. apply holds_fence_tail.
Qed.

Lemma match_fence_no_closing (u : string) :
  holds_fence (drop3 u) = false -> match_fence u = None.
Proof.
  induction u as [|c u IH]; intros H; [reflexivity|].
  cbn [match_fence].
  destruct (strip_prefix fence (String c u)) as [r|] eqn:E.
  - rewrite (strip_fence_drop3 _ _ E), (after_open_none _ H).
    apply IH, (drop3_tail c), H.
  - apply IH, (drop3_tail c), H.
Qed.

(** Without a fenced block the first expression does not match. *)
Lemma match_fence_unfenced (text : string) :
  fenced text = false -> match_fence text = None.
Proof.
  induction text as [|c text IH]; intros H; [reflexivity|].
  cbn [fenced] in H.
  destruct (strip_prefix fence (String c text)) as [r|] eqn:E.
  - apply match_fence_no_closing. now rewrite <- (strip_fence_drop3 _ _ E).
  - cbn [match_fence]. rewrite E. apply IH, H.
Qed.

Lemma match_object_closed (t : string) :
  lacks "}" t = true -> match_object t = None.
Proof.
  induction t as [|c t IH]; intros H; [reflexivity|].
  cbn [lacks] in H. apply andb_prop in H as [_ Ht].
  cbn [match_object]. rewrite (upto_last_close_none t Ht), (IH Ht).
  destruct (Ascii.eqb c "{"); reflexivity.
Qed.

(** Without an opening brace before a closing one the second expression
    does not match. *)
Lemma match_object_unbraced (text : string) :
  braced text = false -> match_object text = None.
Proof.
  induction text as [|c text IH]; intros H; [reflexivity|].
  cbn [braced] in H. cbn [match_object].
  destruct (Ascii.eqb c "{"); [|apply IH, H].
  apply negb_false_iff in H.
  rewrite (upto_last_close_none text H). apply match_object_closed, H.
Qed.

(** Every text has a block and a span. *)
Lemma holds_fence_split (s : string) :
  holds_fence s = true ->
  exists a b, s = a ++ fence ++ b /\ no_fence_in a = true.
Proof.
  induction s as [|c s IH]; intros H; [discriminate|].
  cbn [holds_fence] in H.
  destruct (strip_prefix fence (String c s)) as [r|] eqn:E.
  - exists "", r. split; [exact (strip_prefix_eq _ _ _ E) | reflexivity].
  - destruct (IH H) as (a & b & -> & Ha).
    exists (String c a), b. split; [reflexivity|].
    unfold no_fence_in in *. rewrite negb_true_iff in *.
    change (String c a ++ "``") with (String c (a ++ "``")).
    cbn [holds_fence].
    change (String c (a ++ "``")) with (String c a ++ "``").
    rewrite (starts_fence_unpadded c a ("`" ++ b)); [exact Ha | exact E].
Qed.

Lemma fenced_split (text : string) :
  fenced text = true ->
  exists pre inner post,
    text = pre ++ fence ++ inner ++ fence ++ post
    /\ no_fence_in pre = true /\ no_fence_in inner = true.
Proof.
  induction text as [|c text IH]; intros H; [discriminate|].
  cbn [fenced] in H.
  destruct (strip_prefix fence (String c text)) as [r|] eqn:E.
  - destruct (holds_fence_split r H) as (inner & post & -> & Hi).
    exists "", inner, post.
    split; [exact (strip_prefix_eq _ _ _ E) | split; [reflexivity | exact Hi]].
  - destruct (IH H) as (pre & inner & post & -> & Hp & Hi).
    exists (String c pre), inner, post. split; [reflexivity|]. split; [|exact Hi].
    unfold no_fence_in in *. rewrite negb_true_iff in *.
    change (String c pre ++ "``") with (String c (pre ++ "``")).
    cbn [holds_fence].
    change (String c (pre ++ "``")) with (String c pre ++ "``").
    rewrite (starts_fence_unpadded c pre ("`" ++ inner ++ fence ++ post));
      [exact Hp | exact E].
Qed.

Lemma last_close_split (s : string) :
  lacks "}" s = false ->
  exists body post, s = body ++ "}" ++ post /\ lacks "}" post = true.
Proof.
  induction s as [|d s IH]; intros H; [discriminate|].
  cbn [lacks] in H. destruct (lacks "}" s) eqn:L.
  - rewrite andb_true_r in H. apply negb_false_iff, Ascii.eqb_eq in H. subst d.
    exists "", s. split; [reflexivity | exact L].
  - destruct (IH eq_refl) as (body & post & -> & Hp).
    exists (String d body), post. split; [reflexivity | exact Hp].
Qed.

Lemma braced_split (text : string) :
  braced text = true ->
  exists pre body post,
    text = pre ++ "{" ++ body ++ "}" ++ post
    /\ lacks "{" pre = true /\ lacks "}" post = true.
Proof.
  induction text as [|c text IH]; intros H; [discriminate|].
  cbn [braced] in H. destruct (Ascii.eqb c "{") eqn:E.
  - apply Ascii.eqb_eq in E. subst c. apply negb_true_iff in H.
    destruct (last_close_split text H) as (body & post & -> & Hp).
    exists "", body, post. repeat split. exact Hp.
  - destruct (IH H) as (pre & body & post & -> & Hpre & Hpost).
    exists (String c pre), body, post. split; [reflexivity|]. split; [|exact Hpost].
    cbn [lacks]. rewrite Ascii.eqb_sym, E, Hpre. reflexivity.
Qed.

Lemma block_exists (text : string) : exists s, block text s.
Proof.
  destruct (fenced text) eqn:F.
  - destruct (fenced_split text F) as (pre & inner & post & -> & Hp & Hi).
    eexists. apply block_fenced; assumption.
  - exists text. apply block_whole, F.
Qed.

Lemma span_exists (text : string) : exists o, span text o.
Proof.
  destruct (braced text) eqn:B.
  - destruct (braced_split text B) as (pre & body & post & -> & Hp & Hq).
    eexists. apply span_braces; assumption.
  - exists None. apply span_absent, B.
Qed.

Lemma trim_ltrim (s : string) : trim (ltrim s) = trim s.
Proof. unfold trim. now rewrite ltrim_idem. Qed.

(** What the first step parses. *)
Lemma block_matched (text s : string) :
  block text s ->
  trim match match_fence text with
       | Some group => group
       | None => text
       end = trim s.
Proof.
  intros [pre inner post Hp Hi | t F].
  - rewrite (match_fence_block pre inner post Hp Hi). apply trim_ltrim.
  - now rewrite (match_fence_unfenced t F).
Qed.

(** What the second step parses. *)
Lemma span_matched (text : string) (o : option string) :
  span text o -> match_object text = o.
Proof.
  intros [pre body post Hp Hq | t B].
  - apply match_object_span; assumption.
  - apply match_object_unbraced, B.
Qed.

Lemma prefixes_complete (s b : string) : In s (prefixes (s ++ b)).
Proof.
  induction s as [|c s IH]; cbn [append prefixes].
  - destruct b; left; reflexivity.
  - right. apply in_map, IH.
Qed.

(** Every piece of a text is listed by [pieces]. *)
Lemma pieces_complete (text s : string) : piece text s -> In s (pieces text).
Proof.
  intros (a & b & ->). induction a as [|c a IH].
  - cbn [append]. destruct (s ++ b) as [|d t] eqn:E.
    + destruct s; [left; reflexivity | discriminate].
    + cbn [pieces]. apply in_or_app. left. rewrite <- E. apply prefixes_complete.
  - cbn [append pieces]. apply in_or_app. right. exact IH.
Qed.

End TextFacts.

Module ExtractionTheorems.
Import Js Text Plan TextFacts.

(** C8. The extraction tries the explicitly delimited block first and
    the outermost object-like span second, and it always returns.  The
    block is what the first fenced block of the response holds, the tag
    [json] removed, or the whole response when it has no fenced block;
    the span runs from the first opening brace to the last closing brace.
    Every response has a block and at most one span, and the result is
    the value of the block when its trimmed text parses, else the value
    of the span when there is one and it parses, else [null].  So:
    - a response whose first fenced block holds the payload yields the
      parsed payload, whatever surrounds the fence;
    - a response without a fenced block whose span is the payload yields
      the parsed payload, unless the response as a whole parses to
      something else;
    - a response yields [null] exactly when neither its block nor its
      span parses.
    The function is total: a parse that throws is caught on both steps. *)
Theorem C8_extraction_classes :
  forall JSON_parse : string -> option json,
    (forall text s o,
        block text s ->
        span text o ->
        extract JSON_parse text
        = match JSON_parse (trim s) with
          | Some v => v
          | None =>
              match o with
              | Some braces =>
                  match JSON_parse braces with
                  | Some v => v
                  | None => JNull
                  end
              | None => JNull
              end
          end)
    /\ (forall text, exists s o, block text s /\ span text o)
    /\ (forall pre inner post v,
           no_fence_in pre = true ->
           no_fence_in inner = true ->
           JSON_parse (trim (untagged inner)) = Some v ->
           extract JSON_parse (pre ++ fence ++ inner ++ fence ++ post) = v)
    /\ (forall pre body post v,
           fenced (pre ++ "{" ++ body ++ "}" ++ post) = false ->
           lacks "{" pre = true ->
           lacks "}" post = true ->
           (JSON_parse (trim (pre ++ "{" ++ body ++ "}" ++ post)) = None
            \/ JSON_parse (trim (pre ++ "{" ++ body ++ "}" ++ post)) = Some v) ->
           JSON_parse ("{" ++ body ++ "}") = Some v ->
           extract JSON_parse (pre ++ "{" ++ body ++ "}" ++ post) = v)
    /\ (forall text s o,
           block text s ->
           span text o ->
           (extract JSON_parse text = JNull
            <-> (JSON_parse (trim s) = None \/ JSON_parse (trim s) = Some JNull)
                /\ (JSON_parse (trim s) = None ->
                    forall braces, o = Some braces ->
                      JSON_parse braces = None \/ JSON_parse braces = Some JNull))).
Proof.
  intros JSON_parse.
  assert (forall text s o,
             block text s -> span text o ->
             extract JSON_parse text
             = match JSON_parse (trim s) with
               | Some v => v
               | None =>
                   match o with
                   | Some braces =>
                       match JSON_parse braces with
                       | Some v => v
                       | None => JNull
                       end
                   | None => JNull
                   end
               end) as Hsteps.
  { intros text s o Hb Hs. unfold extract.
    rewrite (block_matched text s Hb), (span_matched text o Hs). reflexivity. }
  split; [exact Hsteps|]. split; [|split; [|split]].
  - intros text. destruct (block_exists text) as [s Hs].
    destruct (span_exists text) as [o Ho]. exists s, o. split; assumption.
  - intros pre inner post v Hpre Hinner Hv. unfold extract.
    rewrite (match_fence_block pre inner post Hpre Hinner), trim_ltrim, Hv.
    reflexivity.
  - intros pre body post v Hf Hpre Hpost Hwhole Hv.
    rewrite (Hsteps _ _ _ (block_whole _ Hf) (span_braces pre body post Hpre Hpost)).
    destruct Hwhole as [-> | ->]; [rewrite Hv|]; reflexivity.
  - intros text s o Hb Hs. rewrite (Hsteps text s o Hb Hs).
    destruct (JSON_parse (trim s)) as [v|].
    + split.
      * intros ->. split; [right; reflexivity | discriminate].
      * intros [[H|H] _]; [discriminate | congruence].
    + split.
      * intros H. split; [left; reflexivity|].
        intros _ braces ->. destruct (JSON_parse braces) as [v|];
          [right; congruence | left; reflexivity].
      * intros [_ H]. destruct o as [braces|]; [|reflexivity].
        destruct (H eq_refl braces eq_refl) as [-> | ->]; reflexivity.
Qed.

(** The three sample responses, parsed by the reference parser. *)
Lemma C8_extraction_classes_witness :
  extract Reference.parse Sample.fenced_response = Sample.payload
  /\ extract Reference.parse Sample.bare_response = Sample.payload
  /\ extract Reference.parse Sample.prose_response = JNull.
Proof.
  destruct (C8_extraction_classes Reference.parse)
    as (_ & _ & Hfenced & Hbare & Hnull).
  split; [|split].
  - apply (Hfenced ("Here is the plan:" ++ newline)
             ("json" ++ newline ++ "{" ++ Sample.payload_body ++ "}" ++ newline)
             (newline ++ "Fill in {placeholders} as needed.") Sample.payload).
    + vm_compute. reflexivity.
    + vm_compute. reflexivity.
    + vm_compute. reflexivity.
  - apply (Hbare "The plan is " Sample.payload_body " as requested." Sample.payload).
    + vm_compute. reflexivity.
    + vm_compute. reflexivity.
    + vm_compute. reflexivity.
    + left. vm_compute. reflexivity.
    + vm_compute. reflexivity.
  - apply (Hnull Sample.prose_response Sample.prose_response None).
    + apply block_whole. vm_compute. reflexivity.
    + apply span_absent. vm_compute. reflexivity.
    + split.
      * left. vm_compute. reflexivity.
      * intros _ braces H. discriminate H.
Defined.

(** C8, as stated, fails: the response holds a valid payload inside a
    [json] fence, and the extraction yields [null].  The payload has three
    backticks in a string, where the lazy group of the first expression
    stops; the span of the second expression runs to the last closing
    brace of the response, which belongs to the prose after the fence. *)
Lemma C8_fenced_payload_lost :
  Reference.parse (Reference.stringify Sample.fence_in_payload)
  = Some Sample.fence_in_payload
  /\ match_fence Sample.fenced_response_with_fence
     = Some (String "{" (Reference.quoted "title" ++ ":"
                         ++ String Reference.dquote "Wrap the snippet in "))
  /\ extract Reference.parse Sample.fenced_response_with_fence = JNull.
Proof. vm_compute. repeat split. Qed.

End ExtractionTheorems.

(* ================================================================== *)
(** ** The session *)

Module SessionFacts.
Import Js Text Plan Session Observe.

Section Coordinator.
Variable rt : Runtime.
Variable cfg : Config.

Lemma filter_app_one {A : Type} (f : A -> bool) (l : list A) (x : A) :
  filter f (l ++ [x]) = (filter f l ++ if f x then [x] else [])%list.
Proof. rewrite filter_app. reflexivity. Qed.

Lemma closes_app (l l' : list effect) :
  closes (l ++ l') = (closes l + closes l')%nat.
Proof. unfold closes. now rewrite filter_app, length_app. Qed.

Lemma resolutions_app (l l' : list effect) :
  resolutions (l ++ l') = (resolutions l ++ resolutions l')%list.
Proof. unfold resolutions. now rewrite flat_map_app. Qed.

Lemma writes_app (l l' : list effect) :
  writes (l ++ l') = (writes l ++ writes l')%list.
Proof. unfold writes. now rewrite flat_map_app. Qed.

Lemma cleanup_log (w : world) :
  log (cleanup w) = (log w ++ if server w then [CloseServer] else [])%list.
Proof.
  unfold cleanup, close_handle, clear_idle.
  destruct (server w); [|now rewrite app_nil_r].
  destruct (timeoutId w); reflexivity.
Qed.

Lemma cleanup_fields (w : world) :
  calls (cleanup w) = calls w /\ resolved (cleanup w) = resolved w
  /\ settled (cleanup w) = settled w /\ launch (cleanup w) = launch w
  /\ server (cleanup w) = false /\ now (cleanup w) = now w
  /\ listening (cleanup w) = (if server w then false else listening w)
  /\ abort_armed (cleanup w) = abort_armed w.
Proof.
  unfold cleanup, close_handle, clear_idle.
  destruct (server w) eqn:E; [destruct (timeoutId w)|]; cbn; repeat split; auto.
Qed.

Lemma resolve_log (x : ToolResult) (w : world) :
  log (resolve x w) = (log w ++ [Resolve x])%list.
Proof. unfold resolve. cbn. destruct (settled w); reflexivity. Qed.

Lemma resolve_fields (x : ToolResult) (w : world) :
  calls (resolve x w) = calls w /\ resolved (resolve x w) = resolved w
  /\ launch (resolve x w) = launch w /\ server (resolve x w) = server w
  /\ listening (resolve x w) = listening w /\ now (resolve x w) = now w
  /\ timers (resolve x w) = timers w /\ timeoutId (resolve x w) = timeoutId w
  /\ lastActivity (resolve x w) = lastActivity w /\ next_id (resolve x w) = next_id w
  /\ abort_armed (resolve x w) = abort_armed w
  /\ settled (resolve x w) = match settled w with Some y => Some y | None => Some x end.
Proof.
  unfold resolve. cbn. destruct (settled w) eqn:E; cbn; rewrite ?E; repeat split; reflexivity.
Qed.

(** What a call of [finish] that passes the guard does, as a whole. *)
Lemma finish_unresolved_log (review : json) (w : world) :
  resolved w = false ->
  log (finish rt cfg review w)
  = (log w ++ (if server w then [CloseServer] else [])
     ++ verdict_at rt cfg (now w) review)%list.
Proof.
  intros R. unfold finish. cbn [resolved note_call]. rewrite R.
  pose proof (cleanup_log (with_resolved true (note_call review w))) as L1.
  pose proof (cleanup_fields (with_resolved true (note_call review w)))
    as (_ & _ & _ & _ & _ & N1 & _).
  cbn [log server now with_resolved note_call] in L1, N1.
  unfold verdict_at. destruct (is_rejection review).
  - destruct (rejection_reason review) as [reason|].
    + rewrite resolve_log, L1, <- app_assoc. reflexivity.
    + cbn [log emit]. rewrite L1, <- app_assoc. reflexivity.
  - cbn [now emit]. rewrite N1.
    destruct (planToMarkdown _ _ _ _) as [markdown|].
    + destruct (summary rt cfg review _) as [text|].
      * rewrite resolve_log. cbn [log emit]. rewrite L1.
        repeat (rewrite <- app_assoc; cbn [app]). reflexivity.
      * cbn [log emit]. rewrite L1.
        repeat (rewrite <- app_assoc; cbn [app]). reflexivity.
    + cbn [log emit]. rewrite L1.
      repeat (rewrite <- app_assoc; cbn [app]). reflexivity.
Qed.

(** A later call of [finish] changes nothing but the history of calls. *)
Lemma finish_resolved (review : json) (w : world) :
  resolved w = true -> finish rt cfg review w = note_call review w.
Proof. intros R. unfold finish. cbn [resolved note_call]. now rewrite R. Qed.

Lemma finish_unresolved_fields (review : json) (w : world) :
  resolved w = false ->
  calls (finish rt cfg review w) = (calls w ++ [(now w, review)])%list
  /\ resolved (finish rt cfg review w) = true
  /\ launch (finish rt cfg review w) = launch w
  /\ server (finish rt cfg review w) = false
  /\ listening (finish rt cfg review w) = (if server w then false else listening w)
  /\ abort_armed (finish rt cfg review w) = abort_armed w
  /\ now (finish rt cfg review w) = now w
  /\ settled (finish rt cfg review w)
     = match settled w with
       | Some y => Some y
       | None => hd_error (resolutions (verdict_at rt cfg (now w) review))
       end.
Proof.
  intros R. unfold finish, verdict_at. cbn [resolved note_call]. rewrite R.
  pose proof (cleanup_fields (with_resolved true (note_call review w)))
    as (C1 & C2 & C3 & C4 & C5 & C6 & C7 & C8).
  cbn [calls resolved settled launch server now listening abort_armed
       with_resolved note_call] in C1, C2, C3, C4, C5, C6, C7, C8.
  destruct (is_rejection review).
  - destruct (rejection_reason review) as [reason|].
    + pose proof (resolve_fields (rejected_result cfg review reason)
                    (cleanup (with_resolved true (note_call review w))))
        as (F1 & F2 & F3 & F4 & F5 & F6 & _ & _ & _ & _ & F7 & F8).
      rewrite F1, F2, F3, F4, F5, F6, F7, F8, C1, C2, C3, C4, C5, C6, C7, C8.
      repeat split; reflexivity.
    + cbn [calls resolved settled launch server now listening abort_armed emit].
      rewrite C1, C2, C3, C4, C5, C6, C7, C8.
      repeat split; try reflexivity. destruct (settled w); reflexivity.
  - cbn [now emit]. rewrite C6.
    destruct (planToMarkdown _ _ _ _) as [markdown|].
    + destruct (summary rt cfg review _) as [text|].
      * match goal with
        | |- context [resolve ?x ?u] =>
            pose proof (resolve_fields x u)
              as (F1 & F2 & F3 & F4 & F5 & F6 & _ & _ & _ & _ & F7 & F8)
        end.
        rewrite F1, F2, F3, F4, F5, F6, F7, F8.
        cbn [calls resolved settled launch server now listening abort_armed emit].
        rewrite C1, C2, C3, C4, C5, C6, C7, C8.
        repeat split; reflexivity.
      * cbn [calls resolved settled launch server now listening abort_armed emit].
        rewrite C1, C2, C3, C4, C5, C6, C7, C8.
        destruct (settled w); repeat split; reflexivity.
    + cbn [calls resolved settled launch server now listening abort_armed emit].
      rewrite C1, C2, C3, C4, C5, C6, C7, C8.
      destruct (settled w); repeat split; reflexivity.
Qed.

Lemma verdict_all_of_finish (t : Z) (review : json) :
  filter of_finish (verdict_at rt cfg t review) = verdict_at rt cfg t review.
Proof.
  unfold verdict_at.
  destruct (is_rejection review); [destruct (rejection_reason review); reflexivity|].
  destruct (planToMarkdown _ _ _ _); [|reflexivity].
  destruct (summary _ _ _ _); reflexivity.
Qed.

Lemma verdict_no_close (t : Z) (review : json) :
  closes (verdict_at rt cfg t review) = 0%nat.
Proof.
  unfold verdict_at.
  destruct (is_rejection review); [destruct (rejection_reason review); reflexivity|].
  destruct (planToMarkdown _ _ _ _); [|reflexivity].
  destruct (summary _ _ _ _); reflexivity.
Qed.

(** [finish] keeps the session coordinated, whenever it is called. *)
Lemma finish_coordinated (review : json) (w : world) :
  coordinated rt cfg w -> coordinated rt cfg (finish rt cfg review w).
Proof.
  intros (G & (K1 & K2 & K3 & K4) & S & (U1 & U2)).
  unfold guarded in G.
  destruct (resolved w) eqn:R.
  - rewrite (finish_resolved _ _ R).
    destruct (calls w) as [|[t r0] rest] eqn:C; [destruct G; discriminate|].
    split; [|split; [|split]].
    + unfold guarded. cbn [calls resolved log note_call]. rewrite C, R. exact G.
    + exact (conj K1 (conj K2 (conj K3 K4))).
    + exact S.
    + split; cbn [resolved note_call]; rewrite R; discriminate.
  - destruct (calls w) as [|[t r0] rest] eqn:C; [|destruct G; discriminate].
    destruct G as [_ G].
    pose proof (finish_unresolved_log review w R) as L.
    pose proof (finish_unresolved_fields review w R)
      as (F1 & F2 & F3 & F4 & F5 & F6 & F7 & F8).
    assert (closes (log (finish rt cfg review w))
            = (closes (log w) + if server w then 1 else 0)%nat) as HC.
    { rewrite L, !closes_app, verdict_no_close.
      destruct (server w); cbn; lia. }
    split; [|split; [|split]].
    + unfold guarded. rewrite F1, C. cbn [app]. split; [exact F2|].
      rewrite L, !filter_app, G, verdict_all_of_finish.
      destruct (server w); reflexivity.
    + split; [|split; [|split]].
      * rewrite F4, F5, K1. destruct (server w); reflexivity.
      * intros H. rewrite F4 in H. discriminate.
      * intros H. rewrite F4. rewrite F3 in H. rewrite HC.
        destruct (K3 H) as [-> ->]. split; reflexivity.
      * rewrite HC. destruct (server w) eqn:E; [|lia].
        destruct (K2 eq_refl) as [-> _]. lia.
    + unfold first_settles in *. rewrite F8, L, !resolutions_app.
      assert (resolutions (if server w then [CloseServer] else []) = []) as ->
        by (destruct (server w); reflexivity).
      cbn [app]. rewrite S.
      destruct (resolutions (log w)); reflexivity.
    + split; intros H; rewrite F2 in H; discriminate.
Qed.

Lemma same_refl (w : world) : same_coordinator w w.
Proof.
  repeat split. exists []. now rewrite app_nil_r.
Qed.

Lemma same_trans (w1 w2 w3 : world) :
  same_coordinator w1 w2 -> same_coordinator w2 w3 -> same_coordinator w1 w3.
Proof.
  intros (A1 & A2 & A3 & A4 & A5 & A6 & l & AL & AS)
         (B1 & B2 & B3 & B4 & B5 & B6 & m & BL & BS).
  repeat split; try congruence.
  exists (l ++ m)%list. split.
  - rewrite BL, AL, app_assoc. reflexivity.
  - rewrite forallb_app, AS, BS. reflexivity.
Qed.

Lemma same_silent (e : effect) (w : world) :
  silent e = true -> same_coordinator w (emit e w).
Proof.
  intros H. repeat split. exists [e]. split; [reflexivity|].
  cbn. now rewrite H.
Qed.

Lemma same_clock (f : Z -> Z) (w : world) : same_coordinator w (with_clock f w).
Proof. repeat split. exists []. cbn. now rewrite app_nil_r. Qed.

Lemma same_timers (f : list timer -> list timer) (n : nat) (w : world) :
  same_coordinator w (with_timers f n w).
Proof. repeat split. exists []. cbn. now rewrite app_nil_r. Qed.

Lemma same_idle (id : option nat) (t : Z) (w : world) :
  same_coordinator w (with_idle id t w).
Proof. repeat split. exists []. cbn. now rewrite app_nil_r. Qed.

Lemma same_clear_idle (w : world) : same_coordinator w (clear_idle w).
Proof.
  unfold clear_idle. destruct (timeoutId w); [apply same_timers | apply same_refl].
Qed.

Lemma same_setTimeout (cb : callback) (d : Z) (w : world) :
  same_coordinator w (setTimeout cb d w).
Proof. apply same_timers. Qed.

Lemma same_resetTimeout (w : world) : same_coordinator w (resetTimeout cfg w).
Proof.
  unfold resetTimeout.
  eapply same_trans; [|apply same_idle].
  eapply same_trans; [|apply same_setTimeout].
  eapply same_trans; [|apply same_clear_idle].
  apply same_idle.
Qed.

(** The request listener leaves the coordinator's state alone. *)
Lemma same_handle (r : request) (w : world) : same_coordinator w (handle rt cfg r w).
Proof.
  unfold handle.
  destruct (String.eqb (method r) "OPTIONS"); [now apply same_silent|].
  assert (same_coordinator w
            (if String.eqb (method r) "GET" then resetTimeout cfg w else w)) as H0
    by (destruct (String.eqb (method r) "GET");
        [apply same_resetTimeout | apply same_refl]).
  eapply same_trans; [exact H0|].
  repeat match goal with
         | |- same_coordinator _ (if ?b then _ else _) => destruct b
         | |- same_coordinator _ (match ?x with Some _ => _ | None => _ end) => destruct x
         end;
    try (now apply same_silent).
  - eapply same_trans; [apply same_resetTimeout | now apply same_silent].
  - eapply same_trans; [|apply same_setTimeout].
    eapply same_trans; [apply same_clear_idle | now apply same_silent].
  - eapply same_trans; [|apply same_setTimeout].
    eapply same_trans; [apply same_clear_idle | now apply same_silent].
Qed.

Lemma silent_quiet (l : list effect) :
  forallb silent l = true ->
  filter of_finish l = [] /\ closes l = 0%nat /\ resolutions l = [].
Proof.
  induction l as [|e l IH]; [repeat split|].
  cbn [forallb]. intros H. apply andb_prop in H as [He Hl].
  destruct (IH Hl) as (I1 & I2 & I3).
  destruct e; try discriminate He; cbn; auto.
Qed.

Lemma same_coordinated (w w' : world) :
  same_coordinator w w' -> coordinated rt cfg w -> coordinated rt cfg w'.
Proof.
  intros (A1 & A2 & A3 & A4 & A5 & A6 & l & AL & AS)
         (G & (K1 & K2 & K3 & K4) & S & (U1 & U2)).
  destruct (silent_quiet l AS) as (Q1 & Q2 & Q3).
  assert (filter of_finish (log w') = filter of_finish (log w)) as EF
    by (rewrite AL, filter_app, Q1, app_nil_r; reflexivity).
  assert (closes (log w') = closes (log w)) as EC
    by (rewrite AL, closes_app, Q2; lia).
  assert (resolutions (log w') = resolutions (log w)) as ER
    by (rewrite AL, resolutions_app, Q3, app_nil_r; reflexivity).
  split; [|split; [|split]].
  - unfold guarded in *. rewrite A1, A2, EF. exact G.
  - unfold closed_once. rewrite A4, A5, A6, EC. auto.
  - unfold first_settles in *. rewrite A3, ER. exact S.
  - unfold unsettled. rewrite A2, A4, A5, ER. auto.
Qed.

(** A failed start or launch: [cleanup], then the pending result. *)
Lemma failure_coordinated (message : string) (w : world) :
  coordinated rt cfg w ->
  coordinated rt cfg
    (resolve (pending_result cfg message) (cleanup (with_launch Settled w))).
Proof.
  intros (G & (K1 & K2 & K3 & K4) & S & (U1 & U2)).
  pose proof (cleanup_log (with_launch Settled w)) as L.
  pose proof (cleanup_fields (with_launch Settled w))
    as (C1 & C2 & C3 & C4 & C5 & C6 & C7 & C8).
  cbn [log calls resolved settled launch server now listening abort_armed with_launch]
    in L, C1, C2, C3, C4, C5, C6, C7, C8.
  pose proof (resolve_log (pending_result cfg message)
                (cleanup (with_launch Settled w))) as RL.
  pose proof (resolve_fields (pending_result cfg message)
                (cleanup (with_launch Settled w)))
    as (F1 & F2 & F3 & F4 & F5 & _ & _ & _ & _ & _ & _ & F8).
  rewrite L in RL. rewrite C1 in F1. rewrite C2 in F2. rewrite C4 in F3.
  rewrite C5 in F4. rewrite C7 in F5. rewrite C3 in F8.
  assert (filter of_finish (if server w then [CloseServer] else []) = []) as Q1
    by (destruct (server w); reflexivity).
  assert (resolutions (if server w then [CloseServer] else []) = []) as Q3
    by (destruct (server w); reflexivity).
  split; [|split; [|split]].
  - unfold guarded in *. rewrite F1, F2, RL, !filter_app, Q1, !app_nil_r. exact G.
  - unfold closed_once. rewrite F3, F4, F5, RL, !closes_app.
    split; [rewrite K1; destruct (server w); reflexivity|].
    split; [discriminate|].
    split; [discriminate|].
    destruct (server w) eqn:E; cbn; [destruct (K2 eq_refl) as [-> _]|]; lia.
  - unfold first_settles in *. rewrite F8, RL, !resolutions_app, Q3, app_nil_r, S.
    destruct (resolutions (log w)); reflexivity.
  - unfold unsettled. rewrite F3. split; intros _ H; [contradiction|discriminate].
Qed.

Lemma fire_coordinated (cb : callback) (w : world) :
  coordinated rt cfg w -> coordinated rt cfg (fire rt cfg cb w).
Proof. destruct cb; apply finish_coordinated. Qed.

Lemma run_timers_coordinated (fuel : nat) (target : Z) (w : world) :
  coordinated rt cfg w -> coordinated rt cfg (run_timers rt cfg fuel target w).
Proof.
  revert w. induction fuel as [|fuel IH]; intros w H; [exact H|].
  cbn [run_timers]. destruct (next_due target (timers w)) as [t|]; [|exact H].
  apply IH, fire_coordinated.
  eapply same_coordinated; [|exact H].
  eapply same_trans; [apply same_clock | apply same_timers].
Qed.

Lemma step_coordinated (e : event) (w : world) :
  coordinated rt cfg w -> coordinated rt cfg (step rt cfg e w).
Proof.
  intros H. destruct e as [|message|code stderr|r| |ms]; cbn [step].
  - destruct (launch w) eqn:E; try exact H.
    destruct H as (G & (K1 & K2 & K3 & K4) & S & (U1 & U2)).
    destruct (K3 E) as [Z0 Sv].
    split; [|split; [|split]].
    + unfold guarded in *.
      cbn [calls resolved log emit with_server with_listening with_launch].
      rewrite filter_app, app_nil_r. exact G.
    + unfold closed_once. cbn [listening server launch log emit with_server
                               with_listening with_launch].
      rewrite closes_app, Z0. cbn. repeat split; try lia; discriminate.
    + unfold first_settles in *. cbn [settled log emit with_server with_listening
                                     with_launch].
      rewrite resolutions_app, app_nil_r. exact S.
    + unfold unsettled. cbn [resolved launch server log emit with_server
                             with_listening with_launch].
      rewrite resolutions_app, app_nil_r. split; [|reflexivity].
      intros Hr _. apply U1; [exact Hr|]. rewrite E. discriminate.
  - destruct (launch w); try exact H. apply failure_coordinated, H.
  - destruct (launch w) eqn:E; try exact H.
    destruct (openUrl_error code stderr); [apply failure_coordinated, H|].
    destruct H as (G & (K1 & K2 & K3 & K4) & S & (U1 & U2)).
    split; [|split; [|split]]; try assumption.
    + unfold closed_once. cbn [listening server launch log with_launch].
      repeat split; try assumption; try discriminate.
      apply K2. assumption.
    + unfold unsettled. cbn [resolved launch server log with_launch].
      split; intros _ Hl; [contradiction|discriminate].
  - destruct (listening w); [|exact H].
    eapply same_coordinated; [apply same_handle | exact H].
  - destruct (abort_armed w); [|exact H]. apply finish_coordinated. exact H.
  - unfold elapse. eapply same_coordinated; [apply same_clock|].
    apply run_timers_coordinated, H.
Qed.

Lemma start_coordinated (t0 : Z) : coordinated rt cfg (start cfg t0).
Proof.
  eapply same_coordinated; [apply same_resetTimeout|].
  repeat split; cbn; auto; discriminate.
Qed.

Lemma run_coordinated (events : list event) (w : world) :
  coordinated rt cfg w -> coordinated rt cfg (run rt cfg events w).
Proof.
  revert w. induction events as [|e events IH]; intros w H; [exact H|].
  cbn [run fold_left]. apply IH, step_coordinated, H.
Qed.

End Coordinator.
End SessionFacts.

Module TimerFacts.
Import Js Text Plan Session Observe SessionFacts.

Section Timers.
Variable rt : Runtime.
Variable cfg : Config.

Lemma timed_ext (w w' : world) :
  timer_state w' = timer_state w -> timed cfg w -> timed cfg w'.
Proof.
  unfold timer_state, timed. intros [= -> -> -> -> ->]. auto.
Qed.

(** Clearing timers keeps the identifiers distinct. *)
Lemma distinct_ids_filter (keep : timer -> bool) (ts : list timer) :
  NoDup (map timer_id ts) -> NoDup (map timer_id (filter keep ts)).
Proof.
  intros D. induction ts as [|t ts IH]; [exact D|].
  cbn [map] in D. inversion D as [|? ? Hfresh Hrest]; subst.
  cbn [filter]. destruct (keep t); [|exact (IH Hrest)].
  cbn [map]. constructor; [|exact (IH Hrest)].
  intros Hin. apply Hfresh. apply in_map_iff in Hin as (u & Hid & Hu).
  apply filter_In in Hu as [Hu _]. rewrite <- Hid. now apply in_map.
Qed.

Lemma timed_clock (f : Z -> Z) (w : world) :
  now w <= f (now w) -> timed cfg w -> timed cfg (with_clock f w).
Proof.
  intros Hf (T1 & T2 & T3 & T4 & T5).
  repeat split; cbn [lastActivity now timers next_id timeoutId with_clock]; auto. lia.
Qed.

Lemma timed_clearTimeout (id : nat) (w : world) :
  timed cfg w -> timed cfg (clearTimeout id w).
Proof.
  intros (T1 & T2 & T3 & T4 & T5). unfold clearTimeout.
  repeat split; cbn [lastActivity now timers next_id timeoutId with_timers].
  - exact T1.
  - intros t Ht. apply filter_In in Ht as [Ht _]. specialize (T2 t Ht). lia.
  - intros i Hi. specialize (T3 i Hi). lia.
  - apply distinct_ids_filter, T4.
  - intros t Ht. apply filter_In in Ht as [Ht _]. auto.
Qed.

Lemma timed_clear_idle (w : world) : timed cfg w -> timed cfg (clear_idle w).
Proof.
  unfold clear_idle. destruct (timeoutId w); [apply timed_clearTimeout | auto].
Qed.

Lemma fresh_not_in (w : world) :
  (forall t, In t (timers w) -> (timer_id t < next_id w)%nat) ->
  ~ In (next_id w) (map timer_id (timers w)).
Proof.
  intros T2 Hin. apply in_map_iff in Hin as (t & Ht & Hin).
  specialize (T2 t Hin). lia.
Qed.

Lemma timed_setTimeout (cb : callback) (d : Z) (w : world) :
  timed cfg w -> timed cfg (setTimeout cb d w).
Proof.
  intros (T1 & T2 & T3 & T4 & T5). unfold setTimeout.
  repeat split; cbn [lastActivity now timers next_id timeoutId with_timers].
  - exact T1.
  - intros t Ht. apply in_app_or in Ht as [Ht|[<-|[]]].
    + specialize (T2 t Ht). lia.
    + cbn. lia.
  - intros i Hi. specialize (T3 i Hi). lia.
  - rewrite map_app. cbn [map timer_id].
    apply NoDup_app; [exact T4 | repeat constructor; auto |].
    intros i Hi [<-|[]]. exact (fresh_not_in w T2 Hi).
  - intros t Ht Hid. apply in_app_or in Ht as [Ht|[<-|[]]]; [auto|].
    cbn [timer_id] in Hid. specialize (T3 _ Hid). lia.
Qed.

Lemma clear_idle_state (w : world) :
  now (clear_idle w) = now w /\ next_id (clear_idle w) = next_id w
  /\ timeoutId (clear_idle w) = timeoutId w
  /\ lastActivity (clear_idle w) = lastActivity w
  /\ log (clear_idle w) = log w
  /\ timers (clear_idle w)
     = match timeoutId w with
       | Some id => filter (fun t => negb (Nat.eqb (timer_id t) id)) (timers w)
       | None => timers w
       end.
Proof.
  unfold clear_idle. destruct (timeoutId w) eqn:E; cbn; rewrite ?E; repeat split; reflexivity.
Qed.

(** What [resetTimeout] leaves: the previous idle timer is gone, a new
    one is due one idle delay from now. *)
Lemma resetTimeout_state (w : world) :
  now (resetTimeout cfg w) = now w
  /\ next_id (resetTimeout cfg w) = S (next_id w)
  /\ timeoutId (resetTimeout cfg w) = Some (next_id w)
  /\ lastActivity (resetTimeout cfg w) = now w
  /\ log (resetTimeout cfg w) = log w
  /\ timers (resetTimeout cfg w)
     = (match timeoutId w with
        | Some id => filter (fun t => negb (Nat.eqb (timer_id t) id)) (timers w)
        | None => timers w
        end
        ++ [{| timer_id := next_id w; due := now w + idle_after cfg;
               action := IdleExpired |}])%list.
Proof.
  unfold resetTimeout, setTimeout, clear_idle, idle_after.
  cbn [timeoutId with_idle].
  destruct (timeoutId w); cbn; repeat split; reflexivity.
Qed.

Lemma timed_resetTimeout (w : world) : timed cfg w -> timed cfg (resetTimeout cfg w).
Proof.
  intros (T1 & T2 & T3 & T4 & T5).
  destruct (resetTimeout_state w) as (R1 & R2 & R3 & R4 & _ & R6).
  unfold timed. rewrite R1, R2, R3, R4, R6.
  set (kept := match timeoutId w with
               | Some id => filter (fun t => negb (Nat.eqb (timer_id t) id)) (timers w)
               | None => timers w
               end).
  assert (forall t, In t kept -> In t (timers w)) as Hkept.
  { subst kept. destruct (timeoutId w); [|auto].
    intros t Ht. apply filter_In in Ht. tauto. }
  assert (NoDup (map timer_id kept)) as Hnodup.
  { subst kept. destruct (timeoutId w); [apply distinct_ids_filter|]; exact T4. }
  repeat split.
  - lia.
  - intros t Ht. apply in_app_or in Ht as [Ht|[<-|[]]].
    + specialize (T2 t (Hkept t Ht)). lia.
    + cbn. lia.
  - intros i [= <-]. lia.
  - rewrite map_app. cbn [map timer_id].
    apply NoDup_app; [exact Hnodup | repeat constructor; auto |].
    intros i Hi [<-|[]]. apply in_map_iff in Hi as (t & Ht & Hin).
    specialize (T2 t (Hkept t Hin)). lia.
  - intros t Ht [= Hid]. apply in_app_or in Ht as [Ht|[<-|[]]]; [|reflexivity].
    specialize (T2 t (Hkept t Ht)). lia.
Qed.

(** The instant the idle timer is due at after [resetTimeout]. *)
Lemma resetTimeout_deadline (w : world) :
  timed cfg w ->
  idle_deadline (resetTimeout cfg w) = Some (now w + idle_after cfg).
Proof.
  intros (T1 & T2 & T3 & T4 & T5).
  destruct (resetTimeout_state w) as (_ & _ & R3 & _ & _ & R6).
  unfold idle_deadline. rewrite R3, R6.
  set (kept := match timeoutId w with
               | Some id => filter (fun t => negb (Nat.eqb (timer_id t) id)) (timers w)
               | None => timers w
               end).
  assert (forall t, In t kept -> In t (timers w)) as Hkept.
  { subst kept. destruct (timeoutId w); [|auto].
    intros t Ht. apply filter_In in Ht. tauto. }
  assert (find (fun t => Nat.eqb (timer_id t) (next_id w)) kept = None) as Hnone.
  { destruct (find _ kept) as [t|] eqn:F; [|reflexivity].
    apply find_some in F as [Hin Heq]. apply Nat.eqb_eq in Heq.
    specialize (T2 t (Hkept t Hin)). lia. }
  clearbody kept. induction kept as [|t kept IH]; cbn.
  - now rewrite Nat.eqb_refl.
  - cbn in Hnone. destruct (Nat.eqb (timer_id t) (next_id w)); [discriminate|].
    apply IH; [intros; apply Hkept; now right | exact Hnone].
Qed.

Lemma deadline_bound (w : world) (d : Z) :
  timed cfg w -> idle_deadline w = Some d -> d <= now w + idle_after cfg.
Proof.
  intros (T1 & T2 & T3 & T4 & T5). unfold idle_deadline.
  destruct (timeoutId w) as [id|] eqn:E; [|discriminate].
  destruct (find _ (timers w)) as [t|] eqn:F; [|discriminate].
  intros [= <-]. apply find_some in F as [Hin Heq]. apply Nat.eqb_eq in Heq.
  rewrite (T5 t Hin) by (now rewrite Heq). lia.
Qed.

Lemma resolve_timer_state (x : ToolResult) (w : world) :
  timer_state (resolve x w) = timer_state w.
Proof. unfold resolve. cbn. destruct (settled w); reflexivity. Qed.

Lemma cleanup_timer_state (w : world) :
  timer_state (cleanup w) = timer_state w
  \/ timer_state (cleanup w) = timer_state (clear_idle w).
Proof.
  unfold cleanup, close_handle. destruct (server w); [right|left]; reflexivity.
Qed.

(** [finish] touches the timers through [cleanup] only. *)
Lemma finish_timer_state (review : json) (w : world) :
  timer_state (finish rt cfg review w) = timer_state w
  \/ timer_state (finish rt cfg review w) = timer_state (clear_idle w).
Proof.
  unfold finish. cbn [resolved note_call].
  destruct (resolved w); [left; reflexivity|].
  set (u := with_resolved true (note_call review w)).
  assert (timer_state (cleanup u) = timer_state w
          \/ timer_state (cleanup u) = timer_state (clear_idle w)) as H
    by (destruct (cleanup_timer_state u) as [H|H];
        [left; exact H
        |right; rewrite H; subst u; unfold clear_idle;
         cbn [timeoutId with_resolved note_call];
         destruct (timeoutId w); reflexivity]).
  destruct (is_rejection review);
    [destruct (rejection_reason review); [rewrite resolve_timer_state|]; exact H|].
  destruct (planToMarkdown _ _ _ _); [|exact H].
  destruct (summary _ _ _ _); [rewrite resolve_timer_state|]; exact H.
Qed.

Lemma timed_finish (review : json) (w : world) :
  timed cfg w -> timed cfg (finish rt cfg review w).
Proof.
  intros T. destruct (finish_timer_state review w) as [H|H].
  - exact (timed_ext _ _ H T).
  - exact (timed_ext _ _ H (timed_clear_idle _ T)).
Qed.

Lemma timed_emit (e : effect) (w : world) : timed cfg w -> timed cfg (emit e w).
Proof. apply timed_ext. reflexivity. Qed.

Lemma timed_handle (r : request) (w : world) :
  timed cfg w -> timed cfg (handle rt cfg r w).
Proof.
  intros T. unfold handle.
  destruct (String.eqb (method r) "OPTIONS"); [now apply timed_emit|].
  assert (timed cfg (if String.eqb (method r) "GET" then resetTimeout cfg w else w)) as T0
    by (destruct (String.eqb (method r) "GET"); [apply timed_resetTimeout|]; exact T).
  repeat match goal with
         | |- timed _ (if ?b then _ else _) => destruct b
         | |- timed _ (match ?x with Some _ => _ | None => _ end) => destruct x
         end;
    repeat first [ apply timed_emit | apply timed_setTimeout | apply timed_resetTimeout
                 | apply timed_clear_idle ];
    exact T0.
Qed.

Lemma timed_run_timers (fuel : nat) (target : Z) (w : world) :
  timed cfg w -> timed cfg (run_timers rt cfg fuel target w).
Proof.
  revert w. induction fuel as [|fuel IH]; intros w T; [exact T|].
  cbn [run_timers]. destruct (next_due target (timers w)) as [t|]; [|exact T].
  apply IH. destruct (action t); apply timed_finish, timed_clearTimeout, timed_clock;
    try exact T; cbn; lia.
Qed.

Lemma next_due_in (target : Z) (ts : list timer) (t : timer) :
  next_due target ts = Some t -> In t ts /\ due t <= target.
Proof.
  revert t. induction ts as [|x l IH]; intros t N; [discriminate|].
  cbn [next_due] in N. destruct (next_due target l) as [u|].
  - destruct ((due x <=? due u) && (due x <=? target)) eqn:E.
    + injection N as <-. apply andb_prop in E as [_ E]. split; [now left | lia].
    + injection N as <-. destruct (IH u eq_refl). split; [now right | assumption].
  - destruct (due x <=? target) eqn:E; [|discriminate].
    injection N as <-. split; [now left | lia].
Qed.

Lemma next_due_some (target : Z) (ts : list timer) (g : timer) :
  In g ts -> due g <= target -> exists u, next_due target ts = Some u.
Proof.
  induction ts as [|x l IH]; intros Hin Hd; [contradiction|].
  cbn [next_due]. destruct (next_due target l) as [u|] eqn:N.
  - destruct ((due x <=? due u) && (due x <=? target)); eexists; reflexivity.
  - destruct Hin as [->|Hin]; [|destruct (IH Hin Hd); discriminate].
    destruct (due g <=? target) eqn:E; [eexists; reflexivity | lia].
Qed.

Lemma finish_now (review : json) (w : world) :
  now (finish rt cfg review w) = now w.
Proof.
  destruct (finish_timer_state review w) as [H|H];
    unfold timer_state in H; injection H as H _ _ _ _; rewrite H; [reflexivity|].
  apply clear_idle_state.
Qed.

Lemma fire_now (cb : callback) (w : world) : now (fire rt cfg cb w) = now w.
Proof. destruct cb; apply finish_now. Qed.

(** While timers run the clock moves forward, and not past the target. *)
Lemma run_timers_clock (fuel : nat) (target : Z) (w : world) :
  now w <= target ->
  now w <= now (run_timers rt cfg fuel target w) <= target.
Proof.
  revert w. induction fuel as [|fuel IH]; intros w H; cbn [run_timers]; [lia|].
  destruct (next_due target (timers w)) as [t|] eqn:N; [|lia].
  destruct (next_due_in _ _ _ N) as [_ Hdue].
  match goal with |- _ <= now (run_timers rt cfg fuel target ?u) <= _ =>
    assert (now u = Z.max (now w) (due t)) as E by (rewrite fire_now; reflexivity);
    specialize (IH u)
  end.
  rewrite E in IH. lia.
Qed.

Lemma timed_step (e : event) (w : world) :
  timed cfg w -> timed cfg (step rt cfg e w).
Proof.
  intros T. destruct e as [|message|code stderr|r| |ms]; cbn [step].
  - destruct (launch w); exact T.
  - destruct (launch w); try exact T.
    eapply timed_ext; [apply resolve_timer_state|].
    destruct (cleanup_timer_state (with_launch Settled w)) as [H|H].
    + exact (timed_ext _ _ H T).
    + eapply timed_ext; [exact H|]. apply (timed_clear_idle (with_launch Settled w)), T.
  - destruct (launch w); try exact T.
    destruct (openUrl_error code stderr); [|exact T].
    eapply timed_ext; [apply resolve_timer_state|].
    destruct (cleanup_timer_state (with_launch Settled w)) as [H|H].
    + exact (timed_ext _ _ H T).
    + eapply timed_ext; [exact H|]. apply (timed_clear_idle (with_launch Settled w)), T.
  - destruct (listening w); [apply timed_handle|]; exact T.
  - destruct (abort_armed w); [apply timed_finish|]; exact T.
  - unfold elapse. apply timed_clock.
    + apply run_timers_clock. lia.
    + apply timed_run_timers, T.
Qed.

Lemma timed_start (t0 : Z) : timed cfg (start cfg t0).
Proof.
  apply timed_resetTimeout. repeat split; cbn; try lia; try contradiction;
    try discriminate. constructor.
Qed.

Lemma timed_run (events : list event) (w : world) :
  timed cfg w -> timed cfg (run rt cfg events w).
Proof.
  revert w. induction events as [|e events IH]; intros w T; [exact T|].
  cbn [run fold_left]. apply IH, timed_step, T.
Qed.

Lemma fire_as_finish (cb : callback) (w : world) :
  fire rt cfg cb w = finish rt cfg (payload_of cb) w.
Proof. destruct cb; reflexivity. Qed.

(** *** The idle timer is alone *)

Lemma lone_same (w w' : world) :
  timers w' = timers w -> timeoutId w' = timeoutId w ->
  lone_idle w -> lone_idle w'.
Proof. unfold lone_idle. intros -> ->. auto. Qed.

Lemma lone_ext (w w' : world) :
  timer_state w' = timer_state w -> lone_idle w -> lone_idle w'.
Proof.
  unfold timer_state. intros [= _ _ Ht Hi _]. now apply lone_same.
Qed.

Lemma lone_clearTimeout (id : nat) (w : world) :
  lone_idle w -> lone_idle (clearTimeout id w).
Proof.
  intros L t Ht. apply filter_In in Ht as [Ht _]. exact (L t Ht).
Qed.

Lemma lone_clear_idle (w : world) : lone_idle w -> lone_idle (clear_idle w).
Proof.
  unfold clear_idle. destruct (timeoutId w); [apply lone_clearTimeout | auto].
Qed.

Lemma lone_setTimeout (cb : callback) (d : Z) (w : world) :
  cb <> IdleExpired -> lone_idle w -> lone_idle (setTimeout cb d w).
Proof.
  intros Hcb L t Ht Hidle. cbn [timers timeoutId setTimeout with_timers] in *.
  apply in_app_or in Ht as [Ht|[<-|[]]]; [exact (L t Ht Hidle)|].
  unfold is_idle in Hidle. cbn [action] in Hidle. destruct cb; congruence.
Qed.

Lemma no_idle_kept (ts : list timer) (current : option nat) :
  (forall t, In t ts -> is_idle t = true -> current = Some (timer_id t)) ->
  filter is_idle
    match current with
    | Some id => filter (fun t => negb (Nat.eqb (timer_id t) id)) ts
    | None => ts
    end = [].
Proof.
  intros L. destruct current as [id|].
  - induction ts as [|t ts IH]; [reflexivity|].
    cbn [filter]. destruct (negb (Nat.eqb (timer_id t) id)) eqn:N.
    + cbn [filter]. destruct (is_idle t) eqn:I.
      * specialize (L t (or_introl eq_refl) I). injection L as ->.
        rewrite Nat.eqb_refl in N. discriminate.
      * apply IH. intros u Hu. apply L. now right.
    + apply IH. intros u Hu. apply L. now right.
  - induction ts as [|t ts IH]; [reflexivity|].
    cbn [filter]. destruct (is_idle t) eqn:I.
    + specialize (L t (or_introl eq_refl) I). discriminate.
    + apply IH. intros u Hu. apply L. now right.
Qed.

(** After [resetTimeout] the new idle timer is the only one pending. *)
Lemma resetTimeout_idle_timers (w : world) :
  lone_idle w ->
  idle_timers (resetTimeout cfg w)
  = [{| timer_id := next_id w; due := now w + idle_after cfg;
        action := IdleExpired |}].
Proof.
  intros L. destruct (resetTimeout_state w) as (_ & _ & _ & _ & _ & R6).
  unfold idle_timers. rewrite R6, filter_app.
  rewrite (no_idle_kept (timers w) (timeoutId w) L). reflexivity.
Qed.

Lemma lone_resetTimeout (w : world) : lone_idle w -> lone_idle (resetTimeout cfg w).
Proof.
  intros L t Ht Hidle.
  assert (In t (idle_timers (resetTimeout cfg w))) as Hin
    by (apply filter_In; split; assumption).
  rewrite (resetTimeout_idle_timers w L) in Hin. destruct Hin as [<-|[]].
  apply resetTimeout_state.
Qed.

Lemma lone_finish (review : json) (w : world) :
  lone_idle w -> lone_idle (finish rt cfg review w).
Proof.
  intros L. destruct (finish_timer_state review w) as [H|H].
  - exact (lone_ext _ _ H L).
  - exact (lone_ext _ _ H (lone_clear_idle _ L)).
Qed.

Lemma lone_emit (e : effect) (w : world) : lone_idle w -> lone_idle (emit e w).
Proof. apply lone_ext. reflexivity. Qed.

Lemma lone_handle (r : request) (w : world) :
  lone_idle w -> lone_idle (handle rt cfg r w).
Proof.
  intros L. unfold handle.
  destruct (String.eqb (method r) "OPTIONS"); [now apply lone_emit|].
  assert (lone_idle (if String.eqb (method r) "GET" then resetTimeout cfg w else w))
    as L0
    by (destruct (String.eqb (method r) "GET"); [apply lone_resetTimeout|]; exact L).
  repeat match goal with
         | |- lone_idle (if ?b then _ else _) => destruct b
         | |- lone_idle (match ?x with Some _ => _ | None => _ end) => destruct x
         end;
    repeat first [ apply lone_emit
                 | apply lone_setTimeout; [discriminate|]
                 | apply lone_resetTimeout
                 | apply lone_clear_idle ];
    exact L0.
Qed.

Lemma lone_run_timers (fuel : nat) (target : Z) (w : world) :
  lone_idle w -> lone_idle (run_timers rt cfg fuel target w).
Proof.
  revert w. induction fuel as [|fuel IH]; intros w L; [exact L|].
  cbn [run_timers]. destruct (next_due target (timers w)) as [t|]; [|exact L].
  apply IH. destruct (action t); apply lone_finish, lone_clearTimeout;
    exact (lone_same w _ eq_refl eq_refl L).
Qed.

Lemma lone_step (e : event) (w : world) :
  lone_idle w -> lone_idle (step rt cfg e w).
Proof.
  intros L. destruct e as [|message|code stderr|r| |ms]; cbn [step].
  - destruct (launch w); exact L.
  - destruct (launch w); try exact L.
    eapply lone_ext; [apply resolve_timer_state|].
    destruct (cleanup_timer_state (with_launch Settled w)) as [H|H].
    + exact (lone_ext _ _ H L).
    + eapply lone_ext; [exact H|]. apply (lone_clear_idle (with_launch Settled w)), L.
  - destruct (launch w); try exact L.
    destruct (openUrl_error code stderr); [|exact L].
    eapply lone_ext; [apply resolve_timer_state|].
    destruct (cleanup_timer_state (with_launch Settled w)) as [H|H].
    + exact (lone_ext _ _ H L).
    + eapply lone_ext; [exact H|]. apply (lone_clear_idle (with_launch Settled w)), L.
  - destruct (listening w); [apply lone_handle|]; exact L.
  - destruct (abort_armed w); [apply lone_finish|]; exact L.
  - unfold elapse.
    match goal with
    | |- lone_idle (with_clock ?f ?u) =>
        apply (lone_same u (with_clock f u) eq_refl eq_refl), lone_run_timers, L
    end.
Qed.

Lemma lone_start (t0 : Z) : lone_idle (start cfg t0).
Proof. apply lone_resetTimeout. intros t []. Qed.

Lemma lone_run (events : list event) (w : world) :
  lone_idle w -> lone_idle (run rt cfg events w).
Proof.
  revert w. induction events as [|e events IH]; intros w L; [exact L|].
  cbn [run fold_left]. apply IH, lone_step, L.
Qed.

Lemma finish_calls (review : json) (w : world) :
  calls (finish rt cfg review w) = (calls w ++ [(now w, review)])%list.
Proof.
  destruct (resolved w) eqn:R.
  - now rewrite finish_resolved.
  - apply finish_unresolved_fields, R.
Qed.

Lemma finish_state (review : json) (w : world) :
  now (finish rt cfg review w) = now w
  /\ timeoutId (finish rt cfg review w) = timeoutId w
  /\ (forall g, In g (timers w) -> timeoutId w <> Some (timer_id g) ->
      In g (timers (finish rt cfg review w)))
  /\ (List.length (timers (finish rt cfg review w)) <= List.length (timers w))%nat.
Proof.
  destruct (clear_idle_state w) as (C1 & _ & C3 & _ & _ & C6).
  destruct (finish_timer_state review w) as [H|H];
    unfold timer_state in H; injection H as H1 _ H3 H4 _;
    rewrite H1, H3, H4; repeat split; auto.
  - rewrite C6. intros g Hin Hid. destruct (timeoutId w) as [id|]; [|exact Hin].
    apply filter_In. split; [exact Hin|].
    apply negb_true_iff, Nat.eqb_neq. congruence.
  - rewrite C6. destruct (timeoutId w); [apply filter_length_le | lia].
Qed.

Lemma run_timers_calls (fuel : nat) (target : Z) (w : world) :
  exists later, calls (run_timers rt cfg fuel target w) = (calls w ++ later)%list.
Proof.
  revert w. induction fuel as [|fuel IH]; intros w; cbn [run_timers].
  - exists []. now rewrite app_nil_r.
  - destruct (next_due target (timers w)) as [t|].
    + match goal with |- context [run_timers rt cfg fuel target ?u] =>
        destruct (IH u) as [later ->] end.
      rewrite fire_as_finish, finish_calls. cbn [calls clearTimeout with_timers with_clock].
      rewrite <- app_assoc. eexists. reflexivity.
    + exists []. now rewrite app_nil_r.
Qed.

Lemma same_id_same_timer (w : world) (u g : timer) :
  timed cfg w -> In u (timers w) -> In g (timers w) ->
  timer_id u = timer_id g -> u = g.
Proof.
  intros (_ & _ & _ & T4 & _). revert T4.
  induction (timers w) as [|x l IH]; intros T4 Hu Hg Hid; [contradiction|].
  cbn [map] in T4. inversion T4 as [|? ? Hx Hl]; subst.
  destruct Hu as [->|Hu], Hg as [->|Hg]; auto.
  - exfalso. apply Hx. rewrite Hid. now apply in_map.
  - exfalso. apply Hx. rewrite <- Hid. now apply in_map.
Qed.

Lemma filter_drops (p : timer -> bool) (l : list timer) (u : timer) :
  In u l -> p u = false -> (List.length (filter p l) < List.length l)%nat.
Proof.
  induction l as [|x l IH]; [contradiction|].
  intros [->|Hin] Hp; cbn [filter].
  - rewrite Hp. pose proof (filter_length_le p l). cbn. lia.
  - specialize (IH Hin Hp). destruct (p x); cbn; lia.
Qed.

(** A pending timer that is not the idle timer stays pending as long as
    the clock stays before its instant. *)
Lemma pending_stays (fuel : nat) (target : Z) (w : world) (g : timer) :
  timed cfg w -> In g (timers w) -> timeoutId w <> Some (timer_id g) ->
  target < due g ->
  In g (timers (run_timers rt cfg fuel target w)).
Proof.
  revert w. induction fuel as [|fuel IH]; intros w T Hin Hid Hlate; [exact Hin|].
  cbn [run_timers]. destruct (next_due target (timers w)) as [u|] eqn:N; [|exact Hin].
  destruct (next_due_in _ _ _ N) as [Hu Hdue].
  set (w1 := clearTimeout (timer_id u) (with_clock (fun t0 => Z.max t0 (due u)) w)).
  assert (timed cfg w1) as T1
    by (apply timed_clearTimeout, timed_clock; [cbn; lia | exact T]).
  assert (In g (timers w1)) as Hin1.
  { subst w1. cbn [timers clearTimeout with_timers with_clock].
    apply filter_In. split; [exact Hin|].
    apply negb_true_iff, Nat.eqb_neq. intros E.
    rewrite (same_id_same_timer w g u T Hin Hu E) in Hlate. lia. }
  rewrite fire_as_finish.
  destruct (finish_state (payload_of (action u)) w1) as (_ & F2 & F3 & _).
  apply IH.
  - apply timed_finish, T1.
  - apply F3; [exact Hin1 | exact Hid].
  - rewrite F2. exact Hid.
  - exact Hlate.
Qed.

(** A pending timer that is not the idle timer runs once the clock
    reaches its instant: its payload is passed to [finish], not earlier
    than that instant. *)
Lemma due_fires (fuel : nat) (target : Z) (w : world) (g : timer) :
  timed cfg w -> In g (timers w) -> timeoutId w <> Some (timer_id g) ->
  due g <= target -> (List.length (timers w) <= fuel)%nat ->
  exists at_, due g <= at_
              /\ In (at_, payload_of (action g))
                    (calls (run_timers rt cfg fuel target w)).
Proof.
  revert w. induction fuel as [|fuel IH]; intros w T Hin Hid Hdue Hfuel.
  - destruct (timers w); [contradiction | cbn in Hfuel; lia].
  - cbn [run_timers]. destruct (next_due_some target (timers w) g Hin Hdue) as [u N].
    rewrite N. destruct (next_due_in _ _ _ N) as [Hu Hudue].
    set (w1 := clearTimeout (timer_id u) (with_clock (fun t0 => Z.max t0 (due u)) w)).
    assert (timed cfg w1) as T1
      by (apply timed_clearTimeout, timed_clock; [cbn; lia | exact T]).
    rewrite fire_as_finish.
    destruct (Nat.eq_dec (timer_id u) (timer_id g)) as [E|E].
    + pose proof (same_id_same_timer w u g T Hu Hin E) as Eug. subst u.
      destruct (run_timers_calls fuel target (finish rt cfg (payload_of (action g)) w1))
        as [later ->].
      rewrite finish_calls. exists (now w1). split.
      * subst w1. cbn. lia.
      * apply in_or_app. left. apply in_or_app. right. now left.
    + destruct (finish_state (payload_of (action u)) w1) as (_ & F2 & F3 & F4).
      assert (In g (timers w1)) as Hin1.
      { subst w1. cbn [timers clearTimeout with_timers with_clock].
        apply filter_In. split; [exact Hin|].
        apply negb_true_iff, Nat.eqb_neq. congruence. }
      apply IH.
      * apply timed_finish, T1.
      * apply F3; [exact Hin1 | exact Hid].
      * rewrite F2. exact Hid.
      * exact Hdue.
      * assert (List.length (timers w1) < List.length (timers w))%nat; [|lia].
        subst w1. cbn [timers clearTimeout with_timers with_clock].
        apply (filter_drops _ _ u Hu). now rewrite Nat.eqb_refl.
Qed.

(** The fuel of [elapse] is enough: when it returns, no pending timer is
    due by the target. *)
Lemma run_timers_exhausts (fuel : nat) (target : Z) (w : world) :
  (List.length (timers w) <= fuel)%nat ->
  next_due target (timers (run_timers rt cfg fuel target w)) = None.
Proof.
  revert w. induction fuel as [|fuel IH]; intros w Hfuel.
  - cbn [run_timers]. destruct (timers w); [reflexivity | cbn in Hfuel; lia].
  - cbn [run_timers]. destruct (next_due target (timers w)) as [u|] eqn:N; [|exact N].
    destruct (next_due_in _ _ _ N) as [Hu _].
    apply IH. rewrite fire_as_finish.
    match goal with |- (List.length (timers (finish rt cfg ?p ?w1)) <= _)%nat =>
      destruct (finish_state p w1) as (_ & _ & _ & F4);
      assert (List.length (timers w1) < List.length (timers w))%nat; [|lia]
    end.
    cbn [timers clearTimeout with_timers with_clock].
    apply (filter_drops _ _ u Hu). now rewrite Nat.eqb_refl.
Qed.

Lemma elapse_exhausts (ms : Z) (w : world) :
  next_due (now (elapse rt cfg ms w)) (timers (elapse rt cfg ms w)) = None.
Proof.
  unfold elapse. cbn [now timers with_clock]. apply run_timers_exhausts. lia.
Qed.

End Timers.
End TimerFacts.

Module ServerTheorems.
Import Js Text Plan Session Observe SessionFacts TimerFacts.

Lemma idle_after_plain (cfg : Config) :
  1 <= timeout cfg <= 2147483 -> idle_after cfg = timeout cfg * 1000.
Proof.
  intros H. unfold idle_after, TIMEOUT_MAX.
  destruct (1 <=? timeout cfg * 1000) eqn:A; [|lia].
  destruct (timeout cfg * 1000 <=? 2147483647) eqn:B; [reflexivity | lia].
Qed.

Lemma handle_get (rt : Runtime) (cfg : Config) (r : request) (w : world) :
  method r = "GET" ->
  (exists x, handle rt cfg r w = emit (Respond x) (resetTimeout cfg w))
  \/ (pathname r = "/heartbeat"
      /\ handle rt cfg r w
         = emit (Respond (Heartbeat
                            (remaining_seconds cfg (resetTimeout cfg (resetTimeout cfg w)))))
                (resetTimeout cfg (resetTimeout cfg w))).
Proof.
  intros M. unfold handle. rewrite M.
  change (String.eqb "GET" "OPTIONS") with false.
  change (String.eqb "GET" "GET") with true.
  change (String.eqb "GET" "POST") with false.
  cbn [andb].
  destruct (String.eqb (pathname r) "/" || String.eqb (pathname r) "/index.html");
    [left; eexists; reflexivity|].
  destruct (String.eqb (pathname r) "/styles.css" && css_exists cfg);
    [left; eexists; reflexivity|].
  destruct (String.eqb (pathname r) "/script.js" && js_exists cfg);
    [left; eexists; reflexivity|].
  destruct (String.eqb (pathname r) "/heartbeat") eqn:E.
  - right. apply String.eqb_eq in E. split; [exact E | reflexivity].
  - left. eexists. reflexivity.
Qed.

Lemma handle_heartbeat (rt : Runtime) (cfg : Config) (r : request) (w : world) :
  method r = "GET" -> pathname r = "/heartbeat" ->
  handle rt cfg r w
  = emit (Respond (Heartbeat
                     (remaining_seconds cfg (resetTimeout cfg (resetTimeout cfg w)))))
         (resetTimeout cfg (resetTimeout cfg w)).
Proof. intros M P. unfold handle. rewrite M, P. reflexivity. Qed.

(** C5. In a session started with an idle timeout of 1 to 2147483 seconds
    (the range in which the runtime takes the delay as given), after any
    GET request, whatever its path, the idle timer is due at the instant of
    the request plus the whole timeout, and it is the only idle timer
    left pending: the one that was pending before the request has been
    cleared, so the session cannot end for idleness at the previous
    deadline.  The deadline that was pending before the request is not
    later than the new one, so a GET only ever moves the deadline forward.
    The answer to a GET of [/heartbeat] is [{ ok: true, remaining }] with
    [remaining] between 0 and the timeout. *)
Theorem C5_get_extends_deadline :
  forall (rt : Runtime) (cfg : Config) (t0 : Z) (events : list event) (r : request),
    1 <= timeout cfg <= 2147483 ->
    method r = "GET" ->
    idle_deadline (handle rt cfg r (run rt cfg events (start cfg t0)))
    = Some (now (run rt cfg events (start cfg t0)) + timeout cfg * 1000)
    /\ (forall d,
           idle_deadline (run rt cfg events (start cfg t0)) = Some d ->
           d <= now (run rt cfg events (start cfg t0)) + timeout cfg * 1000)
    /\ (pathname r = "/heartbeat" ->
        exists remaining,
          log (handle rt cfg r (run rt cfg events (start cfg t0)))
          = (log (run rt cfg events (start cfg t0))
             ++ [Respond (Heartbeat remaining)])%list
          /\ 0 <= remaining <= timeout cfg)
    /\ 0 <= remaining_seconds cfg (run rt cfg events (start cfg t0)) <= timeout cfg
    /\ (exists id,
          timeoutId (handle rt cfg r (run rt cfg events (start cfg t0))) = Some id
          /\ idle_timers (handle rt cfg r (run rt cfg events (start cfg t0)))
             = [{| timer_id := id;
                   due := now (run rt cfg events (start cfg t0)) + timeout cfg * 1000;
                   action := IdleExpired |}])
    /\ (forall t,
          In t (idle_timers (run rt cfg events (start cfg t0))) ->
          ~ In t (timers (handle rt cfg r (run rt cfg events (start cfg t0))))).
Proof.
  intros rt cfg t0 events r Hrange M.
  pose proof (timed_run rt cfg events _ (timed_start cfg t0)) as T.
  pose proof (lone_run rt cfg events _ (lone_start cfg t0)) as L.
  remember (run rt cfg events (start cfg t0)) as w eqn:Hw. clear Hw.
  rewrite <- (idle_after_plain cfg Hrange).
  pose proof (timed_resetTimeout cfg w T) as T1.
  pose proof (lone_resetTimeout cfg w L) as L1.
  destruct (resetTimeout_state cfg w) as (N1 & I1 & _ & A1 & L1' & R1).
  destruct (resetTimeout_state cfg (resetTimeout cfg w)) as (N2 & _ & I2 & A2 & L2 & R2).
  split; [|split; [|split; [|split; [|split]]]].
  - destruct (handle_get rt cfg r w M) as [[x ->]|[_ ->]].
    + change (idle_deadline (emit (Respond x) (resetTimeout cfg w)))
        with (idle_deadline (resetTimeout cfg w)).
      apply resetTimeout_deadline, T.
    + match goal with |- idle_deadline (emit ?e ?u) = _ =>
        change (idle_deadline (emit e u)) with (idle_deadline u) end.
      rewrite (resetTimeout_deadline cfg _ T1), N1. reflexivity.
  - intros d Hd. apply (deadline_bound cfg w d T Hd).
  - intros Hpath. rewrite (handle_heartbeat rt cfg r w M Hpath).
    eexists. split.
    + cbn [log emit]. rewrite L2, L1'. reflexivity.
    + unfold remaining_seconds. rewrite A2, N2, Z.sub_diag.
      change (0 / 1000) with 0. lia.
  - destruct T as (T0 & _). unfold remaining_seconds.
    assert (0 <= (now w - lastActivity w) / 1000) by (apply Z.div_pos; lia).
    lia.
  - destruct (handle_get rt cfg r w M) as [[x ->]|[_ ->]].
    + exists (next_id w). split; [apply resetTimeout_state|].
      change (idle_timers (emit (Respond x) (resetTimeout cfg w)))
        with (idle_timers (resetTimeout cfg w)).
      apply resetTimeout_idle_timers, L.
    + exists (next_id (resetTimeout cfg w)). split; [exact I2|].
      match goal with |- idle_timers (emit ?e ?u) = _ =>
        change (idle_timers (emit e u)) with (idle_timers u) end.
      rewrite (resetTimeout_idle_timers cfg _ L1), N1. reflexivity.
  - intros t Ht Hin. apply filter_In in Ht as [Hold Hidle].
    destruct T as (_ & T2 & _).
    assert (In t (idle_timers (handle rt cfg r w))) as Hnew
      by (apply filter_In; split; assumption).
    specialize (T2 t Hold).
    destruct (handle_get rt cfg r w M) as [[x E]|[_ E]]; rewrite E in Hnew.
    + change (idle_timers (emit (Respond x) (resetTimeout cfg w)))
        with (idle_timers (resetTimeout cfg w)) in Hnew.
      rewrite (resetTimeout_idle_timers cfg w L) in Hnew.
      destruct Hnew as [<-|[]]. cbn [timer_id] in T2. lia.
    + match type of Hnew with In _ (idle_timers (emit ?e ?u)) =>
        change (idle_timers (emit e u)) with (idle_timers u) in Hnew end.
      rewrite (resetTimeout_idle_timers cfg _ L1) in Hnew.
      destruct Hnew as [<-|[]]. cbn [timer_id] in T2. lia.
Qed.

(** A heartbeat 5 s into the sample session moves the deadline from
    600 s to 605 s, answers 600, and leaves one idle timer pending. *)
Lemma C5_get_extends_deadline_witness :
  idle_deadline (handle Reference.runtime Sample.options
                   {| method := "GET"; pathname := "/heartbeat"; body := "" |}
                   (run Reference.runtime Sample.options
                      [Listening; Launched 0 ""; Elapse 5000]
                      (start Sample.options 0)))
  = Some 605000
  /\ idle_deadline (run Reference.runtime Sample.options
                      [Listening; Launched 0 ""; Elapse 5000]
                      (start Sample.options 0))
     = Some 600000
  /\ responses (log (handle Reference.runtime Sample.options
                       {| method := "GET"; pathname := "/heartbeat"; body := "" |}
                       (run Reference.runtime Sample.options
                          [Listening; Launched 0 ""; Elapse 5000]
                          (start Sample.options 0))))
     = [Heartbeat 600]
  /\ timers (handle Reference.runtime Sample.options
               {| method := "GET"; pathname := "/heartbeat"; body := "" |}
               (run Reference.runtime Sample.options
                  [Listening; Launched 0 ""; Elapse 5000]
                  (start Sample.options 0)))
     = [{| timer_id := 2%nat; due := 605000; action := IdleExpired |}].
Proof.
  destruct (C5_get_extends_deadline Reference.runtime Sample.options 0
              [Listening; Launched 0 ""; Elapse 5000]
              {| method := "GET"; pathname := "/heartbeat"; body := "" |})
    as (Hnew & Hold & Hbeat & _).
  - vm_compute. split; discriminate.
  - reflexivity.
  - split; [rewrite Hnew; vm_compute; reflexivity|].
    split; [|split]; vm_compute; reflexivity.
Defined.

Lemma handle_terminal (rt : Runtime) (cfg : Config) (r : request) (w : world)
    (cb : callback) :
  terminal rt r = Some cb ->
  handle rt cfg r w = setTimeout cb 500 (emit (Respond Success) (clear_idle w)).
Proof.
  unfold terminal, handle.
  destruct (String.eqb (method r) "POST") eqn:M; cbn [andb]; [|discriminate].
  apply String.eqb_eq in M. rewrite M.
  change (String.eqb "POST" "OPTIONS") with false.
  change (String.eqb "POST" "GET") with false.
  change (String.eqb "POST" "POST") with true. cbn [andb].
  destruct (String.eqb (pathname r) "/submit").
  - destruct (JSON_parse rt (body r)); [|discriminate]. intros [= <-]. reflexivity.
  - destruct (String.eqb (pathname r) "/cancel"); [|discriminate].
    intros [= <-]. reflexivity.
Qed.

Lemma find_app_none {A : Type} (p : A -> bool) (l l' : list A) :
  find p l = None -> find p (l ++ l') = find p l'.
Proof.
  induction l as [|x l IH]; cbn; [reflexivity|].
  destruct (p x); [discriminate | exact IH].
Qed.

Lemma cleared_deadline (cfg : Config) (cb : callback) (w : world) :
  timed cfg w ->
  idle_deadline (setTimeout cb 500 (emit (Respond Success) (clear_idle w))) = None.
Proof.
  intros (T1 & T2 & T3 & T4 & T5).
  unfold idle_deadline, setTimeout, clear_idle.
  destruct (timeoutId w) as [id|] eqn:E;
    cbn [timeoutId timers with_timers emit clearTimeout]; rewrite E; [|reflexivity].
  specialize (T3 id eq_refl).
  rewrite find_app_none.
  2:{ destruct (find _ _) as [t|] eqn:F; [|reflexivity].
      apply find_some in F as [Hin Heq]. apply filter_In in Hin as [_ Hne].
      rewrite Heq in Hne. discriminate. }
  cbn [find timer_id next_id emit clearTimeout with_timers].
  destruct (Nat.eqb (next_id w) id) eqn:N; [|reflexivity].
  apply Nat.eqb_eq in N. lia.
Qed.

(** What a terminal request does to a session with sound timers. *)
Lemma terminal_request (rt : Runtime) (cfg : Config) (w : world) (r : request)
    (cb : callback) :
  timed cfg w ->
  terminal rt r = Some cb ->
  idle_deadline (handle rt cfg r w) = None
  /\ log (handle rt cfg r w) = (log w ++ [Respond Success])%list
  /\ calls (handle rt cfg r w) = calls w
  /\ In {| timer_id := next_id w; due := now w + 500; action := cb |}
        (timers (handle rt cfg r w))
  /\ (forall ms,
         ms < 500 ->
         In {| timer_id := next_id w; due := now w + 500; action := cb |}
            (timers (elapse rt cfg ms (handle rt cfg r w))))
  /\ (exists at_,
         now w + 500 <= at_
         /\ In (at_, payload_of cb) (calls (elapse rt cfg 500 (handle rt cfg r w)))).
Proof.
  intros T Hcb.
  rewrite (handle_terminal rt cfg r w cb Hcb).
  set (g := {| timer_id := next_id w; due := now w + 500; action := cb |}).
  set (w' := setTimeout cb 500 (emit (Respond Success) (clear_idle w))).
  destruct (clear_idle_state w) as (C1 & C2 & C3 & C4 & C5 & C6).
  assert (timed cfg w') as T'
    by (apply timed_setTimeout, timed_emit, timed_clear_idle, T).
  assert (In g (timers w')) as Hin.
  { subst w' g. cbn [timers setTimeout with_timers emit next_id now andb].
    rewrite C1, C2. apply in_or_app. right. now left. }
  assert (timeoutId w' <> Some (timer_id g)) as Hid.
  { subst w' g. cbn [timeoutId setTimeout with_timers emit timer_id]. rewrite C3.
    destruct T as (_ & _ & T3 & _). intros E. specialize (T3 _ E). lia. }
  assert (now w' = now w) as Hnow by (subst w'; cbn; exact C1).
  split; [apply (cleared_deadline cfg), T|].
  split; [subst w'; cbn [log setTimeout with_timers emit]; now rewrite C5|].
  split; [subst w'; unfold clear_idle; destruct (timeoutId w); reflexivity|].
  split; [exact Hin|].
  split.
  - intros ms Hms. unfold elapse.
    cbn [timers with_clock]. apply pending_stays; auto.
    subst g. cbn [due]. rewrite Hnow. lia.
  - unfold elapse. cbn [calls with_clock].
    destruct (due_fires rt cfg (List.length (timers w')) (now w' + Z.max 0 500) w' g
                T' Hin Hid) as (at_ & Hat & Hcall).
    + subst g. cbn [due]. rewrite Hnow. lia.
    + lia.
    + exists at_. split; [exact Hat | exact Hcall].
Qed.

(** C6. For a POST of [/submit] with a parseable body and for a POST of
    [/cancel], in any session: when the handler returns, the idle timer
    is stopped, the acknowledgement [{ success: true }] is the last thing
    sent, [finish] has not been called, and the callback waits in a timer
    due 500 ms later.  While less than 500 ms elapse the callback is
    still waiting; once 500 ms have elapsed it has been called with its
    payload, not earlier than 500 ms after the request. *)
Theorem C6_acknowledge_then_resolve :
  forall (rt : Runtime) (cfg : Config) (t0 : Z) (events : list event)
         (r : request) (cb : callback),
    terminal rt r = Some cb ->
    idle_deadline (handle rt cfg r (run rt cfg events (start cfg t0))) = None
    /\ log (handle rt cfg r (run rt cfg events (start cfg t0)))
       = (log (run rt cfg events (start cfg t0)) ++ [Respond Success])%list
    /\ calls (handle rt cfg r (run rt cfg events (start cfg t0)))
       = calls (run rt cfg events (start cfg t0))
    /\ In {| timer_id := next_id (run rt cfg events (start cfg t0));
             due := now (run rt cfg events (start cfg t0)) + 500;
             action := cb |}
          (timers (handle rt cfg r (run rt cfg events (start cfg t0))))
    /\ (forall ms,
           ms < 500 ->
           In {| timer_id := next_id (run rt cfg events (start cfg t0));
                 due := now (run rt cfg events (start cfg t0)) + 500;
                 action := cb |}
              (timers (elapse rt cfg ms
                         (handle rt cfg r (run rt cfg events (start cfg t0))))))
    /\ (exists at_,
           now (run rt cfg events (start cfg t0)) + 500 <= at_
           /\ In (at_, payload_of cb)
                 (calls (elapse rt cfg 500
                           (handle rt cfg r (run rt cfg events (start cfg t0)))))).
Proof.
  intros rt cfg t0 events r cb Hcb.
  apply terminal_request; [|exact Hcb].
  apply timed_run, timed_start.
Qed.

(** A cancel on the sample session: acknowledged, [finish] not called
    after 499 ms, called with [null] after 500 ms. *)
Lemma C6_acknowledge_then_resolve_witness :
  responses (log (handle Reference.runtime Sample.options
                    {| method := "POST"; pathname := "/cancel"; body := "" |}
                    (Sample.opened 0)))
  = [Success]
  /\ calls (handle Reference.runtime Sample.options
              {| method := "POST"; pathname := "/cancel"; body := "" |}
              (Sample.opened 0))
     = []
  /\ calls (elapse Reference.runtime Sample.options 499
              (handle Reference.runtime Sample.options
                 {| method := "POST"; pathname := "/cancel"; body := "" |}
                 (Sample.opened 0)))
     = []
  /\ exists at_,
       500 <= at_
       /\ In (at_, JNull)
             (calls (elapse Reference.runtime Sample.options 500
                       (handle Reference.runtime Sample.options
                          {| method := "POST"; pathname := "/cancel"; body := "" |}
                          (Sample.opened 0)))).
Proof.
  destruct (C6_acknowledge_then_resolve Reference.runtime Sample.options 0
              [Listening; Launched 0 ""]
              {| method := "POST"; pathname := "/cancel"; body := "" |}
              DelayedCancel)
    as (_ & _ & _ & _ & _ & Hfire).
  - reflexivity.
  - split; [vm_compute; reflexivity|].
    split; [vm_compute; reflexivity|].
    split; [vm_compute; reflexivity|].
    exact Hfire.
Defined.

(** C7. For a POST of [/submit], in any session: when the body does not
    parse, the handler answers with status 400 and does nothing else: the
    session is the same but for that answer, so [finish] is not called,
    the session is as resolved or unresolved as before, and the idle
    timer stays as it was.  When the body parses, the handler answers
    [{ success: true }] without calling [finish], and once 500 ms have
    elapsed [finish] has been called with the parsed value. *)
Theorem C7_submit_parse :
  forall (rt : Runtime) (cfg : Config) (t0 : Z) (events : list event) (r : request),
    method r = "POST" ->
    pathname r = "/submit" ->
    (JSON_parse rt (body r) = None ->
     handle rt cfg r (run rt cfg events (start cfg t0))
     = emit (Respond InvalidJson) (run rt cfg events (start cfg t0))
     /\ status_code InvalidJson = 400
     /\ calls (handle rt cfg r (run rt cfg events (start cfg t0)))
        = calls (run rt cfg events (start cfg t0))
     /\ resolved (handle rt cfg r (run rt cfg events (start cfg t0)))
        = resolved (run rt cfg events (start cfg t0))
     /\ settled (handle rt cfg r (run rt cfg events (start cfg t0)))
        = settled (run rt cfg events (start cfg t0))
     /\ timer_state (handle rt cfg r (run rt cfg events (start cfg t0)))
        = timer_state (run rt cfg events (start cfg t0))
     /\ idle_deadline (handle rt cfg r (run rt cfg events (start cfg t0)))
        = idle_deadline (run rt cfg events (start cfg t0)))
    /\ (forall result,
           JSON_parse rt (body r) = Some result ->
           log (handle rt cfg r (run rt cfg events (start cfg t0)))
           = (log (run rt cfg events (start cfg t0)) ++ [Respond Success])%list
           /\ calls (handle rt cfg r (run rt cfg events (start cfg t0)))
              = calls (run rt cfg events (start cfg t0))
           /\ exists at_,
               now (run rt cfg events (start cfg t0)) + 500 <= at_
               /\ In (at_, result)
                     (calls (elapse rt cfg 500
                               (handle rt cfg r (run rt cfg events (start cfg t0)))))).
Proof.
  intros rt cfg t0 events r M P. split.
  - intros Hnone.
    assert (handle rt cfg r (run rt cfg events (start cfg t0))
            = emit (Respond InvalidJson) (run rt cfg events (start cfg t0))) as ->
      by (unfold handle; rewrite M, P, Hnone; reflexivity).
    repeat split.
  - intros result Hsome.
    assert (terminal rt r = Some (DelayedSubmit result)) as Hcb
      by (unfold terminal; rewrite M, P, Hsome; reflexivity).
    destruct (terminal_request rt cfg (run rt cfg events (start cfg t0)) r _
                (timed_run rt cfg events _ (timed_start cfg t0)) Hcb)
      as (_ & Hlog & Hcalls & _ & _ & Hfire).
    auto.
Qed.

(** A truncated body is answered 400 and changes nothing else; the body
    [null] parses and reaches [finish] after 500 ms. *)
Lemma C7_submit_parse_witness :
  responses (log (handle Reference.runtime Sample.options
                    {| method := "POST"; pathname := "/submit"; body := "{decision:" |}
                    (Sample.opened 0)))
  = [InvalidJson]
  /\ handle Reference.runtime Sample.options
       {| method := "POST"; pathname := "/submit"; body := "{decision:" |}
       (Sample.opened 0)
     = emit (Respond InvalidJson) (Sample.opened 0)
  /\ exists at_,
       500 <= at_
       /\ In (at_, JNull)
             (calls (elapse Reference.runtime Sample.options 500
                       (handle Reference.runtime Sample.options
                          {| method := "POST"; pathname := "/submit"; body := "null" |}
                          (Sample.opened 0)))).
Proof.
  destruct (C7_submit_parse Reference.runtime Sample.options 0
              [Listening; Launched 0 ""]
              {| method := "POST"; pathname := "/submit"; body := "{decision:" |}
              eq_refl eq_refl) as [Hbad _].
  destruct (C7_submit_parse Reference.runtime Sample.options 0
              [Listening; Launched 0 ""]
              {| method := "POST"; pathname := "/submit"; body := "null" |}
              eq_refl eq_refl) as [_ Hgood].
  destruct Hbad as (Hsame & _); [vm_compute; reflexivity|].
  destruct (Hgood JNull) as (_ & _ & Hfire); [vm_compute; reflexivity|].
  split; [vm_compute; reflexivity|].
  split; [exact Hsame | exact Hfire].
Defined.

End ServerTheorems.

Module VerdictFacts.
Import Js Text Plan Session Observe RendererFacts SessionFacts.

Lemma phase_step_ok (sel : json) (lines : list string) (p : PlanPhase) (b : bool) :
  includes sel (number p) = Ok b ->
  exists out, phase_step sel lines p = Ok out.
Proof.
  intros H. unfold phase_step. rewrite H. cbn [bind].
  destruct (negb b); eexists; reflexivity.
Qed.

Lemma phase_loop_array (items : list json) (ps : list PlanPhase) (lines : list string) :
  exists out, phase_loop (JArr items) lines ps = Ok out.
Proof.
  revert lines. induction ps as [|p ps IH]; intros lines; cbn [phase_loop].
  - eexists. reflexivity.
  - destruct (phase_step_ok (JArr items) lines p _ eq_refl) as [out ->].
    cbn [bind]. apply IH.
Qed.

Lemma selected_of_array (items : list json) (ps : list PlanPhase) :
  exists kept, selected_of (JArr items) ps = Ok kept.
Proof.
  induction ps as [|p ps [kept IH]]; cbn [selected_of].
  - eexists. reflexivity.
  - cbn [includes bind]. rewrite IH. cbn [bind]. eexists. reflexivity.
Qed.

Lemma opt_prop_some (review : json) (k : string) :
  opt_prop (Some review) k = prop review k.
Proof. destruct review; reflexivity. Qed.

Lemma effective_phases_array (plan : ImplementationPlan) (review : json) :
  array_or_missing (prop review "selectedPhases") = true ->
  exists items, effective_phases plan (Some review) = JArr items.
Proof.
  unfold effective_phases. rewrite opt_prop_some. intros H.
  destruct (prop review "selectedPhases") as [[ | | | |items| ]|];
    try discriminate H; cbn; eexists; reflexivity.
Qed.

Lemma printable_tpl (v : jsval) :
  printable v = match tpl v with Ok _ => true | Throw => false end.
Proof.
  destruct v as [w|]; [|reflexivity]. cbn [printable tpl].
  pose proof (to_str_stringable w) as T. destruct (to_str w); exact T.
Qed.

Lemma includes_throws (v : json) (n : Z) :
  includes v n = Throw <-> Shape.searchable v = false.
Proof. destruct v; cbn; split; intros H; congruence. Qed.

Lemma phase_step_throws (sel : json) (lines : list string) (p : PlanPhase) :
  phase_step sel lines p = Throw <-> Shape.searchable sel = false.
Proof.
  rewrite <- (includes_throws sel (number p)). unfold phase_step.
  destruct (includes sel (number p)) as [b|]; cbn [bind]; [|tauto].
  destruct (negb b); split; discriminate.
Qed.

Lemma phase_loop_throws (sel : json) (ps : list PlanPhase) (lines : list string) :
  phase_loop sel lines ps = Throw <-> (ps <> [] /\ Shape.searchable sel = false).
Proof.
  revert lines. induction ps as [|p ps IH]; intros lines; cbn [phase_loop].
  - split; [discriminate | intros [H _]; congruence].
  - pose proof (phase_step_throws sel lines p) as St.
    destruct (phase_step sel lines p) as [out|]; cbn [bind].
    + rewrite IH. split; [|intros [_ H]].
      * intros [_ H]. split; [discriminate | exact H].
      * destruct St as [_ St]. specialize (St H). discriminate.
    + split; [intros _|reflexivity]. split; [discriminate | now apply St].
Qed.

Lemma strings_stringable (l : list string) :
  forallb stringable (map JStr l) = true.
Proof. induction l as [|x l IH]; [reflexivity | exact IH]. Qed.

Lemma characters_stringable (l : list ascii) :
  forallb stringable (map (fun c => JStr (String c EmptyString)) l) = true.
Proof. induction l as [|c l IH]; [reflexivity | exact IH]. Qed.

Lemma positive_length {A : Type} (l : list A) :
  (0 <? Z.of_nat (List.length l)) = false -> l = [].
Proof.
  destruct l as [|x l]; [reflexivity|]. cbn [List.length]. intros H.
  apply Z.ltb_ge in H. lia.
Qed.

(** The section of a field throws exactly on the shapes of [unwalkable]. *)
Lemma review_section_throws stn (heading : string) (field : jsval)
    (lines : list string) :
  review_section stn heading field lines = Throw
  <-> Shape.unwalkable stn field = true.
Proof.
  unfold review_section, Shape.unwalkable.
  destruct field as [[ |b|n|s|items|fields]|]; cbn [nonempty truthy length_of gt0 bind].
  - split; discriminate.
  - destruct b; cbn [bind]; split; discriminate.
  - destruct (negb (n =? 0)); cbn [bind]; split; discriminate.
  - destruct (negb (String.eqb s "")); cbn [bind]; [|split; discriminate].
    destruct (0 <? Z.of_nat (String.length s)); [|split; discriminate].
    cbn [iterate bind].
    match goal with
    | |- context [push_items ?l ?items] =>
        pose proof (push_items_throws items l) as P;
        destruct (push_items l items)
    end; cbn [bind]; [split; discriminate|].
    rewrite characters_stringable in P. destruct P as [P _].
    specialize (P eq_refl). discriminate.
  - destruct (0 <? Z.of_nat (List.length items)) eqn:E.
    + cbn [iterate bind].
      match goal with
      | |- context [push_items ?l ?items] =>
          pose proof (push_items_throws items l) as P;
          destruct (push_items l items)
      end; cbn [bind].
      * destruct (forallb stringable items); [split; discriminate|].
        destruct P as [_ P]. specialize (P eq_refl). discriminate.
      * destruct P as [P _]. rewrite (P eq_refl). split; reflexivity.
    + apply positive_length in E. subst items. split; discriminate.
  - destruct (gt0 stn (lookup "length" fields)) as [[|]|]; cbn [bind iterate];
      split; try reflexivity; discriminate.
  - split; discriminate.
Qed.

Lemma front_matter_throws (plan : ImplementationPlan) (review : jsval) :
  front_matter plan review = Throw
  <-> truthy review
      && negb (printable (opt_prop review "priority")
               && printable (opt_prop review "approach")) = true.
Proof.
  unfold front_matter. cbv zeta.
  destruct review as [r|]; [|cbn; split; discriminate].
  rewrite !opt_prop_some, !printable_tpl.
  destruct (truthy (Some r)); cbn [andb bind]; [|split; discriminate].
  destruct (tpl (prop r "priority")); cbn [bind negb andb];
    [|split; reflexivity].
  destruct (tpl (prop r "approach")); cbn [bind negb];
    split; try reflexivity; discriminate.
Qed.

Lemma back_matter_throws stn (plan : ImplementationPlan) (review : jsval)
    (generated : string) (lines : list string) :
  back_matter stn plan review generated lines = Throw
  <-> Shape.unwalkable stn (opt_prop review "requirements")
      || Shape.unwalkable stn (opt_prop review "constraints")
      || (truthy (opt_prop review "notes")
          && negb (printable (opt_prop review "notes"))) = true.
Proof.
  unfold back_matter. cbv zeta.
  match goal with
  | |- context [review_section stn "## Additional Requirements" ?f ?l] =>
      pose proof (review_section_throws stn "## Additional Requirements" f l) as R1;
      destruct (review_section stn "## Additional Requirements" f l) as [out1|]
  end; cbn [bind].
  2:{ destruct R1 as [R1 _]. rewrite (R1 eq_refl). split; reflexivity. }
  destruct (Shape.unwalkable stn (opt_prop review "requirements"));
    [destruct R1 as [_ R1]; specialize (R1 eq_refl); discriminate|].
  match goal with
  | |- context [review_section stn "## Constraints" ?f ?l] =>
      pose proof (review_section_throws stn "## Constraints" f l) as R2;
      destruct (review_section stn "## Constraints" f l) as [out2|]
  end; cbn [bind orb].
  2:{ destruct R2 as [R2 _]. rewrite (R2 eq_refl). split; reflexivity. }
  destruct (Shape.unwalkable stn (opt_prop review "constraints"));
    [destruct R2 as [_ R2]; specialize (R2 eq_refl); discriminate|].
  cbn [orb]. rewrite printable_tpl.
  destruct (truthy (opt_prop review "notes")); cbn [andb bind];
    [|split; discriminate].
  destruct (tpl (opt_prop review "notes")); cbn [bind negb];
    split; try reflexivity; discriminate.
Qed.

(** The renderer throws exactly on the payloads of [renderer_throws]. *)
Lemma renderer_throws_iff stn (plan : ImplementationPlan) (review : jsval)
    (generated : string) :
  planToMarkdown stn plan review generated = Throw
  <-> Shape.renderer_throws stn plan review = true.
Proof.
  unfold planToMarkdown, planToMarkdown_lines, Shape.renderer_throws.
  pose proof (front_matter_throws plan review) as F.
  destruct (front_matter plan review) as [front|]; cbn [bind].
  2:{ destruct F as [F _]. rewrite (F eq_refl). split; reflexivity. }
  destruct (truthy review && _);
    [destruct F as [_ F]; specialize (F eq_refl); discriminate|].
  cbn [orb]. clear F.
  pose proof (phase_loop_throws (effective_phases plan review) (phases plan) front) as P.
  destruct (phase_loop _ front (phases plan)) as [out|]; cbn [bind].
  2:{ destruct P as [P _]. destruct (P eq_refl) as [P1 P2]. rewrite P2.
      destruct (phases plan); [congruence|]. split; reflexivity. }
  assert (match phases plan with [] => false | _ => true end
          && negb (Shape.searchable (effective_phases plan review)) = false) as ->.
  { destruct (phases plan) as [|p ps] eqn:E; [reflexivity|].
    destruct (Shape.searchable (effective_phases plan review)); [reflexivity|].
    destruct P as [_ P]. discriminate P. split; [discriminate | reflexivity]. }
  cbn [orb].
  pose proof (back_matter_throws stn plan review generated out) as B.
  rewrite <- !orb_assoc in B |- *.
  destruct (back_matter stn plan review generated out); cbn [bind].
  - split; [discriminate|]. intros H. apply B in H. discriminate.
  - split; [intros _; now apply B | reflexivity].
Qed.

Lemma unwalkable_array stn (field : jsval) :
  array_or_missing field = true -> printable field = true ->
  Shape.unwalkable stn field = false.
Proof.
  destruct field as [[ | | | |items| ]|]; try discriminate; try reflexivity.
  cbn. intros _ ->. reflexivity.
Qed.

Lemma summary_section_array (rt : Runtime) (heading : string) (field : jsval) :
  array_or_missing field = true -> printable field = true ->
  exists out, summary_section rt heading field = Ok out.
Proof.
  unfold summary_section. intros H P.
  destruct field as [[ | | | |items| ]|]; try discriminate H;
    try (eexists; reflexivity).
  cbn [nonempty truthy length_of gt0 bind].
  destruct (0 <? _); [|eexists; reflexivity].
  cbn [array_items bind]. cbn [printable stringable] in P.
  assert (exists entries, item_entries items = Ok entries) as [entries ->].
  { clear H. induction items as [|i rest IH]; [eexists; reflexivity|].
    cbn [forallb] in P. apply andb_prop in P as [Pi Pr].
    cbn [item_entries]. destruct (to_str_ok i Pi) as [s ->].
    destruct (IH Pr) as [entries ->]. cbn [bind]. eexists. reflexivity. }
  cbn [bind]. eexists. reflexivity.
Qed.

Lemma legible_fields (review : json) :
  legible review = true ->
  printable (prop review "priority") = true
  /\ printable (prop review "approach") = true
  /\ printable (prop review "notes") = true
  /\ printable (prop review "requirements") = true
  /\ printable (prop review "constraints") = true
  /\ match prop review "selectedPhases" with
     | Some v => printable (index0 v)
     | None => true
     end = true.
Proof.
  unfold legible. intros H.
  repeat (apply andb_prop in H as [H ?]). repeat split; assumption.
Qed.

(** The renderer does not throw on a payload whose walked fields are
    arrays, [null] or missing, and whose printed values have a string. *)
Lemma planToMarkdown_walkable stn (plan : ImplementationPlan) (review : json)
    (generated : string) :
  walkable review = true -> legible review = true ->
  Shape.renderer_throws stn plan (Some review) = false.
Proof.
  unfold walkable. intros H L.
  apply andb_prop in H as [H Hc]. apply andb_prop in H as [Hs Hr].
  destruct (legible_fields review L) as (Lp & La & Ln & Lr & Lc & _).
  unfold Shape.renderer_throws. rewrite !opt_prop_some, Lp, La, Ln.
  rewrite (unwalkable_array stn _ Hr Lr), (unwalkable_array stn _ Hc Lc).
  destruct (effective_phases_array plan review Hs) as [items ->].
  cbn [Shape.searchable negb andb orb].
  rewrite !andb_false_r. reflexivity.
Qed.

Lemma renderer_returns stn (plan : ImplementationPlan) (review : jsval)
    (generated : string) :
  Shape.renderer_throws stn plan review = false ->
  exists markdown, planToMarkdown stn plan review generated = Ok markdown.
Proof.
  intros H. destruct (planToMarkdown stn plan review generated) as [markdown|] eqn:E;
    [exists markdown; reflexivity|].
  apply renderer_throws_iff in E. congruence.
Qed.

Lemma summary_walkable (rt : Runtime) (cfg : Config) (review : json) (filepath : string) :
  walkable review = true -> legible review = true ->
  exists text, summary rt cfg review filepath = Ok text.
Proof.
  unfold walkable. intros H L.
  apply andb_prop in H as [H Hc]. apply andb_prop in H as [Hs Hr].
  destruct (legible_fields review L) as (Lp & La & Ln & Lr & Lc & Lf).
  unfold summary.
  assert (exists first, to_str (first_selected (effective_phases (plan cfg) (Some review)))
                        = Ok first) as [first Hfirst].
  { apply to_str_ok. unfold first_selected, effective_phases. rewrite opt_prop_some.
    destruct (prop review "selectedPhases") as [[ | | | |items| ]|];
      try discriminate Hs; cbn [truthy].
    - destruct (phases (plan cfg)) as [|q qs]; [reflexivity|].
      cbn. destruct (negb (number q =? 0)); reflexivity.
    - cbn [index0] in Lf |- *. destruct items as [|i rest]; [reflexivity|].
      cbn [hd_error printable] in Lf |- *.
      match goal with
      | |- stringable (if ?c then _ else _) = true => destruct c
      end; [exact Lf | reflexivity].
    - destruct (phases (plan cfg)) as [|q qs]; [reflexivity|].
      cbn. destruct (negb (number q =? 0)); reflexivity. }
  destruct (effective_phases_array (plan cfg) review Hs) as [items E].
  rewrite E in *.
  destruct (selected_of_array items (phases (plan cfg))) as [kept ->].
  cbn [bind].
  destruct (tpl_ok _ Lp) as [p ->]. destruct (tpl_ok _ La) as [a ->]. cbn [bind].
  destruct (summary_section_array rt "**Additional Requirements:**" _ Hr Lr) as [x ->].
  cbn [bind].
  destruct (summary_section_array rt "**Constraints:**" _ Hc Lc) as [y ->].
  cbn [bind]. destruct (tpl_ok _ Ln) as [n ->].
  destruct (truthy (prop review "notes")); cbn [bind]; rewrite Hfirst;
    cbn [bind]; eexists; reflexivity.
Qed.

Lemma keep_slug_chars (s : string) :
  forallb slug_char (list_ascii_of_string (keep_slug s)) = true.
Proof.
  induction s as [|c s IH]; [reflexivity|].
  cbn [keep_slug]. destruct (slug_char c) eqn:E; [|exact IH].
  cbn [list_ascii_of_string forallb]. now rewrite E, IH.
Qed.

(** A session on which [finish] has not been called has written nothing
    and passed no verdict. *)
Lemma unresolved_clean (rt : Runtime) (cfg : Config) (w : world) :
  coordinated rt cfg w -> resolved w = false ->
  filter of_finish (log w) = [].
Proof.
  intros (G & _) R. unfold guarded in G.
  destruct (calls w) as [|[t r] rest]; destruct G as [G1 G2]; [exact G2|congruence].
Qed.

Lemma writes_of_finish (l : list effect) : writes (filter of_finish l) = writes l.
Proof.
  unfold writes. induction l as [|e l IH]; [reflexivity|].
  destruct e as [r| | |p|p c|r|]; cbn; try exact IH.
  - f_equal. exact IH.
  - destruct (status r); cbn; exact IH.
Qed.

Lemma verdicts_of_finish (l : list effect) : verdicts (filter of_finish l) = verdicts l.
Proof.
  unfold verdicts. induction l as [|e l IH]; [reflexivity|].
  destruct e as [r| | |p|p c|r|]; cbn; try exact IH.
  destruct (status r) eqn:E; cbn; rewrite ?E; cbn; try exact IH; f_equal; exact IH.
Qed.

Lemma verdict_at_counts (rt : Runtime) (cfg : Config) (t : Z) (review : json) :
  (List.length (writes (verdict_at rt cfg t review)) <= 1)%nat
  /\ (List.length (verdicts (verdict_at rt cfg t review)) <= 1)%nat.
Proof.
  unfold verdict_at.
  destruct (is_rejection review); [destruct (rejection_reason review); cbn; lia|].
  destruct (planToMarkdown _ _ _ _); [|cbn; lia].
  destruct (summary _ _ _ _); cbn; lia.
Qed.

(** What a call of [finish] on an unresolved session writes and resolves. *)
Lemma finish_outcome (rt : Runtime) (cfg : Config) (review : json) (w : world) :
  coordinated rt cfg w -> resolved w = false ->
  writes (log (finish rt cfg review w)) = writes (verdict_at rt cfg (now w) review)
  /\ verdicts (log (finish rt cfg review w))
     = verdicts (verdict_at rt cfg (now w) review).
Proof.
  intros C R. pose proof (unresolved_clean rt cfg w C R) as Hclean.
  rewrite <- (writes_of_finish (log (finish rt cfg review w))).
  rewrite <- (verdicts_of_finish (log (finish rt cfg review w))).
  rewrite (finish_unresolved_log rt cfg review w R), !filter_app, Hclean.
  assert (filter of_finish (if server w then [CloseServer] else []) = []) as ->
    by (destruct (server w); reflexivity).
  cbn [app]. rewrite verdict_all_of_finish. split; reflexivity.
Qed.

End VerdictFacts.

Module GuardTheorems.
Import Js Text Plan Session Observe SessionFacts VerdictFacts.

(** C1, as the code has it. In every run of a session, whatever the order
    and the timing of requests, aborts, launch results and elapsing time:
    - before the first call of [finish] the session is unresolved and
      nothing of a resolution has happened; from the first call on, the
      session is resolved and the directory, file, exception and verdict
      effects of the whole run are those of that first call, made with its
      payload at its instant;
    - a call of [finish] on a resolved session changes nothing (it is only
      recorded in the history of calls), so no later attempt resolves,
      tears down or writes again;
    - the server is closed at most once, at most one file is written, at
      most one verdict is passed to [resolve], and the promise holds the
      argument of the first call of [resolve].
    The payload that wins is the one of the first call of [finish]: a
    submit or a cancel reaches [finish] 500 ms after its request, the idle
    timer and the abort signal reach it at once. *)
Theorem C1_first_call_of_finish_wins :
  forall (rt : Runtime) (cfg : Config) (t0 : Z) (events : list event),
    match calls (run rt cfg events (start cfg t0)) with
    | [] =>
        resolved (run rt cfg events (start cfg t0)) = false
        /\ filter of_finish (log (run rt cfg events (start cfg t0))) = []
    | (t, review) :: _ =>
        resolved (run rt cfg events (start cfg t0)) = true
        /\ filter of_finish (log (run rt cfg events (start cfg t0)))
           = verdict_at rt cfg t review
    end
    /\ (forall review,
           resolved (run rt cfg events (start cfg t0)) = true ->
           finish rt cfg review (run rt cfg events (start cfg t0))
           = note_call review (run rt cfg events (start cfg t0)))
    /\ (closes (log (run rt cfg events (start cfg t0))) <= 1)%nat
    /\ (List.length (writes (log (run rt cfg events (start cfg t0)))) <= 1)%nat
    /\ (List.length (verdicts (log (run rt cfg events (start cfg t0)))) <= 1)%nat
    /\ settled (run rt cfg events (start cfg t0))
       = hd_error (resolutions (log (run rt cfg events (start cfg t0)))).
Proof.
  intros rt cfg t0 events.
  pose proof (run_coordinated rt cfg events _ (start_coordinated rt cfg t0))
    as (G & (K1 & K2 & K3 & K4) & S & U).
  remember (run rt cfg events (start cfg t0)) as w eqn:Hw. clear Hw.
  split; [exact G|]. split; [intros review R; apply finish_resolved, R|].
  split; [exact K4|].
  rewrite <- (writes_of_finish (log w)), <- (verdicts_of_finish (log w)).
  unfold guarded in G. destruct (calls w) as [|[t review] rest].
  - destruct G as [_ ->]. cbn. repeat split; try lia; exact S.
  - destruct G as [_ ->]. destruct (verdict_at_counts rt cfg t review).
    repeat split; try assumption; exact S.
Qed.

(** C1, as stated, fails: the page submits an approval, which the server
    acknowledges; the caller aborts 100 ms later, inside the grace delay.
    The first source to fire is the submit, and the session resolves with
    the payload of the abort: [finish] is called with [null] at 100 ms and
    with the decision at 500 ms, the result is the rejection, and no file
    is written. *)
Lemma C1_submit_then_abort :
  first_fired Reference.runtime Sample.submit_then_abort
  = Some (Review.to_json (Sample.decision Review.approve [1; 2]))
  /\ calls (run Reference.runtime Sample.options Sample.submit_then_abort
              (Sample.opened 0))
     = [(100, JNull); (500, Review.to_json (Sample.decision Review.approve [1; 2]))]
  /\ settled (run Reference.runtime Sample.options Sample.submit_then_abort
                (Sample.opened 0))
     = Some (rejected_result Sample.options JNull "No reason provided")
  /\ responses (log (run Reference.runtime Sample.options Sample.submit_then_abort
                       (Sample.opened 0)))
     = [Success]
  /\ writes (log (run Reference.runtime Sample.options Sample.submit_then_abort
                    (Sample.opened 0)))
     = [].
Proof. vm_compute. repeat split. Qed.

End GuardTheorems.

Module CoordinatorTheorems.
Import Js Text Plan Session Observe SessionFacts TimerFacts VerdictFacts.

Lemma typed_payload (r : Review.PlanReviewResult) :
  walkable (Review.to_json r) = true
  /\ truthy (Some (Review.to_json r)) = true
  /\ is_rejection (Review.to_json r)
     = match Review.decision r with Review.reject => true | _ => false end.
Proof.
  repeat split. unfold is_rejection. cbn.
  destruct (Review.decision r); reflexivity.
Qed.

(** What the page sends holds strings and numbers only. *)
Lemma typed_legible (r : Review.PlanReviewResult) :
  legible (Review.to_json r) = true.
Proof.
  unfold legible.
  change (prop (Review.to_json r) "priority") with (Some (JStr (Review.priority r))).
  change (prop (Review.to_json r) "approach") with (Some (JStr (Review.approach r))).
  change (prop (Review.to_json r) "notes") with (Some (JStr (Review.notes r))).
  change (prop (Review.to_json r) "requirements")
    with (Some (JArr (map JStr (Review.requirements r)))).
  change (prop (Review.to_json r) "constraints")
    with (Some (JArr (map JStr (Review.constraints r)))).
  change (prop (Review.to_json r) "selectedPhases")
    with (Some (JArr (map JNum (Review.selectedPhases r)))).
  cbn [printable stringable andb]. rewrite !strings_stringable.
  destruct (Review.selectedPhases r); reflexivity.
Qed.

(** C9. When [finish] is called on a session that is not resolved yet:
    - with a decision that approves or modifies, exactly one file is
      written; its path is the plans directory, then the date and the
      time of the instant, a dash, the slug of the plan's title and the
      extension [.md]; its content is the rendering of the plan with
      that decision;
    - with a decision that rejects, or with [null] (cancel, idle timeout,
      abort), no file is written.
    The slug holds lowercase letters, digits and dashes only. *)
Theorem C9_artifact_iff_approved :
  forall (rt : Runtime) (cfg : Config) (t0 : Z) (events : list event)
         (d : option Review.PlanReviewResult),
    resolved (run rt cfg events (start cfg t0)) = false ->
    (Review.approves d = true ->
     exists markdown,
       planToMarkdown (StringToNumber_pos rt) (plan cfg) (Some (Review.payload d))
         (toISOString rt (now (run rt cfg events (start cfg t0)))) = Ok markdown
       /\ writes (log (finish rt cfg (Review.payload d)
                         (run rt cfg events (start cfg t0))))
          = [(PLANS_DIR cfg ++ "/"
              ++ (generatePlanId
                    (toISOString rt (now (run rt cfg events (start cfg t0))))
                    (toTimeString rt (now (run rt cfg events (start cfg t0))))
                  ++ "-" ++ slug (title (plan cfg)) ++ ".md"),
              markdown)])
    /\ (Review.approves d = false ->
        writes (log (finish rt cfg (Review.payload d)
                       (run rt cfg events (start cfg t0)))) = [])
    /\ forallb slug_char (list_ascii_of_string (slug (title (plan cfg)))) = true.
Proof.
  intros rt cfg t0 events d R.
  pose proof (run_coordinated rt cfg events _ (start_coordinated rt cfg t0)) as C.
  remember (run rt cfg events (start cfg t0)) as w eqn:Hw. clear Hw.
  destruct (finish_outcome rt cfg (Review.payload d) w C R) as [-> _].
  split; [|split].
  - intros A. destruct d as [r|]; [|discriminate].
    destruct (typed_payload r) as (Hw & _ & Hrej).
    cbn [Review.payload Review.approves] in *.
    pose proof (typed_legible r) as Hl.
    destruct (renderer_returns (StringToNumber_pos rt) (plan cfg)
                (Some (Review.to_json r)) (toISOString rt (now w))
                (planToMarkdown_walkable _ _ _ (toISOString rt (now w)) Hw Hl))
      as [markdown Hmd].
    destruct (summary_walkable rt cfg (Review.to_json r) (filepath_at rt cfg (now w))
                Hw Hl) as [text Htext].
    exists markdown. split; [exact Hmd|].
    unfold verdict_at. rewrite Hrej, Hmd, Htext.
    destruct (Review.decision r); [reflexivity | reflexivity | discriminate].
  - intros A. unfold verdict_at. destruct d as [r|]; [|reflexivity].
    destruct (typed_payload r) as (_ & _ & Hrej).
    cbn [Review.payload Review.approves] in *. rewrite Hrej.
    destruct (Review.decision r); [discriminate | discriminate |].
    destruct (rejection_reason _); reflexivity.
  - apply keep_slug_chars.
Qed.

(** On the sample session: one file for a modify, none for a reject,
    none for [null]. *)
Lemma C9_artifact_iff_approved_witness :
  (exists markdown,
      writes (log (finish Reference.runtime Sample.options
                     (Review.payload (Some (Sample.decision Review.modify [1])))
                     (Sample.opened 1793534400000)))
      = [("/home/dev/.pi/plans/2026-11-01-120000-add-rate-limiting.md", markdown)])
  /\ writes (log (finish Reference.runtime Sample.options
                    (Review.payload (Some (Sample.decision Review.reject [1])))
                    (Sample.opened 1793534400000))) = []
  /\ writes (log (finish Reference.runtime Sample.options (Review.payload None)
                    (Sample.opened 1793534400000))) = [].
Proof.
  split; [|split].
  - destruct (C9_artifact_iff_approved Reference.runtime Sample.options 1793534400000
                [Listening; Launched 0 ""]
                (Some (Sample.decision Review.modify [1])))
      as ((markdown & _ & Hwrite) & _ & _).
    + vm_compute. reflexivity.
    + reflexivity.
    + exists markdown. exact Hwrite.
  - destruct (C9_artifact_iff_approved Reference.runtime Sample.options 1793534400000
                [Listening; Launched 0 ""]
                (Some (Sample.decision Review.reject [1])))
      as (_ & Hnone & _).
    + vm_compute. reflexivity.
    + apply Hnone. reflexivity.
  - destruct (C9_artifact_iff_approved Reference.runtime Sample.options 1793534400000
                [Listening; Launched 0 ""] None)
      as (_ & Hnone & _).
    + vm_compute. reflexivity.
    + apply Hnone. reflexivity.
Defined.

(** C10, as the code has it. The submit endpoint checks nothing but that
    the body parses: the parsed value is acknowledged with
    [{ success: true }] and, 500 ms later, passed to [finish] as it is.
    On a session that is not resolved yet, [finish] then
    - rejects, writing no file, when the value is falsy ([null], [false],
      0, the empty string);
    - writes no file when its [decision] is the string [reject], and
      rejects with its notes as the reason, unless the notes have no
      string: then the template literal throws and nothing resolves;
    - otherwise takes it for an approval, whatever [decision] is or when
      it is missing, and writes one file exactly when the renderer
      returns; on the payloads of [renderer_throws] the renderer throws,
      and then nothing is written and nothing resolves;
    - in particular approves and writes one file when the fields the
      renderer and the summary walk through ([selectedPhases],
      [requirements], [constraints]) are arrays, [null] or missing, and
      the values they print have a string. *)
Theorem C10_submit_unvalidated :
  forall (rt : Runtime) (cfg : Config) (t0 : Z) (events : list event)
         (r : request) (review : json),
    method r = "POST" ->
    pathname r = "/submit" ->
    JSON_parse rt (body r) = Some review ->
    (log (handle rt cfg r (run rt cfg events (start cfg t0)))
     = (log (run rt cfg events (start cfg t0)) ++ [Respond Success])%list
     /\ exists at_,
         now (run rt cfg events (start cfg t0)) + 500 <= at_
         /\ In (at_, review)
               (calls (elapse rt cfg 500
                         (handle rt cfg r (run rt cfg events (start cfg t0))))))
    /\ (forall later,
           resolved (run rt cfg later (start cfg t0)) = false ->
           (truthy (Some review) = false ->
            writes (log (finish rt cfg review (run rt cfg later (start cfg t0)))) = []
            /\ verdicts (log (finish rt cfg review (run rt cfg later (start cfg t0))))
               = [rejected_result cfg review "No reason provided"])
           /\ (is_string (prop review "decision") "reject" = true ->
               writes (log (finish rt cfg review (run rt cfg later (start cfg t0)))) = []
               /\ verdicts (log (finish rt cfg review (run rt cfg later (start cfg t0))))
                  = match rejection_reason review with
                    | Ok reason => [rejected_result cfg review reason]
                    | Throw => []
                    end)
           /\ (truthy (Some review) = true ->
               is_string (prop review "decision") "reject" = false ->
               (Shape.renderer_throws (StringToNumber_pos rt) (plan cfg) (Some review)
                = true ->
                writes (log (finish rt cfg review (run rt cfg later (start cfg t0))))
                = []
                /\ verdicts (log (finish rt cfg review
                                    (run rt cfg later (start cfg t0))))
                   = [])
               /\ (Shape.renderer_throws (StringToNumber_pos rt) (plan cfg)
                     (Some review) = false ->
                   exists markdown,
                     planToMarkdown (StringToNumber_pos rt) (plan cfg) (Some review)
                       (toISOString rt (now (run rt cfg later (start cfg t0))))
                     = Ok markdown
                     /\ writes (log (finish rt cfg review
                                       (run rt cfg later (start cfg t0))))
                        = [(filepath_at rt cfg (now (run rt cfg later (start cfg t0))),
                            markdown)])
               /\ (walkable review = true ->
                   legible review = true ->
                   exists markdown text,
                     writes (log (finish rt cfg review
                                    (run rt cfg later (start cfg t0))))
                     = [(filepath_at rt cfg (now (run rt cfg later (start cfg t0))),
                         markdown)]
                     /\ verdicts (log (finish rt cfg review
                                         (run rt cfg later (start cfg t0))))
                        = [{| text := text;
                              details_plan := plan cfg;
                              status := Approved;
                              review := Some review;
                              savedPath :=
                                Some (filepath_at rt cfg
                                        (now (run rt cfg later (start cfg t0)))) |}]))).
Proof.
  intros rt cfg t0 events r review M P Hparse. split.
  - assert (terminal rt r = Some (DelayedSubmit review)) as Hcb
      by (unfold terminal; rewrite M, P, Hparse; reflexivity).
    destruct (ServerTheorems.terminal_request rt cfg (run rt cfg events (start cfg t0)) r _
                (timed_run rt cfg events _ (timed_start cfg t0)) Hcb)
      as (_ & Hlog & _ & _ & _ & Hfire).
    split; assumption.
  - intros later R.
    pose proof (run_coordinated rt cfg later _ (start_coordinated rt cfg t0)) as C.
    remember (run rt cfg later (start cfg t0)) as u eqn:Hu. clear Hu.
    destruct (finish_outcome rt cfg review u C R) as [-> ->].
    unfold verdict_at, is_rejection. split; [|split].
    + intros H. rewrite H. cbn [negb orb].
      assert (rejection_reason review = Ok "No reason provided") as ->
        by (destruct review as [ |b|n|s|items|fields]; try discriminate H;
            reflexivity).
      split; reflexivity.
    + intros H. rewrite H, orb_true_r.
      destruct (rejection_reason review); split; reflexivity.
    + intros Ht Hd. rewrite Ht, Hd. cbn [negb orb]. split; [|split].
      * intros Hthrows.
        apply (renderer_throws_iff _ _ _ (toISOString rt (now u))) in Hthrows.
        rewrite Hthrows. split; reflexivity.
      * intros Hreturns.
        destruct (renderer_returns _ _ _ (toISOString rt (now u)) Hreturns)
          as [markdown Hmd].
        exists markdown. split; [exact Hmd|]. rewrite Hmd.
        destruct (summary rt cfg review (filepath_at rt cfg (now u))); reflexivity.
      * intros Hw Hl.
        destruct (renderer_returns _ _ _ (toISOString rt (now u))
                    (planToMarkdown_walkable (StringToNumber_pos rt) (plan cfg)
                       review (toISOString rt (now u)) Hw Hl)) as [markdown ->].
        destruct (summary_walkable rt cfg review (filepath_at rt cfg (now u)) Hw Hl)
          as [text ->].
        exists markdown, text. split; reflexivity.
Qed.

(** The body [{}] has no [decision]: it is acknowledged, approved and
    written. *)
Lemma C10_submit_unvalidated_witness :
  responses (log (handle Reference.runtime Sample.options
                    {| method := "POST"; pathname := "/submit";
                       body := "{}" |}
                    (Sample.opened 0)))
  = [Success]
  /\ (exists markdown text,
         writes (log (finish Reference.runtime Sample.options (JObj [])
                        (Sample.opened 0)))
         = [("/home/dev/.pi/plans/1970-01-01-000000-add-rate-limiting.md", markdown)]
         /\ verdicts (log (finish Reference.runtime Sample.options (JObj [])
                             (Sample.opened 0)))
            = [{| text := text;
                  details_plan := Sample.rate_limiting;
                  status := Approved;
                  review := Some (JObj []);
                  savedPath :=
                    Some "/home/dev/.pi/plans/1970-01-01-000000-add-rate-limiting.md" |}]).
Proof.
  destruct (C10_submit_unvalidated Reference.runtime Sample.options 0
              [Listening; Launched 0 ""]
              {| method := "POST"; pathname := "/submit"; body := "{}" |}
              (JObj []) eq_refl eq_refl)
    as ((Hack & _) & Hfinish).
  - vm_compute. reflexivity.
  - split; [vm_compute; reflexivity|].
    destruct (Hfinish [Listening; Launched 0 ""]) as (_ & _ & Happrove).
    + vm_compute. reflexivity.
    + destruct Happrove as (_ & _ & Hwritten); try reflexivity.
      destruct Hwritten as (markdown & text & Hw & Hv); try reflexivity.
      exists markdown, text. split; [exact Hw | exact Hv].
Defined.

(** C10, as stated, fails: the body [{"decision":"approve",
    "selectedPhases":7}] parses and is acknowledged; its [decision] is not
    [reject]; yet no file is written, because the renderer calls
    [includes] on the number 7 and throws.  The guard is already set, so
    the session stays resolved with a promise that never settles. *)
Lemma C10_odd_selection :
  Reference.parse (Reference.stringify Sample.odd_selection)
  = Some Sample.odd_selection
  /\ is_string (prop Sample.odd_selection "decision") "reject" = false
  /\ responses (log (run Reference.runtime Sample.options Sample.submit_odd_selection
                       (Sample.opened 0)))
     = [Success]
  /\ calls (run Reference.runtime Sample.options Sample.submit_odd_selection
              (Sample.opened 0))
     = [(500, Sample.odd_selection)]
  /\ writes (log (run Reference.runtime Sample.options Sample.submit_odd_selection
                    (Sample.opened 0)))
     = []
  /\ filter of_finish
       (log (run Reference.runtime Sample.options Sample.submit_odd_selection
               (Sample.opened 0)))
     = [EnsureDir "/home/dev/.pi/plans"; Uncaught]
  /\ resolved (run Reference.runtime Sample.options Sample.submit_odd_selection
                 (Sample.opened 0))
     = true
  /\ settled (run Reference.runtime Sample.options Sample.submit_odd_selection
                (Sample.opened 0))
     = None.
Proof. vm_compute. repeat split. Qed.

(** C4, as the code has it. When the opener fails while the session is
    still unresolved, the coordinator closes the server, which stops the
    idle timer and the listening socket, and resolves at once with a
    pending result: its text starts with [Failed to open browser: ], its
    status is [pending], not [rejected], it carries no review, and it
    keeps the plan.  No request is served after that. *)
Theorem C4_launch_failure :
  forall (rt : Runtime) (cfg : Config) (t0 : Z) (events : list event)
         (code : Z) (stderr message : string),
    launch (run rt cfg events (start cfg t0)) = Opening ->
    resolved (run rt cfg events (start cfg t0)) = false ->
    openUrl_error code stderr = Some message ->
    settled (step rt cfg (Launched code stderr) (run rt cfg events (start cfg t0)))
    = Some {| text := "Failed to open browser: " ++ message;
              details_plan := plan cfg;
              status := Pending;
              review := None;
              savedPath := None |}
    /\ log (step rt cfg (Launched code stderr) (run rt cfg events (start cfg t0)))
       = (log (run rt cfg events (start cfg t0))
          ++ [CloseServer;
              Resolve {| text := "Failed to open browser: " ++ message;
                         details_plan := plan cfg;
                         status := Pending;
                         review := None;
                         savedPath := None |}])%list
    /\ listening (step rt cfg (Launched code stderr)
                    (run rt cfg events (start cfg t0))) = false
    /\ idle_deadline (step rt cfg (Launched code stderr)
                        (run rt cfg events (start cfg t0))) = None
    /\ (forall r,
           step rt cfg (Request r)
             (step rt cfg (Launched code stderr) (run rt cfg events (start cfg t0)))
           = step rt cfg (Launched code stderr) (run rt cfg events (start cfg t0))).
Proof.
  intros rt cfg t0 events code stderr message L R E.
  pose proof (run_coordinated rt cfg events _ (start_coordinated rt cfg t0))
    as (_ & _ & S & (U1 & U2)).
  pose proof (timed_run rt cfg events _ (timed_start cfg t0)) as T.
  remember (run rt cfg events (start cfg t0)) as w eqn:Hw. clear Hw.
  assert (server w = true) as Hserver by (apply U2; assumption).
  assert (settled w = None) as Hsettled.
  { unfold first_settles in S. rewrite S, U1; [reflexivity | exact R |].
    rewrite L. discriminate. }
  assert (step rt cfg (Launched code stderr) w
          = resolve (pending_result cfg ("Failed to open browser: " ++ message))
              (cleanup (with_launch Settled w))) as ->
    by (cbn [step]; rewrite L, E; reflexivity).
  pose proof (resolve_fields (pending_result cfg ("Failed to open browser: " ++ message))
                (cleanup (with_launch Settled w)))
    as (_ & _ & _ & _ & F5 & _ & F7 & F8 & _ & _ & _ & F12).
  pose proof (cleanup_fields (with_launch Settled w))
    as (_ & _ & C3 & _ & _ & _ & C7 & _).
  cbn [settled server listening with_launch] in C3, C7.
  rewrite Hserver in C7.
  assert (listening (resolve (pending_result cfg ("Failed to open browser: " ++ message))
                       (cleanup (with_launch Settled w))) = false) as Hl
    by (rewrite F5; exact C7).
  split; [rewrite F12, C3, Hsettled; reflexivity|].
  split; [rewrite resolve_log, cleanup_log; cbn [log server with_launch];
          rewrite Hserver, <- app_assoc; reflexivity|].
  split; [exact Hl|]. split.
  - unfold idle_deadline. rewrite F8, F7.
    unfold cleanup, close_handle. cbn [server with_launch]. rewrite Hserver.
    unfold clear_idle. cbn [timeoutId with_launch].
    destruct (timeoutId w) as [id|] eqn:Eid;
      cbn [timeoutId timers with_server emit with_listening clearTimeout with_timers
           with_launch]; rewrite ?Eid; [|reflexivity].
    destruct (find _ _) as [t|] eqn:F; [|reflexivity].
    apply find_some in F as [Hin Heq]. apply filter_In in Hin as [_ Hne].
    rewrite Heq in Hne. discriminate.
  - intros r. cbn [step]. rewrite Hl. reflexivity.
Qed.

(** The opener exits with code 1 on the sample session. *)
Lemma C4_launch_failure_witness :
  settled (run Reference.runtime Sample.options Sample.launch_fails
             (start Sample.options 0))
  = Some {| text := "Failed to open browser: Failed to open browser (exit code 1)";
            details_plan := Sample.rate_limiting;
            status := Pending;
            review := None;
            savedPath := None |}
  /\ listening (run Reference.runtime Sample.options Sample.launch_fails
                  (start Sample.options 0)) = false.
Proof.
  destruct (C4_launch_failure Reference.runtime Sample.options 0 [Listening] 1 ""
              "Failed to open browser (exit code 1)")
    as (Hsettled & _ & Hlistening & _).
  - reflexivity.
  - reflexivity.
  - reflexivity.
  - split; [exact Hsettled | exact Hlistening].
Defined.

(** C4, as stated, fails: after a failed launch the server is closed, so
    the session URL is not reachable for a retry: a GET of the page is
    not served (the log stays as it was, with no answer in it), and the
    idle timer is gone. *)
Lemma C4_server_closed_on_launch_failure :
  listening (run Reference.runtime Sample.options Sample.launch_fails
               (start Sample.options 0)) = false
  /\ log (run Reference.runtime Sample.options Sample.launch_fails
            (start Sample.options 0))
     = [OpenBrowser; CloseServer;
        Resolve (pending_result Sample.options
                   "Failed to open browser: Failed to open browser (exit code 1)")]
  /\ responses (log (run Reference.runtime Sample.options
                       (Sample.launch_fails ++ [Sample.get "/"])
                       (start Sample.options 0)))
     = []
  /\ timers (run Reference.runtime Sample.options Sample.launch_fails
               (start Sample.options 0))
     = [].
Proof. vm_compute. repeat split. Qed.

(** C2 fails on the code: [review.selectedPhases || ...] keeps an empty
    array, which is truthy.  For the approval of the two-phase plan with
    [selectedPhases: []] the effective selection is empty: both phases
    are rendered as excluded stubs, and the summary lists no phase. *)
Lemma C2_empty_selection_excludes_all :
  effective_phases Sample.rate_limiting (Some Sample.approve_none) = JArr []
  /\ phase_loop (effective_phases Sample.rate_limiting (Some Sample.approve_none)) []
       (phases Sample.rate_limiting)
     = Ok (stub_block Sample.phase1 ++ stub_block Sample.phase2)%list
  /\ selected_of (effective_phases Sample.rate_limiting (Some Sample.approve_none))
       (phases Sample.rate_limiting)
     = Ok []
  /\ Reference.parse (Reference.stringify Sample.approve_none)
     = Some Sample.approve_none
  /\ List.length
       (writes (log (run Reference.runtime Sample.options
                       [Sample.post "/submit" (Reference.stringify Sample.approve_none);
                        Elapse 500]
                       (Sample.opened 0))))
     = 1%nat.
Proof. vm_compute. repeat split. Qed.

End CoordinatorTheorems.

(* ================================================================== *)
(** ** The label, the commands and the prompt *)

Module CommandFacts.
Import Js Text Plan Session Commands TextFacts.

Lemma slice0_length (n : nat) (s : string) :
  String.length (slice0 n s) = Nat.min n (String.length s).
Proof.
  revert s. induction n as [|n IH]; intros [|c s]; cbn; auto.
Qed.

Lemma length_append (a b : string) :
  String.length (a ++ b) = (String.length a + String.length b)%nat.
Proof. induction a as [|c a IH]; cbn; auto. Qed.

Lemma slice0_prefix (n : nat) (s : string) : prefix (slice0 n s) s = true.
Proof.
  revert s. induction n as [|n IH]; intros [|c s]; cbn; auto.
  destruct (ascii_dec c c); [apply IH | congruence].
Qed.

Lemma rtrim_idem (s : string) : rtrim (rtrim s) = rtrim s.
Proof.
  induction s as [|c s IH]; [reflexivity|].
  cbn [rtrim]. destruct (rtrim s) as [|d r] eqn:E.
  - destruct (is_space c) eqn:Hc; [reflexivity|]. cbn [rtrim]. now rewrite Hc.
  - cbn [rtrim]. cbn [rtrim] in IH. rewrite IH. reflexivity.
Qed.

(** What [ltrim] leaves does not start with white space, and [rtrim]
    keeps its first character. *)
Lemma ltrim_rtrim (s : string) : ltrim (rtrim (ltrim s)) = rtrim (ltrim s).
Proof.
  induction s as [|c s IH]; [reflexivity|].
  cbn [ltrim]. destruct (is_space c) eqn:Hc; [exact IH|].
  cbn [rtrim]. destruct (rtrim s); rewrite ?Hc; cbn [ltrim]; rewrite Hc; reflexivity.
Qed.

Lemma trim_idem (s : string) : trim (trim s) = trim s.
Proof. unfold trim. now rewrite ltrim_rtrim, rtrim_idem. Qed.

Lemma endsWith_append (a b : string) : endsWith b (a ++ b) = true.
Proof.
  induction a as [|c a IH].
  - destruct b; cbn; rewrite ?String.eqb_refl, ?Ascii.eqb_refl; reflexivity.
  - cbn [append endsWith]. destruct (String.eqb (String c (a ++ b)) b); [reflexivity|exact IH].
Qed.

Lemma append_not_empty (a : string) (c : ascii) (b : string) :
  String.eqb (a ++ String c b) "" = false.
Proof. destruct a; reflexivity. Qed.

Lemma filename_shape (rt : Runtime) (cfg : Config) (t : Z) :
  endsWith ".md" (filename_at rt cfg t) = true
  /\ String.eqb (filename_at rt cfg t) "" = false.
Proof.
  unfold filename_at, generatePlanId. split.
  - rewrite <- !append_assoc. apply endsWith_append.
  - rewrite !append_assoc. apply append_not_empty.
Qed.

Lemma append_cancel (a x y : string) : a ++ x = a ++ y -> x = y.
Proof.
  induction a as [|c a IH]; cbn; [auto|]. intros [= H]. auto.
Qed.

Lemma fileContext_from (read : string -> option string) (files : list string)
    (acc : string) :
  fold_left
    (fun acc file =>
       match read file with
       | Some content => acc ++ file_section file content
       | None => acc
       end) files acc
  = acc ++ fileContext read files.
Proof.
  unfold fileContext. revert acc.
  induction files as [|f files IH]; intros acc; cbn [fold_left].
  - now rewrite append_nil_r.
  - rewrite IH. rewrite (IH (match read f with
                              | Some content => "" ++ file_section f content
                              | None => ""
                              end)).
    destruct (read f); cbn [append]; [now rewrite append_assoc | reflexivity].
Qed.

Lemma fileContext_cons (read : string -> option string) (f : string)
    (files : list string) :
  fileContext read (f :: files)
  = match read f with
    | Some content => file_section f content
    | None => ""
    end ++ fileContext read files.
Proof.
  unfold fileContext at 1. cbn [fold_left]. rewrite fileContext_from.
  destruct (read f); reflexivity.
Qed.

Lemma fileContext_empty (read : string -> option string) (files : list string) :
  (forall f, In f files -> read f = None) <-> fileContext read files = "".
Proof.
  induction files as [|f files IH]; [split; [reflexivity | intros _ g []]|].
  rewrite fileContext_cons. split.
  - intros Hall. rewrite (Hall f (or_introl eq_refl)). cbn [append].
    apply IH. intros g Hg. apply Hall. now right.
  - destruct (read f) as [content|] eqn:R; [discriminate|].
    cbn [append]. intros Hrest g [<-|Hg]; [exact R|].
    destruct IH as [_ IH]. exact (IH Hrest g Hg).
Qed.

End CommandFacts.

Module CommandTheorems.
Import Js Text Plan Session Commands TextFacts CommandFacts.

(** X1. The label [renderCall] shows is never longer than 50 characters:
    a task of at most 50 characters is shown whole, a longer one is cut to
    its first 47 characters followed by three dots, 50 characters in all;
    a missing or empty task is shown as [Implementation plan]. *)
Theorem renderCall_label_fits :
  forall task : option string,
    (String.length (renderCall_label task) <= 50)%nat
    /\ (present task = None -> renderCall_label task = "Implementation plan")
    /\ (forall t,
           present task = Some t -> (String.length t <= 50)%nat ->
           renderCall_label task = t)
    /\ (forall t,
           present task = Some t -> (50 < String.length t)%nat ->
           renderCall_label task = slice0 47 t ++ "..."
           /\ prefix (slice0 47 t) t = true
           /\ String.length (renderCall_label task) = 50%nat).
Proof.
  intros task. unfold renderCall_label.
  assert (forall t, (50 < String.length t)%nat ->
                    String.length (slice0 47 t ++ "...") = 50%nat) as Hcut.
  { intros t Ht. rewrite length_append, slice0_length.
    change (String.length "...") with 3%nat. lia. }
  split; [|split; [|split]].
  - destruct (present task) as [t|].
    + destruct (50 <? String.length t)%nat eqn:E.
      * apply Nat.ltb_lt in E. rewrite (Hcut t E). lia.
      * apply Nat.ltb_ge in E. exact E.
    + cbn. lia.
  - intros ->. reflexivity.
  - intros t -> Ht. apply Nat.ltb_ge in Ht. now rewrite Ht.
  - intros t -> Ht. pose proof (Hcut t Ht) as Hlen.
    apply Nat.ltb_lt in Ht. rewrite Ht.
    split; [reflexivity|]. split; [apply slice0_prefix | exact Hlen].
Qed.

(** A task of 60 characters is cut to 47 and three dots. *)
Lemma renderCall_label_fits_witness :
  renderCall_label
    (Some "Add rate limiting to the public API and document the limits.")
  = "Add rate limiting to the public API and documen..."
  /\ String.length
       (renderCall_label
          (Some "Add rate limiting to the public API and document the limits."))
     = 50%nat.
Proof.
  destruct (renderCall_label_fits
              (Some "Add rate limiting to the public API and document the limits."))
    as (_ & _ & _ & Hlong).
  destruct (Hlong "Add rate limiting to the public API and document the limits.")
    as (Hcut & _ & Hlen).
  - reflexivity.
  - vm_compute. lia.
  - split; [rewrite Hcut; reflexivity | exact Hlen].
Defined.

(** X2. [/create-plan] sends a message only in interactive mode and only
    for a task that is not blank: the trimmed arguments when they are not
    blank, else the answer to the prompt as it was typed, when it is not
    blank.  When the arguments are not blank the answer plays no part. *)
Theorem create_plan_needs_task :
  forall (hasUI : bool) (args input : option string),
    (forall message,
        create_plan hasUI args input = SendUserMessage message ->
        hasUI = true
        /\ exists task,
             message = "Create an implementation plan for: " ++ task
             /\ String.eqb (trim task) "" = false
             /\ ((exists a, args = Some a /\ task = trim a)
                 \/ (present (option_map trim args) = None /\ input = Some task)))
    /\ (present (option_map trim args) = None ->
        present (option_map trim input) = None ->
        exists message level, create_plan hasUI args input = Notify message level)
    /\ (forall task other,
           present (option_map trim args) = Some task ->
           create_plan hasUI args other = create_plan hasUI args input).
Proof.
  intros hasUI args input. unfold create_plan.
  split; [|split].
  - intros message. destruct hasUI; cbn [negb]; [|discriminate].
    destruct (present (option_map trim args)) as [task|] eqn:A.
    + intros [= <-]. split; [reflexivity|]. exists task.
      split; [reflexivity|].
      destruct args as [a|]; [|discriminate A]. cbn [option_map present] in A.
      destruct (String.eqb (trim a) "") eqn:E; [discriminate|].
      injection A as <-. split; [|left; exists a; split; reflexivity].
      rewrite trim_idem. exact E.
    + destruct (present (option_map trim input)) as [t|] eqn:I; [|discriminate].
      destruct input as [task|]; [|discriminate].
      intros [= <-]. split; [reflexivity|]. exists task.
      split; [reflexivity|]. cbn [option_map present] in I.
      destruct (String.eqb (trim task) "") eqn:E; [discriminate|].
      split; [reflexivity|]. right. split; reflexivity.
  - intros -> ->. destruct hasUI; cbn [negb]; eexists _, _; reflexivity.
  - intros task other ->. reflexivity.
Qed.

(** The arguments win over the prompt; blank arguments leave it to the
    answer, which is sent as typed. *)
Lemma create_plan_needs_task_witness :
  create_plan true (Some "  add login ") (Some "ignored")
  = SendUserMessage "Create an implementation plan for: add login"
  /\ create_plan true (Some "   ") (Some " add logout ")
     = SendUserMessage "Create an implementation plan for:  add logout "
  /\ exists message level, create_plan true (Some "   ") (Some "  ") = Notify message level.
Proof.
  destruct (create_plan_needs_task true (Some "   ") (Some "  ")) as (_ & Hblank & _).
  split; [reflexivity|]. split; [reflexivity|].
  apply Hblank; reflexivity.
Defined.

(** X3. A plan that [finish] has saved is offered by [/list-plans]: the
    name of the file ends with [.md], so it passes the filter whenever the
    directory listing holds it; and when the user picks it, the path the
    command passes on is the [savedPath] of the approval. *)
Theorem saved_plan_is_listed :
  forall (rt : Runtime) (cfg : Config) (t : Z) (exists_ : bool)
         (entries : list string) (choose : list string -> option string),
    In (filename_at rt cfg t) entries ->
    In (filename_at rt cfg t) (saved_plans entries)
    /\ (choose (saved_plans entries) = Some (filename_at rt cfg t) ->
        In (SendUserMessage
              ("Read and summarize the plan at: " ++ filepath_at rt cfg t))
           (list_plans (PLANS_DIR cfg) exists_ entries choose)).
Proof.
  intros rt cfg t exists_ entries choose Hin.
  destruct (filename_shape rt cfg t) as [Hmd Hne].
  assert (In (filename_at rt cfg t) (saved_plans entries)) as Hlisted
    by (apply filter_In; split; assumption).
  split; [exact Hlisted|].
  intros Hchoice. unfold list_plans.
  destruct (saved_plans entries) as [|f files] eqn:E; [contradiction|].
  rewrite Hchoice. cbn [present]. rewrite Hne.
  apply in_or_app. right. right. left. reflexivity.
Qed.

(** The sample plan saved at the first instant, beside a text file. *)
Lemma saved_plan_is_listed_witness :
  saved_plans ["notes.txt"; filename_at Reference.runtime Sample.options 0]
  = ["1970-01-01-000000-add-rate-limiting.md"]
  /\ In (SendUserMessage
           "Read and summarize the plan at: /home/dev/.pi/plans/1970-01-01-000000-add-rate-limiting.md")
        (list_plans "/home/dev/.pi/plans" true
           ["notes.txt"; filename_at Reference.runtime Sample.options 0]
           (@hd_error string)).
Proof.
  destruct (saved_plan_is_listed Reference.runtime Sample.options 0 true
              ["notes.txt"; filename_at Reference.runtime Sample.options 0]
              (@hd_error string)) as [_ Hsent].
  - right. left. reflexivity.
  - split; [vm_compute; reflexivity|]. apply Hsent. vm_compute. reflexivity.
Defined.

(** X4. Files of [contextFiles] that are missing or cannot be read are
    skipped without a trace: the context is the sections of the readable
    files in their order, it is empty exactly when no file could be read,
    and exactly then the prompt is the prompt of a call without files. *)
Theorem unreadable_files_are_skipped :
  forall (read : string -> option string) (files : list string) (task : string),
    fileContext read files
    = String.concat ""
        (flat_map (fun f => match read f with
                            | Some content => [file_section f content]
                            | None => []
                            end) files)
    /\ ((forall f, In f files -> read f = None) <-> fileContext read files = "")
    /\ ((forall f, In f files -> read f = None)
        <-> userPrompt task (fileContext read files) = userPrompt task (fileContext read [])).
Proof.
  intros read files task.
  split; [|split; [apply fileContext_empty|]].
  - induction files as [|f files IH]; [reflexivity|].
    rewrite fileContext_cons. cbn [flat_map]. rewrite IH.
    destruct (read f) as [content|]; [|reflexivity].
    cbn [app]. destruct (flat_map _ files) as [|x l]; cbn [String.concat].
    + now rewrite append_nil_r.
    + reflexivity.
  - rewrite fileContext_empty. split; [intros ->; reflexivity|].
    change (fileContext read []) with "".
    destruct (fileContext read files) as [|c ctx] eqn:E; [reflexivity|].
    unfold userPrompt. cbn [String.eqb].
    intros H. rewrite !append_assoc in H.
    do 6 (apply append_cancel in H). discriminate H.
Qed.

(** Of two files, the readable one alone is in the context. *)
Lemma unreadable_files_are_skipped_witness :
  fileContext (fun f => if String.eqb f "a.ts" then Some "export {}" else None)
    ["missing.ts"; "a.ts"]
  = file_section "a.ts" "export {}"
  /\ fileContext (fun _ => None) ["missing.ts"; "gone.ts"] = "".
Proof.
  destruct (unreadable_files_are_skipped (fun _ => None) ["missing.ts"; "gone.ts"] "task")
    as (_ & [Hnone _] & _).
  split; [reflexivity|]. apply Hnone. reflexivity.
Defined.

End CommandTheorems.

(* ================================================================== *)
(** ** The page's submit *)

Module ClientFacts.
Import Js Text Plan Session Observe Client RendererFacts.

Ltac digit_value_of :=
  match goal with
  | |- context [Reference.digit_value ?c] =>
      let v := eval vm_compute in (Reference.digit_value c) in
      change (Reference.digit_value c) with v
  end.

Lemma digits_acc (d : Decimal.uint) (p : positive) :
  Reference.digits (Z.pos p) (NilEmpty.string_of_uint d)
  = (Z.pos (Pos.of_uint_acc d p), EmptyString).
Proof.
  revert p.
  induction d as [|d IH|d IH|d IH|d IH|d IH|d IH|d IH|d IH|d IH|d IH]; intros p;
    [reflexivity|..];
    cbn [NilEmpty.string_of_uint Reference.digits Pos.of_uint_acc];
    match goal with
    | |- context [Reference.is_digit ?c] => change (Reference.is_digit c) with true
    end;
    cbv iota; rewrite <- IH; f_equal; digit_value_of; lia.
Qed.

Lemma digits_uint (d : Decimal.uint) :
  Reference.digits 0 (NilEmpty.string_of_uint d)
  = (Z.of_N (Pos.of_uint d), EmptyString).
Proof.
  induction d as [|d IH|d IH|d IH|d IH|d IH|d IH|d IH|d IH|d IH|d IH];
    [reflexivity|..];
    cbn [NilEmpty.string_of_uint Reference.digits Pos.of_uint];
    match goal with
    | |- context [Reference.is_digit ?c] => change (Reference.is_digit c) with true
    end;
    cbv iota; digit_value_of; [exact IH|..]; apply digits_acc.
Qed.

(** The numeral of a positive number starts with a digit. *)
Lemma numeral_head (p : positive) :
  exists c s,
    NilZero.string_of_uint (Pos.to_uint p) = String c s
    /\ NilEmpty.string_of_uint (Pos.to_uint p) = String c s
    /\ Reference.is_digit c = true.
Proof.
  pose proof (DecimalPos.Unsigned.to_uint_nonnil p) as H.
  destruct (Pos.to_uint p); [contradiction|..]; eexists _, _; repeat split.
Qed.

(** The value of a phase's check box, [`${phase.number}`], read back by
    [parseInt(cb.value, 10)]. *)
Lemma parseInt10_numeral (n : Z) : parseInt10 (Z_to_string n) = JNum n.
Proof.
  unfold Z_to_string. destruct n as [|p|p]; [reflexivity| |];
    cbn [Z.to_int NilZero.string_of_int];
    destruct (numeral_head p) as (c & s & H0 & H1 & Hd);
    pose proof (digits_uint (Pos.to_uint p)) as Hv;
    rewrite DecimalPos.Unsigned.of_to in Hv; rewrite H1 in Hv.
  - rewrite H0. unfold parseInt10.
    assert (is_space c = false /\ c <> "-"%char /\ c <> "+"%char) as (Hs & Hm & Hp).
    { clear - Hd. destruct c as [[] [] [] [] [] [] [] []]; try discriminate Hd;
        repeat split; discriminate. }
    cbn [ltrim]. rewrite Hs.
    destruct c as [[] [] [] [] [] [] [] []]; try discriminate Hd;
      try congruence; rewrite Hv; reflexivity.
  - rewrite H0. unfold parseInt10. cbn [ltrim].
    change (is_space "-") with false. cbv iota.
    rewrite Hd, Hv. reflexivity.
Qed.

Lemma checked_numbers (ps : list PlanPhase) (ins : list input) :
  map value ins = map (fun p => Z_to_string (number p)) ps ->
  map parseInt10 (checked_values ins)
  = map JNum (map number (map fst (filter (fun pc => checked (snd pc))
                                          (combine ps ins)))).
Proof.
  revert ins. induction ps as [|p ps IH]; intros [|i ins] H; try discriminate H;
    [reflexivity|].
  cbn [map] in H. injection H as Hv Hrest.
  unfold checked_values in *. cbn [combine filter snd].
  destruct (checked i); cbn [map fst]; [|exact (IH ins Hrest)].
  rewrite Hv, parseInt10_numeral. f_equal. exact (IH ins Hrest).
Qed.

Lemma checked_among (ps : list PlanPhase) (ins : list input) (p : PlanPhase) :
  In p (map fst (filter (fun pc => checked (snd pc)) (combine ps ins))) -> In p ps.
Proof.
  intros H. apply in_map_iff in H as ([q i] & <- & H).
  apply filter_In in H as [H _]. exact (in_combine_l _ _ _ _ H).
Qed.

Lemma all_checked (ps : list PlanPhase) (ins : list input) :
  List.length ins = List.length ps -> forallb checked ins = true ->
  map fst (filter (fun pc => checked (snd pc)) (combine ps ins)) = ps.
Proof.
  revert ins. induction ps as [|p ps IH]; intros [|i ins] L H; try discriminate L;
    [reflexivity|].
  cbn [forallb] in H. apply andb_prop in H as [Hi H].
  cbn [combine filter snd]. rewrite Hi. cbn [map fst]. f_equal.
  apply IH; [now injection L | exact H].
Qed.

Lemma selected_member (ps : list PlanPhase) (p : PlanPhase) :
  In p ps -> selected (map number ps) p = true.
Proof.
  intros H. unfold selected. apply existsb_exists. exists (number p).
  split; [now apply in_map | apply Z.eqb_refl].
Qed.

Lemma all_full (ps qs : list PlanPhase) :
  incl qs ps -> map (phase_block (map number ps)) qs = map full_block qs.
Proof.
  intros H. apply map_ext_in. intros p Hp. unfold phase_block.
  now rewrite (selected_member ps p (H p Hp)).
Qed.

Lemma parseInt10_stringable (s : string) : stringable (parseInt10 s) = true.
Proof.
  unfold parseInt10.
  destruct (match ltrim s with
            | String "-" r => r
            | String "+" r => r
            | _ => ltrim s
            end) as [|c rest]; [reflexivity|].
  destruct (Reference.is_digit c); reflexivity.
Qed.

(** What [handleSubmit] sends holds strings, numbers and [null] only. *)
Lemma submitted_legible (plan : ImplementationPlan) (form : Form) :
  legible (handleSubmit plan form) = true.
Proof.
  unfold legible, handleSubmit.
  cbn [prop lookup String.eqb Ascii.eqb Bool.eqb printable stringable andb].
  rewrite !VerdictFacts.strings_stringable. cbn [andb].
  destruct (checked_values (phases_inputs form)) as [|v vs]; cbn [map List.length Nat.ltb Nat.leb index0 hd_error printable].
  - destruct (phases plan); reflexivity.
  - apply parseInt10_stringable.
Qed.

End ClientFacts.

Module ClientTheorems.
Import Js Text Plan Session Observe Client RendererFacts VerdictFacts ClientFacts.

(** X5. The selection the page submits.  On a page whose phase boxes
    are the ones [setupPhaseCheckboxes] wrote, whatever the user has
    checked: [selectedPhases] is the array of the numbers of the checked
    phases, in the order of the plan, and of all phases when no box is
    checked (a plan of at most one phase shows no box).  So every number
    submitted is the number of a phase of the plan, a plan with phases is
    never submitted with an empty selection, the renderer's loop yields
    the blocks of exactly that selection, and a form whose boxes are all
    checked, as they are written, has every phase rendered in full. *)
Theorem page_submits_checked_phases :
  forall (plan : ImplementationPlan) (form : Form),
    map value (phases_inputs form) = map value (setupPhaseCheckboxes plan) ->
    prop (handleSubmit plan form) "selectedPhases"
    = Some (JArr (map JNum (submitted_selection plan form)))
    /\ (forall lines,
           phase_loop (effective_phases plan (Some (handleSubmit plan form)))
             lines (phases plan)
           = Ok (lines ++ List.concat (map (phase_block (submitted_selection plan form))
                                           (phases plan)))%list)
    /\ incl (submitted_selection plan form) (map number (phases plan))
    /\ (phases plan <> [] -> submitted_selection plan form <> [])
    /\ (forallb checked (phases_inputs form) = true ->
        map (phase_block (submitted_selection plan form)) (phases plan)
        = map full_block (phases plan)).
Proof.
  intros plan form Hboxes.
  assert (map parseInt10 (checked_values (phases_inputs form))
          = map JNum (map number (checked_phases plan form))) as Hsel.
  { unfold setupPhaseCheckboxes in Hboxes. unfold checked_phases.
    destruct (List.length (phases plan) <=? 1)%nat.
    - destruct (phases_inputs form); [|discriminate Hboxes].
      destruct (phases plan); reflexivity.
    - apply checked_numbers. rewrite Hboxes, map_map. reflexivity. }
  assert (prop (handleSubmit plan form) "selectedPhases"
          = Some (JArr (map JNum (submitted_selection plan form)))) as Hprop.
  { unfold handleSubmit, submitted_selection. rewrite Hsel.
    cbn [prop lookup String.eqb Ascii.eqb Bool.eqb].
    destruct (checked_phases plan form) as [|k kept]; cbn [map List.length Nat.ltb Nat.leb].
    - now rewrite map_map.
    - reflexivity. }
  split; [exact Hprop|]. split; [|split; [|split]].
  - intros lines.
    rewrite (RendererTheorems.effective_phases_given plan _ _
               (eq_trans (opt_prop_some _ _) Hprop)).
    apply phase_loop_blocks.
  - unfold submitted_selection.
    destruct (checked_phases plan form) as [|k kept] eqn:E; [apply incl_refl|].
    intros n Hn. apply in_map_iff in Hn as (p & <- & Hp). apply in_map.
    rewrite <- E in Hp. exact (checked_among _ _ _ Hp).
  - unfold submitted_selection.
    destruct (checked_phases plan form) as [|k kept]; [|discriminate].
    destruct (phases plan); [congruence | discriminate].
  - intros Hall. unfold submitted_selection.
    assert (checked_phases plan form = [] \/ checked_phases plan form = phases plan) as [->| ->].
    { unfold setupPhaseCheckboxes in Hboxes. unfold checked_phases.
      destruct (List.length (phases plan) <=? 1)%nat.
      - destruct (phases_inputs form); [|discriminate Hboxes].
        left. destruct (phases plan); reflexivity.
      - right. apply all_checked; [|exact Hall].
        rewrite <- (length_map value), Hboxes, !length_map. reflexivity. }
    + apply all_full, incl_refl.
    + destruct (phases plan) eqn:E; [reflexivity|].
      rewrite <- E. apply all_full, incl_refl.
Qed.

(** The sample page with the box of phase 1 cleared submits [2]: a stub
    for phase 1 and the full block of phase 2. *)
Lemma page_submits_checked_phases_witness :
  prop (handleSubmit Sample.rate_limiting second_phase_only) "selectedPhases"
  = Some (JArr [JNum 2])
  /\ phase_loop
       (effective_phases Sample.rate_limiting
          (Some (handleSubmit Sample.rate_limiting second_phase_only)))
       [] (phases Sample.rate_limiting)
     = Ok (stub_block Sample.phase1 ++ full_block Sample.phase2)%list.
Proof.
  destruct (page_submits_checked_phases Sample.rate_limiting second_phase_only)
    as (Hsel & Hloop & _).
  - reflexivity.
  - split; [exact Hsel|]. rewrite (Hloop []). vm_compute. reflexivity.
Defined.

(** X6. Whatever the page holds when [handleSubmit] runs, the decision
    it sends resolves the session: the fields the renderer and the
    summary walk through are arrays, and what they print are strings
    and numbers, so neither throws, and the one call
    of [resolve] carries the decision, as a rejection when the checked
    radio's value is [reject] and as an approval with the saved file
    otherwise (a page without a checked radio approves). *)
Theorem page_decision_resolves :
  forall (rt : Runtime) (cfg : Config) (form : Form) (t : Z),
    walkable (handleSubmit (plan cfg) form) = true
    /\ prop (handleSubmit (plan cfg) form) "decision" = Some (JStr (decision_of form))
    /\ exists r,
         resolutions (verdict_at rt cfg t (handleSubmit (plan cfg) form)) = [r]
         /\ ~ In Uncaught (verdict_at rt cfg t (handleSubmit (plan cfg) form))
         /\ review r = Some (handleSubmit (plan cfg) form)
         /\ status r = (if String.eqb (decision_of form) "reject"
                        then Rejected else Approved)
         /\ savedPath r = (if String.eqb (decision_of form) "reject"
                           then None else Some (filepath_at rt cfg t)).
Proof.
  intros rt cfg form t.
  assert (walkable (handleSubmit (plan cfg) form) = true) as Hw by reflexivity.
  pose proof (submitted_legible (plan cfg) form) as Hl.
  split; [exact Hw|]. split; [reflexivity|].
  unfold verdict_at.
  assert (is_rejection (handleSubmit (plan cfg) form)
          = String.eqb (decision_of form) "reject") as -> by reflexivity.
  destruct (String.eqb (decision_of form) "reject").
  - assert (exists reason,
               rejection_reason (handleSubmit (plan cfg) form) = Ok reason)
      as [reason ->].
    { unfold rejection_reason. rewrite opt_prop_some.
      change (prop (handleSubmit (plan cfg) form) "notes")
        with (Some (JStr (trim (notes_textarea form)))).
      destruct (truthy _); eexists; reflexivity. }
    eexists. split; [reflexivity|]. split; [|repeat split].
    intros [H|[]]. discriminate H.
  - destruct (renderer_returns _ _ _ (toISOString rt t)
                (planToMarkdown_walkable (StringToNumber_pos rt) (plan cfg) _
                   (toISOString rt t) Hw Hl)) as [markdown ->].
    destruct (summary_walkable rt cfg _ (filepath_at rt cfg t) Hw Hl) as [s ->].
    eexists. split; [reflexivity|]. split; [|repeat split].
    intros [H|[H|[H|[]]]]; discriminate H.
Qed.

End ClientTheorems.

(* ================================================================== *)
(** ** Liveness and teardown of a session *)

Module LivenessFacts.
Import Js Text Plan Session Observe Schedule SessionFacts TimerFacts ServerTheorems
       VerdictFacts.

Section Liveness.
Variable rt : Runtime.
Variable cfg : Config.

Lemma idle_after_pos : 1 <= idle_after cfg.
Proof.
  unfold idle_after, TIMEOUT_MAX.
  destruct ((1 <=? timeout cfg * 1000) && (timeout cfg * 1000 <=? 2147483647)) eqn:E;
    [|lia].
  apply andb_prop in E as [E _]. lia.
Qed.

Lemma run_app (l1 l2 : list event) (w : world) :
  run rt cfg (l1 ++ l2) w = run rt cfg l2 (run rt cfg l1 w).
Proof. unfold run. apply fold_left_app. Qed.

Lemma served_waiting (t0 : Z) (stderr : string) : waiting cfg (served rt cfg t0 stderr).
Proof.
  unfold waiting. cbn. repeat split. exists 0%nat. split; reflexivity.
Qed.

Lemma served_coordinated (t0 : Z) (stderr : string) :
  coordinated rt cfg (served rt cfg t0 stderr).
Proof. apply run_coordinated, start_coordinated. Qed.

Lemma waiting_deadline (w : world) :
  waiting cfg w -> idle_deadline w = Some (now w + idle_after cfg).
Proof.
  intros (_ & _ & _ & _ & _ & _ & id & I & T).
  unfold idle_deadline. rewrite I, T. cbn [find timer_id].
  now rewrite Nat.eqb_refl.
Qed.

Lemma reset_waiting (w : world) (id : nat) (d : Z) :
  resolved w = false -> settled w = None -> calls w = [] ->
  server w = true -> listening w = true ->
  timeoutId w = Some id ->
  timers w = [{| timer_id := id; due := d; action := IdleExpired |}] ->
  waiting cfg (resetTimeout cfg w).
Proof.
  intros R S C V L I T.
  destruct (resetTimeout_state cfg w) as (N1 & _ & R3 & R4 & _ & R6).
  destruct (same_resetTimeout cfg w) as (A1 & A2 & A3 & _ & A5 & A6 & _).
  unfold waiting. rewrite A1, A2, A3, A5, A6, N1, R3, R4, R6, I, T.
  cbn [filter timer_id]. rewrite Nat.eqb_refl. cbn [negb app].
  repeat split; auto. exists (next_id w). split; reflexivity.
Qed.

Lemma waiting_emit (e : effect) (w : world) : waiting cfg w -> waiting cfg (emit e w).
Proof. intros H. exact H. Qed.

(** Before the deadline nothing runs. *)
Lemma waiting_quiet (w : world) (ms : Z) :
  waiting cfg w -> Z.max 0 ms < idle_after cfg ->
  elapse rt cfg ms w = with_clock (fun _ => now w + Z.max 0 ms) w.
Proof.
  intros (_ & _ & _ & _ & _ & _ & id & I & T) H.
  unfold elapse. rewrite T. cbn [List.length run_timers]. rewrite T.
  cbn [next_due due].
  destruct (Z.leb_spec (now w + idle_after cfg) (now w + Z.max 0 ms)); [lia|].
  reflexivity.
Qed.

Lemma waiting_get (w : world) (r : request) (at_ : Z) :
  waiting cfg w -> method r = "GET" ->
  waiting cfg (handle rt cfg r (with_clock (fun _ => at_) w)).
Proof.
  intros (R & S & C & V & L & _ & id & I & T) M.
  assert (waiting cfg (resetTimeout cfg (with_clock (fun _ => at_) w))) as W1
    by (apply (reset_waiting _ id (now w + idle_after cfg)); assumption).
  destruct (handle_get rt cfg r (with_clock (fun _ => at_) w) M) as [[x ->]|[_ ->]].
  - apply waiting_emit, W1.
  - apply waiting_emit.
    destruct W1 as (R1 & S1 & C1 & V1 & L1 & _ & id1 & I1 & T1).
    eapply reset_waiting; eassumption.
Qed.

Lemma beat_waiting (w : world) (g : Z * string) :
  waiting cfg w -> fst g < idle_after cfg -> waiting cfg (run rt cfg (beat g) w).
Proof.
  intros W H. unfold beat. cbn [run fold_left step].
  rewrite (waiting_quiet w (fst g) W) by (pose proof idle_after_pos; lia).
  destruct W as (R & S & C & V & L & A & E).
  cbn [listening with_clock]. rewrite L.
  apply waiting_get; [|reflexivity].
  exact (conj R (conj S (conj C (conj V (conj L (conj A E)))))).
Qed.

Lemma beats_waiting (gaps : list (Z * string)) (w : world) :
  Forall (fun g => fst g < idle_after cfg) gaps ->
  waiting cfg w -> waiting cfg (run rt cfg (beats gaps) w).
Proof.
  intros H. revert w. induction H as [|g gaps Hg _ IH]; intros w W; [exact W|].
  unfold beats. cbn [flat_map]. rewrite run_app. apply IH, beat_waiting; assumption.
Qed.

Lemma beats_coordinated (gaps : list (Z * string)) (t0 : Z) (stderr : string) :
  coordinated rt cfg (attended rt cfg t0 stderr gaps).
Proof. apply run_coordinated, served_coordinated. Qed.

End Liveness.
End LivenessFacts.

Module LivenessTheorems.
Import Js Text Plan Session Observe Schedule SessionFacts TimerFacts ServerTheorems
       VerdictFacts LivenessFacts.

(** X7. Heartbeats keep a session alive.  Once the server listens and
    the browser is open, a client that sends GET requests, of any path,
    each less than the idle delay after the one before, never lets the
    session end: after any number of them [finish] has not been called,
    the server still listens, and the idle timer is due a whole idle
    delay later.  The page's heartbeat, one GET every 10 s, does so for
    the 600 s that [execute] allows, however long the page stays open. *)
Theorem heartbeats_keep_alive :
  forall (rt : Runtime) (cfg : Config) (t0 : Z) (stderr : string),
    (forall gaps,
        Forall (fun g => fst g < idle_after cfg) gaps ->
        resolved (attended rt cfg t0 stderr gaps) = false
        /\ calls (attended rt cfg t0 stderr gaps) = []
        /\ listening (attended rt cfg t0 stderr gaps) = true
        /\ idle_deadline (attended rt cfg t0 stderr gaps)
           = Some (now (attended rt cfg t0 stderr gaps)
                   + idle_after cfg))
    /\ (timeout cfg = 600 ->
        forall n,
          resolved (run rt cfg (page_heartbeats n) (served rt cfg t0 stderr)) = false
          /\ listening (run rt cfg (page_heartbeats n) (served rt cfg t0 stderr)) = true).
Proof.
  intros rt cfg t0 stderr.
  assert (forall gaps,
             Forall (fun g => fst g < idle_after cfg) gaps ->
             waiting cfg (attended rt cfg t0 stderr gaps)) as H
    by (intros gaps Hg; apply beats_waiting; [exact Hg | apply served_waiting]).
  unfold attended in *.
  split.
  - intros gaps Hg. specialize (H gaps Hg).
    pose proof (waiting_deadline cfg _ H) as D.
    destruct H as (R & _ & C & _ & L & _). auto.
  - intros Ht n. unfold page_heartbeats.
    destruct (H (repeat (Client.heartbeat_interval, "/heartbeat") n))
      as (R & _ & _ & _ & L & _); [|auto].
    apply Forall_forall. intros g Hg. apply repeat_spec in Hg. subst g.
    unfold idle_after. rewrite Ht. reflexivity.
Qed.

(** Three heartbeats of the page on the sample session: 30 s in, the
    deadline is at 630 s. *)
Lemma heartbeats_keep_alive_witness :
  resolved (run Reference.runtime Sample.options (page_heartbeats 3)
              (served Reference.runtime Sample.options 0 "")) = false
  /\ idle_deadline
       (attended Reference.runtime Sample.options 0 ""
          [(10000, "/heartbeat"); (10000, "/heartbeat"); (10000, "/heartbeat")])
     = Some 630000.
Proof.
  destruct (heartbeats_keep_alive Reference.runtime Sample.options 0 "") as [Hany Hpage].
  destruct (Hpage eq_refl 3%nat) as [R _].
  destruct (Hany [(10000, "/heartbeat"); (10000, "/heartbeat"); (10000, "/heartbeat")])
    as (_ & _ & _ & D).
  - repeat constructor.
  - split; [exact R|]. rewrite D. vm_compute. reflexivity.
Defined.

(** X8. The idle timeout is exact.  After any such run of requests, when
    nothing more arrives: as long as less than the idle delay has passed
    since the last request the session is unresolved; once the idle delay
    has passed, [finish] has been called once, with [null], at the instant
    of the last request plus the idle delay.  The session then resolves as
    rejected without a reason, the server is closed, no timer is left and
    no file is written. *)
Theorem idle_timeout_is_exact :
  forall (rt : Runtime) (cfg : Config) (t0 : Z) (stderr : string)
         (gaps : list (Z * string)) (ms : Z),
    Forall (fun g => fst g < idle_after cfg) gaps ->
    (ms < idle_after cfg ->
     resolved (step rt cfg (Elapse ms)
                 (attended rt cfg t0 stderr gaps)) = false)
    /\ (idle_after cfg <= ms ->
        calls (step rt cfg (Elapse ms)
                 (attended rt cfg t0 stderr gaps))
        = [(now (attended rt cfg t0 stderr gaps) + idle_after cfg,
            JNull)]
        /\ settled (step rt cfg (Elapse ms)
                      (attended rt cfg t0 stderr gaps))
           = Some (rejected_result cfg JNull "No reason provided")
        /\ listening (step rt cfg (Elapse ms)
                        (attended rt cfg t0 stderr gaps)) = false
        /\ timers (step rt cfg (Elapse ms)
                     (attended rt cfg t0 stderr gaps)) = []
        /\ closes (log (step rt cfg (Elapse ms)
                          (attended rt cfg t0 stderr gaps))) = 1%nat
        /\ writes (log (step rt cfg (Elapse ms)
                          (attended rt cfg t0 stderr gaps))) = []).
Proof.
  intros rt cfg t0 stderr gaps ms Hg.
  pose proof (beats_waiting rt cfg gaps _ Hg (served_waiting rt cfg t0 stderr)) as W.
  pose proof (beats_coordinated rt cfg gaps t0 stderr) as Co.
  fold (attended rt cfg t0 stderr gaps) in W, Co.
  remember (attended rt cfg t0 stderr gaps) as w eqn:Hw. clear Hw.
  pose proof (idle_after_pos cfg) as Hpos.
  cbn [step]. split.
  - intros Hms. rewrite (waiting_quiet rt cfg w ms W) by lia. apply W.
  - intros Hms.
    pose proof (unresolved_clean rt cfg w Co (proj1 W)) as Hclean.
    destruct Co as (_ & (_ & K2 & _) & _).
    destruct W as (R & S & C & V & L & _ & id & I & T).
    destruct (K2 V) as [Hcl _].
    unfold elapse. rewrite T. cbn [List.length run_timers]. rewrite T.
    cbn [next_due due].
    destruct (Z.leb_spec (now w + idle_after cfg) (now w + Z.max 0 ms)); [|lia].
    cbn [action timer_id due fire].
    set (w1 := clearTimeout id (with_clock (fun t => Z.max t (now w + idle_after cfg)) w)).
    assert (resolved w1 = false) as R1 by exact R.
    assert (timers w1 = []) as T1.
    { subst w1. cbn [timers clearTimeout with_timers with_clock]. rewrite T.
      cbn [filter timer_id]. now rewrite Nat.eqb_refl. }
    assert (now w1 = now w + idle_after cfg) as N1 by (subst w1; cbn; lia).
    pose proof (finish_unresolved_fields rt cfg JNull w1 R1)
      as (F1 & _ & _ & _ & F5 & _ & _ & F8).
    pose proof (finish_unresolved_log rt cfg JNull w1 R1) as FL.
    cbn [calls settled listening timers log with_clock].
    rewrite F1, F5, F8, FL, N1.
    change (calls w1) with (calls w). change (settled w1) with (settled w).
    change (server w1) with (server w). change (log w1) with (log w).
    rewrite C, S, V.
    rewrite !closes_app, !writes_app, Hcl.
    rewrite <- (writes_of_finish (log w)), Hclean.
    split; [reflexivity|]. split; [reflexivity|]. split; [reflexivity|].
    split; [|split; reflexivity].
    destruct (finish_timer_state rt cfg JNull w1) as [Hf|Hf];
      unfold timer_state in Hf; injection Hf as _ _ Ht _ _; rewrite Ht; [exact T1|].
    unfold clear_idle. destruct (timeoutId w1); [|exact T1].
    cbn [timers clearTimeout with_timers]. now rewrite T1.
Qed.

(** The sample session left alone: unresolved at 599.999 s, rejected at
    600 s. *)
Lemma idle_timeout_is_exact_witness :
  resolved (step Reference.runtime Sample.options (Elapse 599999)
              (attended Reference.runtime Sample.options 0 "" [])) = false
  /\ calls (step Reference.runtime Sample.options (Elapse 600000)
              (attended Reference.runtime Sample.options 0 "" []))
     = [(600000, JNull)].
Proof.
  destruct (idle_timeout_is_exact Reference.runtime Sample.options 0 "" [] 599999)
    as [Hbefore _]; [constructor|].
  destruct (idle_timeout_is_exact Reference.runtime Sample.options 0 "" [] 600000)
    as [_ Hafter]; [constructor|].
  split.
  - apply Hbefore. reflexivity.
  - destruct Hafter as (Hcalls & _); [vm_compute; discriminate|].
    rewrite Hcalls. reflexivity.
Defined.

End LivenessTheorems.

(* ================================================================== *)
(** ** Requests, answers and the end of a session *)

Module TeardownFacts.
Import Js Text Plan Session Observe Schedule SessionFacts TimerFacts ServerTheorems
       VerdictFacts.

Section Teardown.
Variable rt : Runtime.
Variable cfg : Config.

Lemma responses_app (l l' : list effect) :
  responses (l ++ l') = (responses l ++ responses l')%list.
Proof. unfold responses. now rewrite flat_map_app. Qed.

Lemma silent_writes (l : list effect) : forallb silent l = true -> writes l = [].
Proof.
  induction l as [|e l IH]; [reflexivity|].
  cbn [forallb]. intros H. apply andb_prop in H as [He Hl].
  destruct e; try discriminate He; cbn; auto.
Qed.

Lemma verdict_no_response (t : Z) (review : json) :
  responses (verdict_at rt cfg t review) = [].
Proof.
  unfold verdict_at.
  destruct (is_rejection review); [destruct (rejection_reason review); reflexivity|].
  destruct (planToMarkdown _ _ _ _); [|reflexivity].
  destruct (summary _ _ _ _); reflexivity.
Qed.

Lemma finish_responses (review : json) (w : world) :
  responses (log (finish rt cfg review w)) = responses (log w).
Proof.
  destruct (resolved w) eqn:R; [now rewrite finish_resolved|].
  rewrite (finish_unresolved_log rt cfg review w R), !responses_app, verdict_no_response.
  destruct (server w); cbn; now rewrite app_nil_r.
Qed.

Lemma run_timers_responses (fuel : nat) (target : Z) (w : world) :
  responses (log (run_timers rt cfg fuel target w)) = responses (log w).
Proof.
  revert w. induction fuel as [|fuel IH]; intros w; cbn [run_timers]; [reflexivity|].
  destruct (next_due target (timers w)) as [t|]; [|reflexivity].
  rewrite IH, fire_as_finish, finish_responses. reflexivity.
Qed.

Lemma failure_log (message : string) (w : world) :
  log (resolve (pending_result cfg message) (cleanup (with_launch Settled w)))
  = (log w ++ (if server w then [CloseServer] else [])
     ++ [Resolve (pending_result cfg message)])%list.
Proof. rewrite resolve_log, cleanup_log, <- app_assoc. reflexivity. Qed.

(** The three kinds of requests. *)
Lemma request_kinds (r : request) :
  method r = "GET" \/ (exists cb, terminal rt r = Some cb) \/ plain rt r = true.
Proof.
  unfold plain. destruct (String.eqb (method r) "GET") eqn:G.
  - left. now apply String.eqb_eq.
  - right. destruct (terminal rt r) as [cb|]; [left; now exists cb | right; reflexivity].
Qed.

Lemma handle_plain (r : request) (w : world) :
  plain rt r = true -> handle rt cfg r w = emit (Respond (plain_answer r)) w.
Proof.
  unfold plain, terminal, handle, plain_answer.
  destruct (String.eqb (method r) "OPTIONS"); [reflexivity|].
  destruct (String.eqb (method r) "GET"); [discriminate|].
  destruct (String.eqb (method r) "POST"); cbn [negb andb]; [|reflexivity].
  destruct (String.eqb (pathname r) "/submit").
  - destruct (JSON_parse rt (body r)); [discriminate | reflexivity].
  - destruct (String.eqb (pathname r) "/cancel"); [discriminate | reflexivity].
Qed.

Lemma handle_log (r : request) (w : world) :
  exists x, log (handle rt cfg r w) = (log w ++ [Respond x])%list.
Proof.
  destruct (request_kinds r) as [G|[[cb Hcb]|P]].
  - destruct (resetTimeout_state cfg w) as (_ & _ & _ & _ & L1 & _).
    destruct (resetTimeout_state cfg (resetTimeout cfg w)) as (_ & _ & _ & _ & L2 & _).
    destruct (handle_get rt cfg r w G) as [[x ->]|[_ ->]]; eexists; cbn [log emit];
      rewrite ?L2, L1; reflexivity.
  - rewrite (handle_terminal rt cfg r w cb Hcb).
    destruct (clear_idle_state w) as (_ & _ & _ & _ & C5 & _).
    eexists. cbn [log setTimeout with_timers emit]. rewrite C5. reflexivity.
  - rewrite (handle_plain r w P). eexists. reflexivity.
Qed.

Lemma idle_of_state (w w' : world) :
  timer_state w' = timer_state w -> idle_deadline w' = idle_deadline w.
Proof.
  unfold timer_state, idle_deadline. intros [= _ _ -> -> _]. reflexivity.
Qed.

Lemma find_filtered (p keep : timer -> bool) (l : list timer) :
  find p l = None -> find p (filter keep l) = None.
Proof.
  intros H. destruct (find p (filter keep l)) as [t|] eqn:F; [|reflexivity].
  apply find_some in F as [Hin Hp]. apply filter_In in Hin as [Hin _].
  now rewrite (find_none _ _ H t Hin) in Hp.
Qed.

Lemma clear_idle_deadline (w : world) : idle_deadline (clear_idle w) = None.
Proof.
  unfold idle_deadline, clear_idle.
  destruct (timeoutId w) as [id|] eqn:E;
    cbn [timeoutId timers clearTimeout with_timers]; rewrite E; [|reflexivity].
  destruct (find _ _) as [t|] eqn:F; [|reflexivity].
  apply find_some in F as [Hin Heq]. apply filter_In in Hin as [_ Hne].
  rewrite Heq in Hne. discriminate.
Qed.

Lemma cleared_stays (id : nat) (w : world) :
  idle_deadline w = None -> idle_deadline (clearTimeout id w) = None.
Proof.
  unfold idle_deadline, clearTimeout. cbn [timeoutId timers with_timers].
  destruct (timeoutId w); [|reflexivity].
  destruct (find _ (timers w)) eqn:F; [discriminate|]. intros _.
  now rewrite (find_filtered _ _ _ F).
Qed.

Lemma cleanup_idle (w : world) :
  idle_deadline (cleanup w) = if server w then None else idle_deadline w.
Proof.
  unfold cleanup, close_handle. destruct (server w); [|reflexivity].
  exact (clear_idle_deadline w).
Qed.

Lemma finish_idle (review : json) (w : world) :
  idle_deadline (finish rt cfg review w)
  = if resolved w then idle_deadline w
    else if server w then None else idle_deadline w.
Proof.
  unfold finish. cbn [resolved note_call].
  destruct (resolved w); [reflexivity|].
  pose proof (cleanup_idle (with_resolved true (note_call review w))) as H.
  cbn [server with_resolved note_call] in H.
  change (idle_deadline (with_resolved true (note_call review w)))
    with (idle_deadline w) in H.
  destruct (is_rejection review);
    [destruct (rejection_reason review);
     [rewrite (idle_of_state _ _ (resolve_timer_state _ _))|]; exact H|].
  destruct (planToMarkdown _ _ _ _); [|exact H].
  destruct (summary _ _ _ _);
    [rewrite (idle_of_state _ _ (resolve_timer_state _ _))|]; exact H.
Qed.

Lemma finish_closes (review : json) (w : world) :
  closes (log (finish rt cfg review w))
  = (closes (log w) + if resolved w then 0 else if server w then 1 else 0)%nat.
Proof.
  destruct (resolved w) eqn:R;
    [rewrite finish_resolved by exact R; cbn [log note_call]; lia|].
  rewrite (finish_unresolved_log rt cfg review w R), !closes_app, verdict_no_close.
  destruct (server w);
    [change (closes [CloseServer]) with 1%nat | change (closes []) with 0%nat]; lia.
Qed.

(** [finish] keeps a session whose server was handed over torn down or
    running. *)
Lemma finish_handed (review : json) (w : world) :
  coordinated rt cfg w -> handed_over w -> handed_over (finish rt cfg review w).
Proof.
  intros (_ & (K1 & K2 & _ & _) & _) (H1 & H2 & H3).
  pose proof (finish_idle review w) as I. pose proof (finish_closes review w) as Cl.
  destruct (resolved w) eqn:R.
  - rewrite (finish_resolved rt cfg review w R).
    split; [exact H1|]. split; [intros _; apply H2; reflexivity|].
    intros V. exact (H3 V).
  - destruct (finish_unresolved_fields rt cfg review w R)
      as (_ & F2 & F3 & F4 & F5 & _).
    split; [now rewrite F3|]. split; [intros _; exact F4|]. intros _.
    rewrite F5, I, Cl. destruct (server w) eqn:V.
    + destruct (K2 eq_refl) as [-> _]. repeat split.
    + destruct (H3 eq_refl) as (A & B & C). rewrite A, B, C. repeat split.
Qed.

Lemma same_handed (w w' : world) :
  same_coordinator w w' ->
  (server w = false -> idle_deadline w = None -> idle_deadline w' = None) ->
  handed_over w -> handed_over w'.
Proof.
  intros (_ & A2 & _ & A4 & A5 & A6 & l & AL & AS) Hidle (H1 & H2 & H3).
  destruct (silent_quiet l AS) as (_ & Q2 & _).
  unfold handed_over. rewrite A2, A4, A5, A6, AL, closes_app, Q2, Nat.add_0_r.
  split; [exact H1|]. split; [exact H2|]. intros V.
  destruct (H3 V) as (A & B & C). auto.
Qed.

Lemma failure_handed (message : string) (w : world) :
  coordinated rt cfg w -> handed_over w ->
  handed_over (resolve (pending_result cfg message) (cleanup (with_launch Settled w))).
Proof.
  intros (_ & (K1 & K2 & _ & _) & _) (H1 & H2 & H3).
  pose proof (cleanup_fields (with_launch Settled w))
    as (_ & _ & _ & C4 & C5 & _ & C7 & _).
  pose proof (resolve_fields (pending_result cfg message)
                (cleanup (with_launch Settled w)))
    as (_ & _ & F3 & F4 & F5 & _).
  pose proof (cleanup_idle (with_launch Settled w)) as I.
  cbn [launch server listening with_launch] in C4, C5, C7, I.
  change (idle_deadline (with_launch Settled w)) with (idle_deadline w) in I.
  unfold handed_over.
  rewrite F3, F4, F5, C4, C5, C7, failure_log, !closes_app,
    (idle_of_state _ _ (resolve_timer_state _ _)), I.
  split; [discriminate|]. split; [reflexivity|]. intros _.
  destruct (server w) eqn:V.
  - destruct (K2 eq_refl) as [-> _]. repeat split.
  - destruct (H3 eq_refl) as (A & B & C). rewrite A, B, C. repeat split.
Qed.

Lemma run_timers_handed (fuel : nat) (target : Z) (w : world) :
  coordinated rt cfg w -> handed_over w ->
  handed_over (run_timers rt cfg fuel target w).
Proof.
  revert w. induction fuel as [|fuel IH]; intros w Co H; [exact H|].
  cbn [run_timers]. destruct (next_due target (timers w)) as [t|]; [|exact H].
  set (w1 := clearTimeout (timer_id t) (with_clock (fun t0 => Z.max t0 (due t)) w)).
  assert (same_coordinator w w1) as Sm
    by (eapply same_trans; [apply same_clock | apply same_timers]).
  rewrite fire_as_finish. apply IH.
  - apply finish_coordinated. exact (same_coordinated rt cfg _ _ Sm Co).
  - apply finish_handed; [exact (same_coordinated rt cfg _ _ Sm Co)|].
    apply (same_handed w w1 Sm); [|exact H].
    intros _ Hn. apply cleared_stays. exact Hn.
Qed.

Lemma step_handed (e : event) (w : world) :
  coordinated rt cfg w -> handed_over w -> handed_over (step rt cfg e w).
Proof.
  intros Co H. pose proof H as (H1 & H2 & H3).
  destruct e as [|message|code stderr|r| |ms]; cbn [step].
  - destruct (launch w); [contradiction | exact H | exact H].
  - destruct (launch w); [contradiction | exact H | exact H].
  - destruct (launch w) eqn:E; try exact H.
    destruct (openUrl_error code stderr); [apply failure_handed; assumption|].
    unfold handed_over. cbn [launch resolved server listening log with_launch].
    change (idle_deadline (with_launch Settled w)) with (idle_deadline w).
    split; [discriminate|]. split; assumption.
  - destruct (listening w) eqn:L; [|exact H].
    apply (same_handed w _ (same_handle rt cfg r w)); [|exact H].
    destruct Co as (_ & (K1 & _) & _). intros V. congruence.
  - destruct (abort_armed w); [|exact H].
    apply finish_handed; [|exact H].
    eapply same_coordinated; [|exact Co]. repeat split. exists []. cbn.
    now rewrite app_nil_r.
  - unfold elapse.
    apply (same_handed _ _ (same_clock _ _)); [auto|].
    apply run_timers_handed; assumption.
Qed.

Lemma run_handed (events : list event) (w : world) :
  coordinated rt cfg w -> handed_over w -> handed_over (run rt cfg events w).
Proof.
  revert w. induction events as [|e events IH]; intros w Co H; [exact H|].
  cbn [run fold_left]. apply IH; [apply step_coordinated, Co | apply step_handed; assumption].
Qed.

(** A session resolved while the server runs on. *)
Lemma finish_orphaned (review : json) (w : world) :
  orphaned cfg w -> orphaned cfg (finish rt cfg review w).
Proof.
  intros H. pose proof H as (_ & R & _). rewrite (finish_resolved rt cfg review w R).
  exact H.
Qed.

Lemma same_orphaned (w w' : world) :
  same_coordinator w w' -> orphaned cfg w -> orphaned cfg w'.
Proof.
  intros (_ & A2 & A3 & A4 & A5 & A6 & l & AL & AS) H.
  destruct (silent_quiet l AS) as (_ & Q2 & _).
  unfold orphaned. rewrite A2, A3, A4, A5, A6, AL, closes_app, Q2, Nat.add_0_r.
  exact H.
Qed.

Lemma run_timers_orphaned (fuel : nat) (target : Z) (w : world) :
  orphaned cfg w -> orphaned cfg (run_timers rt cfg fuel target w).
Proof.
  revert w. induction fuel as [|fuel IH]; intros w H; [exact H|].
  cbn [run_timers]. destruct (next_due target (timers w)) as [t|]; [|exact H].
  rewrite fire_as_finish. apply IH, finish_orphaned.
  eapply same_orphaned; [|exact H].
  eapply same_trans; [apply same_clock | apply same_timers].
Qed.

Lemma step_orphaned (e : event) (w : world) :
  orphaned cfg w -> orphaned cfg (step rt cfg e w).
Proof.
  intros H. pose proof H as (La & _).
  destruct e as [|message|code stderr|r| |ms]; cbn [step]; rewrite ?La; try exact H.
  - destruct (listening w); [|exact H].
    exact (same_orphaned _ _ (same_handle rt cfg r w) H).
  - destruct (abort_armed w); [|exact H]. apply finish_orphaned. exact H.
  - unfold elapse. apply (same_orphaned _ _ (same_clock _ _)).
    apply run_timers_orphaned, H.
Qed.

Lemma run_orphaned (events : list event) (w : world) :
  orphaned cfg w -> orphaned cfg (run rt cfg events w).
Proof.
  revert w. induction events as [|e events IH]; intros w H; [exact H|].
  cbn [run fold_left]. apply IH, step_orphaned, H.
Qed.

(** The promise keeps its value, and a resolved session stays resolved
    and writes no file. *)
Lemma finish_final (review : json) (w : world) :
  (forall x, settled w = Some x -> settled (finish rt cfg review w) = Some x)
  /\ (resolved w = true ->
      resolved (finish rt cfg review w) = true
      /\ writes (log (finish rt cfg review w)) = writes (log w)).
Proof.
  split.
  - intros x S. destruct (resolved w) eqn:R; [now rewrite finish_resolved|].
    destruct (finish_unresolved_fields rt cfg review w R) as (_ & _ & _ & _ & _ & _ & _ & F8).
    now rewrite F8, S.
  - intros R. rewrite (finish_resolved rt cfg review w R). split; [exact R | reflexivity].
Qed.

Lemma same_final (w w' : world) :
  same_coordinator w w' ->
  settled w' = settled w /\ resolved w' = resolved w /\ writes (log w') = writes (log w).
Proof.
  intros (_ & A2 & A3 & _ & _ & _ & l & AL & AS).
  rewrite A2, A3, AL, writes_app, (silent_writes l AS), app_nil_r. auto.
Qed.

Lemma failure_final (message : string) (w : world) :
  (forall x, settled w = Some x ->
             settled (resolve (pending_result cfg message)
                        (cleanup (with_launch Settled w))) = Some x)
  /\ resolved (resolve (pending_result cfg message) (cleanup (with_launch Settled w)))
     = resolved w
  /\ writes (log (resolve (pending_result cfg message)
                    (cleanup (with_launch Settled w))))
     = writes (log w).
Proof.
  pose proof (cleanup_fields (with_launch Settled w)) as (_ & C2 & C3 & _).
  pose proof (resolve_fields (pending_result cfg message)
                (cleanup (with_launch Settled w)))
    as (_ & F2 & _ & _ & _ & _ & _ & _ & _ & _ & _ & F12).
  cbn [resolved settled with_launch] in C2, C3.
  rewrite F2, F12, C2, C3, failure_log, !writes_app.
  split; [intros x ->; reflexivity|]. split; [reflexivity|].
  destruct (server w); cbn; now rewrite app_nil_r.
Qed.

Lemma run_timers_final (fuel : nat) (target : Z) (w : world) :
  (forall x, settled w = Some x -> settled (run_timers rt cfg fuel target w) = Some x)
  /\ (resolved w = true ->
      resolved (run_timers rt cfg fuel target w) = true
      /\ writes (log (run_timers rt cfg fuel target w)) = writes (log w)).
Proof.
  revert w. induction fuel as [|fuel IH]; intros w; cbn [run_timers]; [auto|].
  destruct (next_due target (timers w)) as [t|]; [|auto].
  set (w1 := clearTimeout (timer_id t) (with_clock (fun t0 => Z.max t0 (due t)) w)).
  rewrite fire_as_finish.
  destruct (IH (finish rt cfg (payload_of (action t)) w1)) as [I1 I2].
  destruct (finish_final (payload_of (action t)) w1) as [G1 G2].
  split.
  - intros x S. apply I1, G1. exact S.
  - intros R. destruct (G2 R) as [R1 W1]. destruct (I2 R1) as [R2 W2].
    split; [exact R2|]. rewrite W2, W1. reflexivity.
Qed.

Lemma step_final (e : event) (w : world) :
  (forall x, settled w = Some x -> settled (step rt cfg e w) = Some x)
  /\ (resolved w = true ->
      resolved (step rt cfg e w) = true
      /\ writes (log (step rt cfg e w)) = writes (log w)).
Proof.
  destruct e as [|message|code stderr|r| |ms]; cbn [step].
  - destruct (launch w); auto.
    cbn [settled resolved log emit with_server with_listening with_launch].
    rewrite writes_app. cbn. rewrite app_nil_r. auto.
  - destruct (launch w); auto.
    destruct (failure_final ("Server error: " ++ message) w) as (A & B & C).
    rewrite B, C. auto.
  - destruct (launch w); auto.
    destruct (openUrl_error code stderr) as [m|]; [|auto].
    destruct (failure_final ("Failed to open browser: " ++ m) w) as (A & B & C).
    rewrite B, C. auto.
  - destruct (listening w); [|auto].
    destruct (same_final _ _ (same_handle rt cfg r w)) as (A & B & C).
    rewrite A, B, C. auto.
  - destruct (abort_armed w); [|auto].
    exact (finish_final JNull (with_abort_armed false w)).
  - unfold elapse. cbn [settled resolved log with_clock].
    apply run_timers_final.
Qed.

End Teardown.
End TeardownFacts.

Module TeardownTheorems.
Import Js Text Plan Session Observe Schedule SessionFacts TimerFacts ServerTheorems
       VerdictFacts TeardownFacts.

(** X9. Only GET requests and accepted terminal requests touch the idle
    timer.  A request that is neither a GET, nor a POST of [/cancel], nor
    a POST of [/submit] with a parseable body is answered and changes
    nothing else: 200 for OPTIONS, 400 for a submit that does not parse,
    404 for the rest.  The idle deadline stays where it was, so such
    requests do not keep a session alive. *)
Theorem plain_request_leaves_timers :
  forall (rt : Runtime) (cfg : Config) (r : request) (w : world),
    plain rt r = true ->
    handle rt cfg r w = emit (Respond (plain_answer r)) w
    /\ timer_state (handle rt cfg r w) = timer_state w
    /\ idle_deadline (handle rt cfg r w) = idle_deadline w
    /\ calls (handle rt cfg r w) = calls w
    /\ (status_code (plain_answer r) = 200 <-> method r = "OPTIONS").
Proof.
  intros rt cfg r w P. rewrite (handle_plain rt cfg r w P).
  repeat split.
  - unfold plain_answer. destruct (String.eqb (method r) "OPTIONS") eqn:E;
      [intros _; now apply String.eqb_eq|].
    destruct (String.eqb (method r) "POST" && String.eqb (pathname r) "/submit");
      discriminate.
  - intros M. unfold plain_answer. rewrite M. reflexivity.
Qed.

(** A POST to an unknown path 5 s into the sample session: 404, and the
    deadline stays at 600 s. *)
Lemma plain_request_leaves_timers_witness :
  responses (log (handle Reference.runtime Sample.options
                    {| method := "POST"; pathname := "/approve"; body := "" |}
                    (step Reference.runtime Sample.options (Elapse 5000)
                       (served Reference.runtime Sample.options 0 ""))))
  = [NotFound]
  /\ idle_deadline (handle Reference.runtime Sample.options
                      {| method := "POST"; pathname := "/approve"; body := "" |}
                      (step Reference.runtime Sample.options (Elapse 5000)
                         (served Reference.runtime Sample.options 0 "")))
     = Some 600000.
Proof.
  destruct (plain_request_leaves_timers Reference.runtime Sample.options
              {| method := "POST"; pathname := "/approve"; body := "" |}
              (step Reference.runtime Sample.options (Elapse 5000)
                 (served Reference.runtime Sample.options 0 "")))
    as (Heq & _ & Hidle & _).
  - reflexivity.
  - split; [rewrite Heq; reflexivity | rewrite Hidle; reflexivity].
Defined.

(** X10. The server answers exactly once each request it receives while
    it listens, provided the target of the request is one that [new URL]
    parses and, for a POST of [/submit], the body has arrived (the
    requests of the model); a request that arrives when it does not
    listen gets no answer, and nothing else sends one: an event adds to
    the responses of the session one answer for a request served and none
    otherwise. *)
Theorem requests_answered_once :
  forall (rt : Runtime) (cfg : Config) (e : event) (w : world),
    exists answers,
      responses (log (step rt cfg e w)) = (responses (log w) ++ answers)%list
      /\ List.length answers = answers_due e w.
Proof.
  intros rt cfg e w.
  destruct e as [|message|code stderr|r| |ms]; cbn [step answers_due].
  - exists []. split; [|reflexivity]. rewrite app_nil_r.
    destruct (launch w); try reflexivity.
    cbn [log emit with_server with_listening with_launch].
    rewrite responses_app. cbn. now rewrite app_nil_r.
  - exists []. split; [|reflexivity]. rewrite app_nil_r.
    destruct (launch w); try reflexivity.
    rewrite failure_log, !responses_app.
    destruct (server w); cbn; now rewrite app_nil_r.
  - exists []. split; [|reflexivity]. rewrite app_nil_r.
    destruct (launch w); try reflexivity.
    destruct (openUrl_error code stderr); [|reflexivity].
    rewrite failure_log, !responses_app.
    destruct (server w); cbn; now rewrite app_nil_r.
  - destruct (listening w).
    + destruct (handle_log rt cfg r w) as [x ->]. exists [x].
      split; [|reflexivity]. now rewrite responses_app.
    + exists []. split; [|reflexivity]. now rewrite app_nil_r.
  - exists []. split; [|reflexivity]. rewrite app_nil_r.
    destruct (abort_armed w); [|reflexivity].
    now rewrite finish_responses.
  - exists []. split; [|reflexivity]. rewrite app_nil_r.
    unfold elapse. cbn [log with_clock]. apply run_timers_responses.
Qed.

(** X11. Teardown.  When the server's [listen] calls back before
    anything else happens, then whatever follows, a session that is
    resolved has its server closed, once, and its idle timer stopped. *)
Theorem resolved_session_is_torn_down :
  forall (rt : Runtime) (cfg : Config) (t0 : Z) (events : list event),
    resolved (run rt cfg (Listening :: events) (start cfg t0)) = true ->
    listening (run rt cfg (Listening :: events) (start cfg t0)) = false
    /\ server (run rt cfg (Listening :: events) (start cfg t0)) = false
    /\ idle_deadline (run rt cfg (Listening :: events) (start cfg t0)) = None
    /\ closes (log (run rt cfg (Listening :: events) (start cfg t0))) = 1%nat.
Proof.
  intros rt cfg t0 events R.
  assert (handed_over (run rt cfg (Listening :: events) (start cfg t0)))
    as (_ & H2 & H3).
  { cbn [run fold_left]. apply run_handed.
    - apply step_coordinated, start_coordinated.
    - unfold handed_over. cbn. repeat split; discriminate. }
  pose proof (H2 R) as V. destruct (H3 V) as (A & B & C). auto.
Qed.

(** The sample session aborted once the page is open. *)
Lemma resolved_session_is_torn_down_witness :
  listening (run Reference.runtime Sample.options
               [Listening; Launched 0 ""; Elapse 2000; Abort]
               (start Sample.options 0)) = false
  /\ closes (log (run Reference.runtime Sample.options
                    [Listening; Launched 0 ""; Elapse 2000; Abort]
                    (start Sample.options 0))) = 1%nat.
Proof.
  destruct (resolved_session_is_torn_down Reference.runtime Sample.options 0
              [Launched 0 ""; Elapse 2000; Abort])
    as (L & _ & _ & C).
  - reflexivity.
  - split; [exact L | exact C].
Defined.

(** X12. An abort that comes before the server's [listen] calls back
    leaves the server running.  The call resolves as rejected at once,
    with no server to close; the server then starts to listen and the
    browser is opened, and whatever follows, the server is never closed
    and the result stays the rejection.  A decision submitted to that
    page is acknowledged with [{ success: true }] all the same. *)
Theorem abort_before_listen_orphans_server :
  forall (rt : Runtime) (cfg : Config) (t0 : Z) (stderr : string)
         (events : list event),
    settled (aborted_early rt cfg t0 stderr events)
    = Some (rejected_result cfg JNull "No reason provided")
    /\ resolved (aborted_early rt cfg t0 stderr events) = true
    /\ listening (aborted_early rt cfg t0 stderr events) = true
    /\ closes (log (aborted_early rt cfg t0 stderr events)) = 0%nat
    /\ (forall r cb,
           terminal rt r = Some cb ->
           log (step rt cfg (Request r) (aborted_early rt cfg t0 stderr events))
           = (log (aborted_early rt cfg t0 stderr events) ++ [Respond Success])%list).
Proof.
  intros rt cfg t0 stderr events.
  assert (orphaned cfg (aborted_early rt cfg t0 stderr events))
    as (_ & R & _ & L & C & S).
  { unfold aborted_early.
    change (Abort :: Listening :: Launched 0 stderr :: events)
      with ([Abort; Listening; Launched 0 stderr] ++ events)%list.
    unfold run. rewrite fold_left_app. apply run_orphaned.
    unfold orphaned. cbn. repeat split. }
  repeat split; try assumption.
  intros r cb Hcb. cbn [step]. rewrite L.
  rewrite (handle_terminal rt cfg r _ cb Hcb).
  destruct (clear_idle_state (aborted_early rt cfg t0 stderr events))
    as (_ & _ & _ & _ & C5 & _).
  cbn [log setTimeout with_timers emit]. now rewrite C5.
Qed.

(** X13. The result is final.  From any state of a session and for any
    events that follow: the promise, once settled, keeps its value; and
    a session, once resolved, stays resolved and writes no further
    file. *)
Theorem result_is_final :
  forall (rt : Runtime) (cfg : Config) (w : world) (events : list event),
    (forall x, settled w = Some x -> settled (run rt cfg events w) = Some x)
    /\ (resolved w = true ->
        resolved (run rt cfg events w) = true
        /\ writes (log (run rt cfg events w)) = writes (log w)).
Proof.
  intros rt cfg w events. revert w.
  induction events as [|e events IH]; intros w; [auto|].
  cbn [run fold_left]. destruct (step_final rt cfg e w) as [S1 S2].
  destruct (IH (step rt cfg e w)) as [I1 I2]. split.
  - intros x S. apply I1, S1, S.
  - intros R. destruct (S2 R) as [R1 W1]. destruct (I2 R1) as [R2 W2].
    split; [exact R2|]. unfold run in W2. rewrite W2, W1. reflexivity.
Qed.

(** X14. The result tells what is on disk.  In every run of a session,
    when the promise holds an approval, exactly one file has been
    written: its path is the [savedPath] of the result, named after the
    instant of the first call of [finish], and its content is the
    rendering of the plan with the decision of that call, which the
    result carries; when the promise holds a rejection, no file has been
    written and the result has no [savedPath]. *)
Theorem result_matches_artifact :
  forall (rt : Runtime) (cfg : Config) (t0 : Z) (events : list event) (r : ToolResult),
    settled (run rt cfg events (start cfg t0)) = Some r ->
    (status r = Approved ->
     exists t decision markdown,
       hd_error (calls (run rt cfg events (start cfg t0))) = Some (t, decision)
       /\ review r = Some decision
       /\ savedPath r = Some (filepath_at rt cfg t)
       /\ planToMarkdown (StringToNumber_pos rt) (plan cfg) (Some decision)
            (toISOString rt t) = Ok markdown
       /\ writes (log (run rt cfg events (start cfg t0)))
          = [(filepath_at rt cfg t, markdown)])
    /\ (status r = Rejected ->
        savedPath r = None
        /\ writes (log (run rt cfg events (start cfg t0))) = []).
Proof.
  intros rt cfg t0 events r Hs.
  pose proof (run_coordinated rt cfg events _ (start_coordinated rt cfg t0))
    as (G & _ & S & _).
  remember (run rt cfg events (start cfg t0)) as w eqn:Hw. clear Hw.
  unfold first_settles in S. rewrite Hs in S.
  assert (status r <> Pending -> In r (verdicts (log w))) as Hin.
  { intros Hp. unfold verdicts. apply filter_In. split.
    - destruct (resolutions (log w)) as [|x l]; [discriminate|].
      injection S as <-. now left.
    - destruct (status r); [contradiction | reflexivity | reflexivity]. }
  rewrite <- (verdicts_of_finish (log w)) in Hin.
  rewrite <- (writes_of_finish (log w)).
  unfold guarded in G.
  destruct (calls w) as [|[t decision] rest] eqn:Ec; destruct G as [_ G];
    rewrite G in *; clear G.
  - split; intros E;
      (assert (In r (verdicts [])) as Hr by (apply Hin; rewrite E; discriminate));
      destruct Hr.
  - unfold verdict_at in *. destruct (is_rejection decision).
    + destruct (rejection_reason decision) as [reason|].
      * split; intros E;
          (assert (In r (verdicts [Resolve (rejected_result cfg decision reason)]))
             as Hr by (apply Hin; rewrite E; discriminate));
          destruct Hr as [<-|[]].
        -- discriminate E.
        -- split; reflexivity.
      * split; intros E;
          (assert (In r (verdicts [Uncaught])) as Hr
             by (apply Hin; rewrite E; discriminate));
          destruct Hr.
    + destruct (planToMarkdown _ _ _ _) as [markdown|] eqn:M.
      * destruct (summary _ _ _ _) as [s|].
        -- split; intros E;
             match type of Hin with
             | _ -> In r ?l =>
                 assert (In r l) as Hr by (apply Hin; rewrite E; discriminate)
             end;
             destruct Hr as [<-|[]].
           ++ exists t, decision, markdown. repeat split. exact M.
           ++ discriminate E.
        -- split; intros E;
             match type of Hin with
             | _ -> In r ?l =>
                 assert (In r l) as Hr by (apply Hin; rewrite E; discriminate)
             end;
             destruct Hr.
      * split; intros E;
          match type of Hin with
          | _ -> In r ?l =>
              assert (In r l) as Hr by (apply Hin; rewrite E; discriminate)
          end;
          destruct Hr.
Qed.

(** The sample session approved with both phases: the file of the
    result is the file written. *)
Lemma result_matches_artifact_witness :
  exists r markdown,
    settled (run Reference.runtime Sample.options
               [Listening; Launched 0 ""; Elapse 2000;
                Sample.submit (Sample.decision Review.approve [1; 2]); Elapse 500]
               (start Sample.options 0)) = Some r
    /\ savedPath r = Some "/home/dev/.pi/plans/1970-01-01-000002-add-rate-limiting.md"
    /\ writes (log (run Reference.runtime Sample.options
                      [Listening; Launched 0 ""; Elapse 2000;
                       Sample.submit (Sample.decision Review.approve [1; 2]); Elapse 500]
                      (start Sample.options 0)))
       = [("/home/dev/.pi/plans/1970-01-01-000002-add-rate-limiting.md", markdown)].
Proof.
  assert (option_map status
            (settled (run Reference.runtime Sample.options
               [Listening; Launched 0 ""; Elapse 2000;
                Sample.submit (Sample.decision Review.approve [1; 2]); Elapse 500]
               (start Sample.options 0))) = Some Approved) as Hstatus
    by (vm_compute; reflexivity).
  assert (option_map savedPath
            (settled (run Reference.runtime Sample.options
               [Listening; Launched 0 ""; Elapse 2000;
                Sample.submit (Sample.decision Review.approve [1; 2]); Elapse 500]
               (start Sample.options 0)))
          = Some (Some "/home/dev/.pi/plans/1970-01-01-000002-add-rate-limiting.md"))
    as Hsaved by (vm_compute; reflexivity).
  destruct (settled (run Reference.runtime Sample.options
               [Listening; Launched 0 ""; Elapse 2000;
                Sample.submit (Sample.decision Review.approve [1; 2]); Elapse 500]
               (start Sample.options 0))) as [r|] eqn:E; [|discriminate Hstatus].
  cbn [option_map] in Hstatus, Hsaved.
  injection Hstatus as Hstatus. injection Hsaved as Hsaved.
  destruct (result_matches_artifact Reference.runtime Sample.options 0
              [Listening; Launched 0 ""; Elapse 2000;
               Sample.submit (Sample.decision Review.approve [1; 2]); Elapse 500]
              r E) as [Happroved _].
  destruct (Happroved Hstatus)
    as (t & decision & markdown & _ & _ & Hpath & _ & Hwrites).
  exists r, markdown. split; [reflexivity|]. split; [exact Hsaved|].
  assert (filepath_at Reference.runtime Sample.options t
          = "/home/dev/.pi/plans/1970-01-01-000002-add-rate-limiting.md") as Hp
    by congruence.
  rewrite Hwrites, Hp. reflexivity.
Defined.

End TeardownTheorems.

(* ================================================================== *)
(** ** The renderer on payloads of any shape *)

Module ShapeFacts.
Import Js Text Plan Session Observe Shape RendererFacts TextFacts CommandFacts.

Lemma selected_of_numbers (S : list Z) (ps : list PlanPhase) :
  selected_of (JArr (map JNum S)) ps = Ok (filter (selected S) ps).
Proof.
  induction ps as [|p ps IH]; [reflexivity|].
  cbn [selected_of filter]. rewrite includes_selection, IH. cbn [bind].
  unfold selected at 2. reflexivity.
Qed.

Lemma piece_left (a b s : string) : piece a s -> piece (a ++ b) s.
Proof.
  intros (x & y & ->). exists x, (y ++ b). now rewrite !append_assoc.
Qed.

Lemma piece_right (a b s : string) : piece b s -> piece (a ++ b) s.
Proof.
  intros (x & y & ->). exists (a ++ x), y. now rewrite append_assoc.
Qed.

Lemma Ok_inj {A : Type} (a b : A) : Ok a = Ok b -> a = b.
Proof. intros H. congruence. Qed.

Lemma full_not_stub (p : PlanPhase) : full_block p <> stub_block p.
Proof.
  unfold full_block, stub_block, phase_heading. cbn [app]. intros [= H].
  apply append_cancel in H. injection H as H.
  apply append_cancel in H. vm_compute in H. discriminate H.
Qed.

Lemma full_iff_selected (S : list Z) (p : PlanPhase) :
  phase_block S p = full_block p <-> selected S p = true.
Proof.
  unfold phase_block. destruct (selected S p); split; try reflexivity; try discriminate.
  intros H. symmetry in H. now apply full_not_stub in H.
Qed.

End ShapeFacts.

Module ShapeTheorems.
Import Js Text Plan Session Observe Shape RendererFacts TextFacts CommandFacts
       ClientFacts VerdictFacts ShapeFacts.

(** X15. Without a selection every phase is rendered in full: when the
    review is [undefined] or [null], or its [selectedPhases] is missing
    or falsy ([null], [0], [false], the empty string), the renderer takes
    the numbers of all phases of the plan, and its loop yields the full
    block of each phase, in order. *)
Theorem missing_selection_renders_all :
  forall (plan : ImplementationPlan) (review : jsval) (lines : list string),
    truthy (opt_prop review "selectedPhases") = false ->
    effective_phases plan review = JArr (map JNum (map number (phases plan)))
    /\ phase_loop (effective_phases plan review) lines (phases plan)
       = Ok (lines ++ List.concat (map full_block (phases plan)))%list.
Proof.
  intros plan review lines H.
  assert (effective_phases plan review = JArr (map JNum (map number (phases plan)))) as E.
  { unfold effective_phases. rewrite map_map.
    destruct (opt_prop review "selectedPhases") as [v|]; [|reflexivity].
    now rewrite H. }
  split; [exact E|].
  rewrite E, phase_loop_blocks, (all_full (phases plan) (phases plan) (incl_refl _)).
  reflexivity.
Qed.

(** The sample plan rendered without a review, and with a review whose
    selection is [null]. *)
Lemma missing_selection_renders_all_witness :
  phase_loop (effective_phases Sample.rate_limiting None) [] (phases Sample.rate_limiting)
  = Ok (full_block Sample.phase1 ++ full_block Sample.phase2)%list
  /\ phase_loop
       (effective_phases Sample.rate_limiting
          (Some (JObj [("decision", JStr "approve"); ("selectedPhases", JNull)])))
       [] (phases Sample.rate_limiting)
     = Ok (full_block Sample.phase1 ++ full_block Sample.phase2)%list.
Proof.
  destruct (missing_selection_renders_all Sample.rate_limiting None [])
    as [_ H1]; [reflexivity|].
  destruct (missing_selection_renders_all Sample.rate_limiting
              (Some (JObj [("decision", JStr "approve"); ("selectedPhases", JNull)])) [])
    as [_ H2]; [reflexivity|].
  split; [rewrite H1 | rewrite H2]; reflexivity.
Defined.

(** X16. When [planToMarkdown] throws.  For a plan of the declared type
    and any review, the renderer throws a [TypeError] exactly in these
    cases:
    - the review is truthy and its [priority], or its [approach], has no
      string (it is an object with a member [toString] of its own, or an
      array that holds one);
    - the plan has a phase and the selection in force is neither an array
      nor a string (it has no [includes]);
    - [requirements], or [constraints], is an array with an item that has
      no string, or an object whose [length] cannot be compared with 0 or
      is greater than 0 (it cannot be iterated);
    - the notes are truthy and have no string.
    In every other case it returns the document. *)
Theorem planToMarkdown_throws_iff :
  forall (stn : string -> bool) (plan : ImplementationPlan) (review : jsval)
         (generated : string),
    planToMarkdown stn plan review generated = Throw
    <-> ((truthy review = true
          /\ (printable (opt_prop review "priority") = false
              \/ printable (opt_prop review "approach") = false))
         \/ (phases plan <> [] /\ searchable (effective_phases plan review) = false)
         \/ unwalkable stn (opt_prop review "requirements") = true
         \/ unwalkable stn (opt_prop review "constraints") = true
         \/ (truthy (opt_prop review "notes") = true
             /\ printable (opt_prop review "notes") = false)).
Proof.
  intros stn plan review generated.
  rewrite renderer_throws_iff. unfold renderer_throws.
  rewrite !orb_true_iff, !andb_true_iff, !negb_true_iff, andb_false_iff.
  assert (match phases plan with [] => false | _ => true end = true
          <-> phases plan <> []) as ->
    by (destruct (phases plan); split; congruence).
  tauto.
Qed.

(** The sample plan and three payloads: a priority with a member
    [toString], a selection that is a number, and the empty object. *)
Lemma renderer_throw_examples :
  planToMarkdown Reference.numeral_pos Sample.rate_limiting
    (Some (JObj [("decision", JStr "approve");
                 ("priority", JObj [("toString", JNum 1)])]))
    "2026-11-01T12:00:00.000Z" = Throw
  /\ planToMarkdown Reference.numeral_pos Sample.rate_limiting
       (Some Sample.odd_selection) "2026-11-01T12:00:00.000Z" = Throw
  /\ renderer_throws Reference.numeral_pos Sample.rate_limiting (Some (JObj []))
     = false.
Proof. vm_compute. repeat split. Qed.

(** X17. The summary and the saved file agree on the phases.  For a
    decision whose [selectedPhases] is an array of numbers, the summary
    of an approval holds, under [Selected Phases], one entry per phase of
    the plan whose number is selected, in the order of the plan; these
    are the phases whose block in the saved file is the full one. *)
Theorem summary_lists_rendered_phases :
  forall (rt : Runtime) (cfg : Config) (review : json) (S : list Z)
         (filepath text : string),
    prop review "selectedPhases" = Some (JArr (map JNum S)) ->
    summary rt cfg review filepath = Ok text ->
    piece text
      ("**Selected Phases:**" ++ newline
       ++ String.concat newline
            (map phase_entry (filter (selected S) (phases (plan cfg))))
       ++ newline ++ newline)
    /\ (forall p,
           In p (phases (plan cfg)) ->
           (In p (filter (selected S) (phases (plan cfg)))
            <-> phase_block S p = full_block p)).
Proof.
  intros rt cfg review S filepath text Hsel Hsum. split.
  - unfold summary in Hsum.
    rewrite (RendererTheorems.effective_phases_given (plan cfg) (Some review) S
               (eq_trans (opt_prop_some _ _) Hsel)) in Hsum.
    rewrite selected_of_numbers in Hsum. cbn [bind] in Hsum.
    destruct (tpl (prop review "priority")) as [priority|];
      cbn [bind] in Hsum; [|discriminate].
    destruct (tpl (prop review "approach")) as [approach|];
      cbn [bind] in Hsum; [|discriminate].
    destruct (summary_section rt "**Additional Requirements:**" _) as [reqs|];
      cbn [bind] in Hsum; [|discriminate].
    destruct (summary_section rt "**Constraints:**" _) as [cons|];
      cbn [bind] in Hsum; [|discriminate].
    destruct (to_str (first_selected _)) as [first|];
      [|destruct (truthy (prop review "notes"));
        [destruct (tpl (prop review "notes"))|]; discriminate Hsum].
    destruct (truthy (prop review "notes")).
    + destruct (tpl (prop review "notes")) as [notes|];
        cbn [bind] in Hsum; [|discriminate].
      apply Ok_inj in Hsum. subst text.
      do 2 apply piece_left. apply piece_left.
      do 2 apply piece_left; apply piece_right, piece_refl.
    + cbn [bind] in Hsum. apply Ok_inj in Hsum. subst text.
      do 2 apply piece_left.
      do 2 apply piece_left; apply piece_right, piece_refl.
  - intros p Hp. rewrite full_iff_selected, filter_In. tauto.
Qed.

(** The sample plan approved with phase 2 only. *)
Lemma summary_lists_rendered_phases_witness :
  exists text,
    summary Reference.runtime Sample.options
      (Review.to_json (Sample.decision Review.approve [2])) "plan.md" = Ok text
    /\ piece text
         ("**Selected Phases:**" ++ newline
          ++ String.concat newline [phase_entry Sample.phase2]
          ++ newline ++ newline).
Proof.
  destruct (summary_lists_rendered_phases Reference.runtime Sample.options
              (Review.to_json (Sample.decision Review.approve [2])) [2] "plan.md"
              (match summary Reference.runtime Sample.options
                       (Review.to_json (Sample.decision Review.approve [2]))
                       "plan.md" with
               | Ok t => t
               | Throw => ""
               end))
    as [Htext _].
  - reflexivity.
  - vm_compute. reflexivity.
  - eexists. split; [vm_compute; reflexivity|]. exact Htext.
Defined.

End ShapeTheorems.

(* ================================================================== *)
(** ** The slug and the extraction, again *)

Module NamingFacts.
Import Js Text Plan.

Lemma slug_char_plain (c : ascii) :
  slug_char c = true -> lower c = c /\ is_space c = false.
Proof.
  destruct c as [[] [] [] [] [] [] [] []]; intros H; vm_compute in H;
    try discriminate H; split; reflexivity.
Qed.

Lemma lower_idem (c : ascii) : lower (lower c) = lower c.
Proof. destruct c as [[] [] [] [] [] [] [] []]; reflexivity. Qed.

Lemma toLowerCase_idem (s : string) : toLowerCase (toLowerCase s) = toLowerCase s.
Proof.
  induction s as [|c s IH]; [reflexivity|].
  cbn [toLowerCase]. now rewrite lower_idem, IH.
Qed.

(** A string of slug characters is its own slug. *)
Lemma slug_fixed (s : string) :
  forallb slug_char (list_ascii_of_string s) = true ->
  toLowerCase s = s /\ (forall b, dash_runs b s = s) /\ keep_slug s = s.
Proof.
  induction s as [|c s IH]; [repeat split|].
  cbn [list_ascii_of_string forallb]. intros H. apply andb_prop in H as [Hc Hs].
  destruct (IH Hs) as (A & B & C). destruct (slug_char_plain c Hc) as [Hl Hsp].
  cbn [toLowerCase dash_runs keep_slug]. rewrite Hl, Hsp, Hc, A, C.
  repeat split. intros b. now rewrite B.
Qed.

End NamingFacts.

Module NamingTheorems.
Import Js Text Plan VerdictFacts NamingFacts.

(** X18. The slug of a title is stable: the slug of a slug is that
    slug, and the letter case of the title does not matter, so titles
    that differ in case only get the same file name at the same
    instant. *)
Theorem slug_is_stable :
  forall title : string,
    slug (slug title) = slug title
    /\ slug (toLowerCase title) = slug title.
Proof.
  intros title. split.
  - destruct (slug_fixed (slug title) (keep_slug_chars _)) as (A & B & C).
    unfold slug at 1. now rewrite A, B, C.
  - unfold slug. now rewrite toLowerCase_idem.
Qed.

End NamingTheorems.

Module ResponseTheorems.
Import Js Text Plan TextFacts.

(** X19. The extraction makes nothing up: what [generatePlan] takes
    from a response is [null], or the value [JSON.parse] gives for a
    contiguous piece of that response. *)
Theorem extract_is_sound :
  forall (JSON_parse : string -> option json) (text : string),
    extract JSON_parse text = JNull
    \/ exists s, piece text s /\ JSON_parse s = Some (extract JSON_parse text).
Proof.
  intros JSON_parse text. unfold extract.
  assert (piece text (trim match match_fence text with
                           | Some group => group
                           | None => text
                           end)) as Hp.
  { destruct (match_fence text) as [g|] eqn:E.
    - eapply piece_trans; [apply match_fence_piece, E | apply trim_piece].
    - apply trim_piece. }
  destruct (JSON_parse (trim _)) as [v|] eqn:P1.
  - right. eexists. split; [exact Hp | exact P1].
  - destruct (match_object text) as [o|] eqn:E; [|now left].
    destruct (JSON_parse o) as [v|] eqn:P2; [|now left].
    right. exists o. split; [apply match_object_piece, E | exact P2].
Qed.

(** X20. A response that is JSON and nothing else, as the prompt asks
    for, is taken whole: when the response holds no backtick and its
    trimmed text parses, the result is that value, whatever its shape;
    an array or a number is returned as the plan like an object is. *)
Theorem json_only_response :
  forall (JSON_parse : string -> option json) (text : string) (v : json),
    lacks backtick text = true ->
    JSON_parse (trim text) = Some v ->
    extract JSON_parse text = v.
Proof.
  intros JSON_parse text v Hb Hv. unfold extract.
  now rewrite (match_fence_none _ Hb), Hv.
Qed.

(** The sample payload alone on its line, and a response that is a
    number. *)
Lemma json_only_response_witness :
  extract Reference.parse ("  {" ++ Sample.payload_body ++ "}" ++ newline) = Sample.payload
  /\ extract Reference.parse " 42 " = JNum 42.
Proof.
  split.
  - apply json_only_response; vm_compute; reflexivity.
  - apply json_only_response; vm_compute; reflexivity.
Defined.

End ResponseTheorems.

(* ================================================================== *)
(** ** The plan data in the page *)

Module PageFacts.
Import Js Text Page TextFacts CommandFacts.

Lemma substitution_plain (matched before after r : string) :
  lacks "$" r = true -> substitution matched before after r = r.
Proof.
  induction r as [|c r IH]; [reflexivity|].
  cbn [lacks substitution]. intros H. apply andb_prop in H as [Hc Hr].
  apply negb_true_iff in Hc. rewrite Hc, (IH Hr). reflexivity.
Qed.

Lemma substitution_app (matched before after x y : string) :
  lacks "$" x = true ->
  substitution matched before after (x ++ y) = x ++ substitution matched before after y.
Proof.
  induction x as [|c x IH]; [reflexivity|].
  cbn [lacks]. intros H. apply andb_prop in H as [Hc Hx].
  apply negb_true_iff in Hc.
  change (String c x ++ y) with (String c (x ++ y)).
  cbn [substitution]. rewrite Hc, (IH Hx). reflexivity.
Qed.

Lemma split_at_sound (pattern s a b : string) :
  split_at pattern s = Some (a, b) -> s = a ++ pattern ++ b.
Proof.
  revert a b. induction s as [|c s IH]; intros a b; cbn [split_at].
  - destruct (strip_prefix pattern "") as [rest|] eqn:E; [|discriminate].
    intros [= <- <-]. destruct pattern; [injection E as <-; reflexivity | discriminate E].
  - destruct (strip_prefix pattern (String c s)) as [rest|] eqn:E.
    + intros [= <- <-]. cbn [append]. clear IH.
      revert E. generalize (String c s). clear c s.
      induction pattern as [|p pattern IHp]; intros s E.
      * now injection E as <-.
      * destruct s as [|d s]; [discriminate E|]. cbn [strip_prefix] in E.
        destruct (Ascii.eqb p d) eqn:Hp; [|discriminate E].
        apply Ascii.eqb_eq in Hp. subst d. cbn [append]. f_equal. exact (IHp s E).
    + destruct (split_at pattern s) as [[a' b']|]; [|discriminate].
      cbn [option_map fst snd]. intros [= <- <-]. cbn [append]. f_equal.
      exact (IH a' b' eq_refl).
Qed.

Lemma strip_prefix_absent (pattern s : string) :
  prefix pattern s = false -> strip_prefix pattern s = None.
Proof.
  revert s. induction pattern as [|p pattern IH]; intros s;
    [destruct s; discriminate|].
  destruct s as [|c s]; [reflexivity|]. cbn [prefix strip_prefix].
  destruct (ascii_dec p c) as [->|Hne].
  - rewrite Ascii.eqb_refl. apply IH.
  - intros _. apply Ascii.eqb_neq in Hne. now rewrite Hne.
Qed.

(** Without an occurrence of the pattern nothing is replaced. *)
Lemma replace_all_absent (fuel : nat) (pattern replacement before s : string) :
  contains pattern s = false ->
  replace_all_from fuel pattern replacement before s = s.
Proof.
  revert before s. induction fuel as [|fuel IH]; intros before s H; [reflexivity|].
  cbn [replace_all_from].
  destruct s as [|c s]; cbn [contains] in H.
  - destruct (prefix pattern "") eqn:P; [discriminate|].
    now rewrite (strip_prefix_absent _ _ P).
  - destruct (prefix pattern (String c s)) eqn:P; [discriminate|].
    rewrite (strip_prefix_absent _ _ P). f_equal. apply IH, H.
Qed.

End PageFacts.

Module PageTheorems.
Import Js Text Page TextFacts CommandFacts PageFacts.

(** X21. The plan data in the page.  Let the placeholder
    [__PLAN_DATA_JSON__] stand first between [before] and [after] in
    [index.html].  Plan data without a dollar sign is put in its place as
    it is; the session token is then put in over the whole page, plan
    data included, and a page without [__SESSION_TOKEN__] is sent as it
    is.  Plan data with a dollar sign is not put in as it is: [replace] reads the
    data as a replacement pattern, so [$$] reaches the page as a single
    dollar sign, [$&] as the placeholder, and [$'] as the rest of the
    page after the placeholder. *)
Theorem plan_data_injection :
  forall (html before after : string),
    split_at "__PLAN_DATA_JSON__" html = Some (before, after) ->
    html = before ++ "__PLAN_DATA_JSON__" ++ after
    /\ (forall planData,
           lacks "$" planData = true ->
           replace_first "__PLAN_DATA_JSON__" planData html
           = before ++ planData ++ after
           /\ (forall sessionToken,
                  inject html planData sessionToken
                  = replace_all "__SESSION_TOKEN__" sessionToken
                      (before ++ planData ++ after))
           /\ (forall sessionToken,
                  contains "__SESSION_TOKEN__" (before ++ planData ++ after) = false ->
                  inject html planData sessionToken = before ++ planData ++ after))
    /\ (forall x y,
           lacks "$" x = true -> lacks "$" y = true ->
           replace_first "__PLAN_DATA_JSON__" (x ++ "$$" ++ y) html
           = before ++ (x ++ "$" ++ y) ++ after
           /\ replace_first "__PLAN_DATA_JSON__" (x ++ "$&" ++ y) html
              = before ++ (x ++ "__PLAN_DATA_JSON__" ++ y) ++ after
           /\ replace_first "__PLAN_DATA_JSON__" (x ++ "$'" ++ y) html
              = before ++ (x ++ after ++ y) ++ after).
Proof.
  intros html before after Hs.
  split; [exact (split_at_sound _ _ _ _ Hs)|]. split.
  - intros planData Hd.
    assert (replace_first "__PLAN_DATA_JSON__" planData html
            = before ++ planData ++ after) as E
      by (unfold replace_first; rewrite Hs, (substitution_plain _ _ _ _ Hd);
          reflexivity).
    split; [exact E|]. split; intros sessionToken.
    + unfold inject. now rewrite E.
    + intros Hn. unfold inject, replace_all. rewrite E. apply replace_all_absent, Hn.
  - intros x y Hx Hy. unfold replace_first. rewrite Hs.
    rewrite !(substitution_app _ _ _ _ _ Hx).
    change ("$$" ++ y) with (String "$" (String "$" y)).
    change ("$&" ++ y) with (String "$" (String "&" y)).
    change ("$'" ++ y) with (String "$" (String "'" y)).
    cbn [substitution Ascii.eqb Bool.eqb].
    rewrite !(substitution_plain _ _ _ _ Hy).
    repeat split; rewrite ?append_assoc; reflexivity.
Qed.

(** A plan title with a doubled dollar sign and one with a shell string
    in the sample page. *)
Lemma plan_data_injection_witness :
  inject sample_html "{title:1}" "abc"
  = "<script>window.__PLAN_DATA__ = {title:1};</script><body data-session='abc'></body>"
  /\ replace_first "__PLAN_DATA_JSON__" "{pid:$$}" sample_html
     = "<script>window.__PLAN_DATA__ = {pid:$};</script><body data-session='__SESSION_TOKEN__'></body>"
  /\ replace_first "__PLAN_DATA_JSON__" "{nl:$'}" sample_html
     = "<script>window.__PLAN_DATA__ = {nl:;</script><body data-session='__SESSION_TOKEN__'></body>};</script><body data-session='__SESSION_TOKEN__'></body>".
Proof.
  destruct (plan_data_injection sample_html
              "<script>window.__PLAN_DATA__ = "
              ";</script><body data-session='__SESSION_TOKEN__'></body>")
    as (_ & _ & Hdollar); [reflexivity|].
  split; [reflexivity|].
  destruct (Hdollar "{pid:" "}") as (H1 & _ & _); [reflexivity | reflexivity |].
  destruct (Hdollar "{nl:" "}") as (_ & _ & H3); [reflexivity | reflexivity |].
  split; [exact H1 | exact H3].
Defined.

End PageTheorems.

(* ================================================================== *)
(** ** The first decision *)

Module DecisionFacts.
Import Js Text Plan Session Observe Schedule SessionFacts TimerFacts ServerTheorems
       VerdictFacts LivenessFacts TeardownFacts.

Section Decision.
Variable rt : Runtime.
Variable cfg : Config.
Hypothesis grace_within_idle : 500 <= idle_after cfg.

Lemma leading_emit (g : timer) (e : effect) (w : world) :
  leading g w -> leading g (emit e w).
Proof. intros H. exact H. Qed.

Lemma leading_clear_idle (g : timer) (w : world) :
  leading g w -> leading g (clear_idle w).
Proof.
  intros (C & La & N1 & N2 & I1 & I2 & rest & T & D).
  destruct (clear_idle_state w) as (C1 & C2 & C3 & _ & _ & C6).
  assert (calls (clear_idle w) = calls w /\ launch (clear_idle w) = launch w) as [Ec El]
    by (unfold clear_idle; destruct (timeoutId w); split; reflexivity).
  unfold leading. rewrite Ec, El, C1, C2, C3, C6.
  repeat (split; [assumption|]).
  destruct (timeoutId w) as [id|]; [|exists rest; split; assumption].
  rewrite T. cbn [filter].
  assert (Nat.eqb (timer_id g) id = false) as ->
    by (apply Nat.eqb_neq; congruence).
  cbn [negb]. eexists. split; [reflexivity|].
  intros u Hu. apply filter_In in Hu as [Hu _]. auto.
Qed.

Lemma leading_setTimeout (g : timer) (cb : callback) (delay : Z) (w : world) :
  leading g w -> 500 <= delay <= TIMEOUT_MAX ->
  leading g (setTimeout cb delay w).
Proof.
  intros (C & La & N1 & N2 & I1 & I2 & rest & T & D) Hd.
  unfold leading, setTimeout.
  cbn [calls launch now next_id timeoutId timers with_timers].
  repeat (split; [first [assumption | lia]|]).
  rewrite T. exists (rest ++ [{| timer_id := next_id w;
                                 due := now w + (if (1 <=? delay) && (delay <=? TIMEOUT_MAX)
                                                 then delay else 1);
                                 action := cb |}])%list.
  split; [reflexivity|].
  intros u Hu. apply in_app_or in Hu as [Hu|[<-|[]]]; [auto|].
  cbn [due].
  destruct (Z.leb_spec 1 delay); [|lia].
  destruct (Z.leb_spec delay TIMEOUT_MAX); [|lia].
  cbn [andb]. lia.
Qed.

Lemma leading_idle (g : timer) (id : nat) (active : Z) (w : world) :
  leading g w -> id <> timer_id g -> leading g (with_idle (Some id) active w).
Proof.
  intros (C & La & N1 & N2 & I1 & I2 & rest & T & D) Hid.
  unfold leading. cbn [calls launch now next_id timeoutId timers with_idle].
  repeat (split; [first [assumption | congruence]|]).
  exists rest. split; assumption.
Qed.

Lemma leading_resetTimeout (g : timer) (w : world) :
  leading g w -> leading g (resetTimeout cfg w).
Proof.
  intros H. pose proof H as (C & La & N1 & N2 & I1 & I2 & rest & T & D).
  pose proof (leading_clear_idle g w H) as H1.
  destruct (resetTimeout_state cfg w) as (R1 & R2 & R3 & R4 & _ & R6).
  destruct (same_resetTimeout cfg w) as (A1 & _ & _ & A4 & _).
  destruct (clear_idle_state w) as (_ & _ & _ & _ & _ & C6).
  destruct H1 as (_ & _ & _ & _ & _ & _ & rest1 & T1 & D1).
  unfold leading. rewrite A1, A4, R1, R2, R3, R6, <- C6, T1.
  repeat (split; [first [assumption | lia]|]).
  split; [intros [= E]; lia|].
  eexists. split; [reflexivity|].
  intros u Hu. apply in_app_or in Hu as [Hu|[<-|[]]]; [auto|].
  cbn [due]. lia.
Qed.

Lemma leading_handle (g : timer) (r : request) (w : world) :
  leading g w -> leading g (handle rt cfg r w).
Proof.
  intros H. destruct (request_kinds rt r) as [G|[[cb Hcb]|P]].
  - destruct (handle_get rt cfg r w G) as [[x ->]|[_ ->]];
      apply leading_emit; repeat apply leading_resetTimeout; exact H.
  - rewrite (handle_terminal rt cfg r w cb Hcb).
    apply leading_setTimeout; [|unfold TIMEOUT_MAX; lia].
    apply leading_emit, leading_clear_idle, H.
  - rewrite (handle_plain rt cfg r w P). apply leading_emit, H.
Qed.

(** The leading timer is the one to run next, once it is due. *)
Lemma leading_next (g : timer) (rest : list timer) (target : Z) :
  (forall u, In u rest -> due g <= due u) ->
  next_due target (g :: rest) = if due g <=? target then Some g else None.
Proof.
  intros D. cbn [next_due].
  destruct (next_due target rest) as [u|] eqn:N; [|reflexivity].
  destruct (next_due_in _ _ _ N) as [Hu Hd]. specialize (D u Hu).
  destruct (Z.leb_spec (due g) (due u)); [|lia].
  destruct (Z.leb_spec (due g) target); [reflexivity | lia].
Qed.

Lemma leading_elapse (g : timer) (ms : Z) (w : world) :
  leading g w ->
  leading g (elapse rt cfg ms w)
  \/ headed (due g) (payload_of (action g)) (elapse rt cfg ms w).
Proof.
  intros H. pose proof H as (C & La & N1 & N2 & I1 & I2 & rest & T & D).
  unfold elapse. rewrite T. cbn [List.length run_timers]. rewrite T.
  rewrite (leading_next g rest _ D).
  destruct (Z.leb_spec (due g) (now w + Z.max 0 ms)) as [Hdue|Hdue].
  - right. unfold headed. cbn [calls with_clock].
    match goal with |- context [run_timers rt cfg ?f ?t ?u] =>
      destruct (run_timers_calls rt cfg f t u) as [later ->] end.
    rewrite fire_as_finish, finish_calls.
    cbn [calls now clearTimeout with_timers with_clock]. rewrite C.
    replace (Z.max (now w) (due g)) with (due g) by lia.
    eexists. reflexivity.
  - left. unfold leading.
    cbn [calls launch now next_id timeoutId timers with_clock].
    repeat (split; [first [assumption | lia]|]).
    exists rest. split; assumption.
Qed.

Lemma step_calls (e : event) (w : world) :
  exists later, calls (step rt cfg e w) = (calls w ++ later)%list.
Proof.
  assert (forall u, calls u = calls w -> exists later, calls u = (calls w ++ later)%list)
    as Hsame by (intros u ->; exists []; now rewrite app_nil_r).
  destruct e as [|message|code stderr|r| |ms]; cbn [step].
  - destruct (launch w); apply Hsame; reflexivity.
  - destruct (launch w); apply Hsame; try reflexivity.
    destruct (cleanup_fields (with_launch Settled w)) as (C1 & _).
    destruct (resolve_fields (pending_result cfg ("Server error: " ++ message))
                (cleanup (with_launch Settled w))) as (F1 & _).
    now rewrite F1, C1.
  - destruct (launch w); apply Hsame; try reflexivity.
    destruct (openUrl_error code stderr) as [m|]; [|reflexivity].
    destruct (cleanup_fields (with_launch Settled w)) as (C1 & _).
    destruct (resolve_fields (pending_result cfg ("Failed to open browser: " ++ m))
                (cleanup (with_launch Settled w))) as (F1 & _).
    now rewrite F1, C1.
  - destruct (listening w); apply Hsame; [|reflexivity].
    apply (same_handle rt cfg r w).
  - destruct (abort_armed w); [|apply Hsame; reflexivity].
    rewrite finish_calls. eexists. reflexivity.
  - unfold elapse. cbn [calls with_clock]. apply run_timers_calls.
Qed.

Lemma headed_step (t : Z) (payload : json) (e : event) (w : world) :
  headed t payload w -> headed t payload (step rt cfg e w).
Proof.
  intros [later H]. unfold headed. destruct (step_calls e w) as [more ->].
  rewrite H. eexists. reflexivity.
Qed.

Lemma leading_run (g : timer) (events : list event) (w : world) :
  no_abort events = true -> leading g w ->
  leading g (run rt cfg events w)
  \/ headed (due g) (payload_of (action g)) (run rt cfg events w).
Proof.
  revert w. induction events as [|e events IH]; intros w Hn H; [now left|].
  cbn [no_abort forallb] in Hn. apply andb_prop in Hn as [He Hn].
  cbn [run fold_left].
  assert (leading g (step rt cfg e w)
          \/ headed (due g) (payload_of (action g)) (step rt cfg e w)) as [H1|H1].
  { pose proof H as (_ & La & _).
    destruct e as [|message|code stderr|r| |ms]; cbn [step]; rewrite ?La;
      try (left; exact H); try discriminate He.
    - left. destruct (listening w); [apply leading_handle|]; exact H.
    - apply leading_elapse, H. }
  - apply IH; assumption.
  - right. clear IH Hn H. revert H1. generalize (step rt cfg e w). clear w.
    induction events as [|e' events IH]; intros w H; [exact H|].
    cbn [fold_left]. apply IH, headed_step, H.
Qed.

(** An accepted submit or cancel on a waiting session takes the lead. *)
Lemma terminal_leads (r : request) (cb : callback) (w : world) :
  waiting cfg w -> launch w = Settled -> timed cfg w ->
  terminal rt r = Some cb ->
  handle rt cfg r w
  = setTimeout cb 500 (emit (Respond Success) (clear_idle w))
  /\ leading {| timer_id := next_id w; due := now w + 500; action := cb |}
             (handle rt cfg r w).
Proof.
  intros (_ & _ & C & _ & _ & _ & id & I & T) La (_ & T2 & _) Hcb.
  rewrite (handle_terminal rt cfg r w cb Hcb). split; [reflexivity|].
  unfold leading, setTimeout, clear_idle. rewrite I.
  cbn [calls launch now next_id timeoutId timers with_timers emit clearTimeout due
       timer_id].
  rewrite T. cbn [filter timer_id]. rewrite Nat.eqb_refl. cbn [negb app andb].
  change ((1 <=? 500) && (500 <=? TIMEOUT_MAX)) with true. cbv iota.
  repeat (split; [first [assumption | lia]|]).
  split.
  - rewrite I. intros [= E].
    assert (In {| timer_id := id; due := now w + idle_after cfg;
                  action := IdleExpired |} (timers w)) as Hin
      by (rewrite T; now left).
    specialize (T2 _ Hin). cbn [timer_id] in T2. lia.
  - exists []. split; [reflexivity|]. intros u [].
Qed.

Lemma launch_stays_settled (events : list event) (w : world) :
  launch w = Settled -> launch (run rt cfg events w) = Settled.
Proof.
  revert w. induction events as [|e events IH]; intros w H; [exact H|].
  cbn [run fold_left]. apply IH.
  destruct e as [|message|code stderr|r| |ms]; cbn [step]; rewrite ?H;
    try reflexivity.
  - destruct (listening w); [|exact H].
    destruct (same_handle rt cfg r w) as (_ & _ & _ & A4 & _). now rewrite A4.
  - destruct (abort_armed w); [|exact H].
    destruct (resolved w) eqn:R;
      [now rewrite finish_resolved
      |destruct (finish_unresolved_fields rt cfg JNull (with_abort_armed false w) R)
         as (_ & _ & F3 & _); now rewrite F3].
  - unfold elapse. cbn [launch with_clock].
    generalize (List.length (timers w)) as fuel, (now w + Z.max 0 ms) as target.
    intros fuel target. revert w H.
    induction fuel as [|fuel IHf]; intros w H; cbn [run_timers]; [exact H|].
    destruct (next_due target (timers w)) as [t|]; [|exact H].
    apply IHf. rewrite fire_as_finish.
    match goal with |- launch (finish rt cfg ?p ?u) = _ =>
      destruct (resolved u) eqn:R;
        [rewrite finish_resolved by exact R
        |destruct (finish_unresolved_fields rt cfg p u R) as (_ & _ & F3 & _);
         rewrite F3]
    end; exact H.
Qed.

End Decision.
End DecisionFacts.

Module DecisionTheorems.
Import Js Text Plan Session Observe Schedule SessionFacts TimerFacts ServerTheorems
       VerdictFacts LivenessFacts TeardownFacts DecisionFacts.

(** X22. Without an abort, the first decision the server accepts is the
    one that counts.  Take a session that a client has kept alive, with
    an idle delay of 500 ms at least, and a POST of [/cancel] or of
    [/submit] with a parseable body.  Whatever requests, later submits
    and cancels included, and whatever lapses of time follow, as long as
    the tool call is not aborted: either less than 500 ms have passed
    since the request and [finish] has not been called, or the first call
    of [finish] was made exactly 500 ms after the request with the
    payload of that request, and what the session has written and
    resolved with is the outcome of that call. *)
Theorem first_decision_wins :
  forall (rt : Runtime) (cfg : Config) (t0 : Z) (stderr : string)
         (gaps : list (Z * string)) (r : request) (cb : callback)
         (events : list event),
    500 <= idle_after cfg ->
    Forall (fun g => fst g < idle_after cfg) gaps ->
    terminal rt r = Some cb ->
    no_abort events = true ->
    (calls (decided rt cfg t0 stderr gaps r events) = []
     /\ resolved (decided rt cfg t0 stderr gaps r events) = false
     /\ now (decided rt cfg t0 stderr gaps r events)
        < now (attended rt cfg t0 stderr gaps) + 500)
    \/ (exists later,
           calls (decided rt cfg t0 stderr gaps r events)
           = (now (attended rt cfg t0 stderr gaps) + 500, payload_of cb) :: later
           /\ resolved (decided rt cfg t0 stderr gaps r events) = true
           /\ filter of_finish (log (decided rt cfg t0 stderr gaps r events))
              = verdict_at rt cfg (now (attended rt cfg t0 stderr gaps) + 500)
                  (payload_of cb)).
Proof.
  intros rt cfg t0 stderr gaps r cb events Hidle Hg Hcb Hn.
  assert (waiting cfg (attended rt cfg t0 stderr gaps)) as W
    by (apply beats_waiting; [exact Hg | apply served_waiting]).
  assert (timed cfg (attended rt cfg t0 stderr gaps)) as T
    by (apply timed_run, timed_run, timed_start).
  assert (launch (attended rt cfg t0 stderr gaps) = Settled) as La
    by (apply launch_stays_settled; reflexivity).
  assert (coordinated rt cfg (decided rt cfg t0 stderr gaps r events)) as (G & _)
    by (apply run_coordinated, step_coordinated, beats_coordinated).
  unfold guarded in G. revert G. unfold decided.
  destruct (terminal_leads rt cfg r cb _ W La T Hcb) as [_ L].
  cbn [step]. destruct W as (_ & _ & _ & _ & Li & _). rewrite Li.
  destruct (leading_run rt cfg Hidle _ events _ Hn L)
    as [(C & _ & N1 & _)|[later C]]; cbn [due action] in *; rewrite C; intros [R F].
  - left. auto.
  - right. exists later. auto.
Qed.

(** On the sample session an approval is submitted and, 200 ms later,
    a cancel: the approval counts. *)
Lemma first_decision_wins_witness :
  exists later,
    calls (decided Reference.runtime Sample.options 0 "" []
             {| method := "POST"; pathname := "/submit";
                body := Reference.stringify
                          (Review.to_json (Sample.decision Review.approve [1; 2])) |}
             [Elapse 200; Sample.post "/cancel" ""; Elapse 600])
    = (500, Review.to_json (Sample.decision Review.approve [1; 2])) :: later.
Proof.
  destruct (first_decision_wins Reference.runtime Sample.options 0 "" []
              {| method := "POST"; pathname := "/submit";
                 body := Reference.stringify
                           (Review.to_json (Sample.decision Review.approve [1; 2])) |}
              (DelayedSubmit (Review.to_json (Sample.decision Review.approve [1; 2])))
              [Elapse 200; Sample.post "/cancel" ""; Elapse 600])
    as [(C & _)|(later & C & _)].
  - vm_compute. discriminate.
  - constructor.
  - vm_compute. reflexivity.
  - reflexivity.
  - vm_compute in C. discriminate C.
  - exists later. exact C.
Defined.

(** X23. The heartbeat always reports the whole timeout.  The answer
    to a GET of [/heartbeat] is computed right after the idle timer has
    been set again, so its [remaining] is the timeout of the session (0
    for a negative one), whenever the request comes. *)
Theorem heartbeat_reports_whole_timeout :
  forall (rt : Runtime) (cfg : Config) (r : request) (w : world),
    method r = "GET" -> pathname r = "/heartbeat" ->
    log (handle rt cfg r w)
    = (log w ++ [Respond (Heartbeat (Z.max 0 (timeout cfg)))])%list.
Proof.
  intros rt cfg r w M P. rewrite (handle_heartbeat rt cfg r w M P).
  destruct (resetTimeout_state cfg w) as (_ & _ & _ & _ & L1 & _).
  destruct (resetTimeout_state cfg (resetTimeout cfg w)) as (N2 & _ & _ & A2 & L2 & _).
  cbn [log emit]. unfold remaining_seconds.
  rewrite L2, L1, A2, N2, Z.sub_diag. change (0 / 1000) with 0.
  now rewrite Z.sub_0_r.
Qed.

(** 599 s into the sample session the heartbeat still answers 600. *)
Lemma heartbeat_reports_whole_timeout_witness :
  responses (log (handle Reference.runtime Sample.options
                    {| method := "GET"; pathname := "/heartbeat"; body := "" |}
                    (step Reference.runtime Sample.options (Elapse 599000)
                       (served Reference.runtime Sample.options 0 ""))))
  = [Heartbeat 600].
Proof.
  rewrite (heartbeat_reports_whole_timeout Reference.runtime Sample.options
             {| method := "GET"; pathname := "/heartbeat"; body := "" |}
             (step Reference.runtime Sample.options (Elapse 599000)
                (served Reference.runtime Sample.options 0 ""))
             eq_refl eq_refl).
  reflexivity.
Defined.

End DecisionTheorems.
